(** * dev-site: camera rig and popup state machine

    A shallow embedding of the two stateful parts of the portfolio page:

    - [PopupStateManager] (the scene module), the explicit state machine
      that drives the skill popup together with the browser timers it
      schedules;
    - [CameraControls], in its two copies [js/camera-controls.js] and
      [src/js/camera-controls.js], the spherical camera rig.

    JavaScript numbers are modelled as real numbers with exact arithmetic;
    NaN and the infinities of IEEE doubles are outside this model.  What
    is stated over the reals is what rounding preserves: the values of the
    code's own expressions and the inequalities between them.  Where
    rounding decides, [Binary64] evaluates the same assignments in IEEE
    binary64.  Strings, booleans, [null]/[undefined] (as [option]) and the
    DOM class lists (finite sets of strings) are modelled as the code has
    them. *)

From Stdlib Require PrimFloat.
From Stdlib Require Import Reals Lra.
From stdpp Require Import base strings gmap.

(** ** The popup state machine *)

Module PopupStateManager.

(** [static STATES]: the state is a JavaScript string. *)
Module STATES.
Definition CLOSED : string := "closed".
Definition OPENING : string := "opening".
Definition OPEN : string := "open".
Definition CLOSING : string := "closing".
End STATES.

(** The two closures handed to [setTimeout]: the one created in [open]
    and the one created in [close]. *)
Inductive Callback : Type :=
| AfterOpen
| AfterClose.

(** Calls made to the two option callbacks.  In the scene they are
    [console.debug] and [positionPopup]; neither calls back into the
    manager, so they are recorded as a trace. *)
Inductive Call : Type :=
| onStateChange (newState : string) (oldState : option string)
| onPositionNeeded (position : string).

(** The manager together with the part of the browser it talks to: the
    class list of [this.element] and the table of live timers.
    [setTimeout] hands out fresh positive handles from [nextHandle]. *)
Record t : Type := mk {
  classList : gset string;
  state : string;
  transitionDuration : nat;
  pendingTransition : option nat;
  timers : gmap nat (Callback * nat);
  nextHandle : nat;
  calls : list Call
}.

Definition set_classList (c : gset string) (m : t) : t :=
  mk c (state m) (transitionDuration m) (pendingTransition m)
     (timers m) (nextHandle m) (calls m).

Definition set_state (s : string) (m : t) : t :=
  mk (classList m) s (transitionDuration m) (pendingTransition m)
     (timers m) (nextHandle m) (calls m).

Definition set_pendingTransition (p : option nat) (m : t) : t :=
  mk (classList m) (state m) (transitionDuration m) p
     (timers m) (nextHandle m) (calls m).

Definition set_timers (ts : gmap nat (Callback * nat)) (m : t) : t :=
  mk (classList m) (state m) (transitionDuration m) (pendingTransition m)
     ts (nextHandle m) (calls m).

Definition emit (c : Call) (m : t) : t :=
  mk (classList m) (state m) (transitionDuration m) (pendingTransition m)
     (timers m) (nextHandle m) (calls m ++ [c]).

(** [element.classList.add] and [element.classList.remove]. *)
Definition classList_add (c : string) (m : t) : t :=
  set_classList (classList m ∪ {[ c ]}) m.

Definition classList_remove (cs : list string) (m : t) : t :=
  set_classList (classList m ∖ list_to_set cs) m.

(** [setTimeout(cb, delay)]: registers the callback under a fresh handle
    and returns the handle. *)
Definition setTimeout (cb : Callback) (delay : nat) (m : t) : nat * t :=
  (nextHandle m,
   mk (classList m) (state m) (transitionDuration m) (pendingTransition m)
      (<[ nextHandle m := (cb, delay) ]> (timers m)) (S (nextHandle m))
      (calls m)).

Definition clearTimeout (h : nat) (m : t) : t :=
  set_timers (delete h (timers m)) m.

(** [constructor(popupElement, options)]; [options.transitionDuration ||
    150] replaces a missing or zero duration by 150. *)
Definition constructor (elementClasses : gset string)
    (optTransitionDuration : option nat) : t :=
  mk elementClasses STATES.CLOSED
     (match optTransitionDuration with
      | Some 0 | None => 150
      | Some d => d
      end)
     None ∅ 1 [].

Definition getState (m : t) : string := state m.

Definition isVisible (m : t) : bool :=
  String.eqb (state m) STATES.OPENING || String.eqb (state m) STATES.OPEN.

Definition isInteractive (m : t) : bool :=
  String.eqb (state m) STATES.OPEN.

(** [if (this.pendingTransition)]: a handle is truthy unless it is 0. *)
Definition cancelPendingTransition (m : t) : t :=
  match pendingTransition m with
  | Some h =>
      if Nat.eqb h 0 then m
      else set_pendingTransition None (clearTimeout h m)
  | None => m
  end.

Definition open (position : string) (m : t) : t :=
  let m := cancelPendingTransition m in
  let prevState := state m in
  if String.eqb (state m) STATES.OPEN then
    emit (onPositionNeeded position) m
  else
    let m := if String.eqb (state m) STATES.CLOSING
             then classList_remove ["fading"] m else m in
    let m := emit (onPositionNeeded position) m in
    let m := set_state STATES.OPENING m in
    let m := classList_add "active" m in
    let m := classList_remove ["interactive"] m in
    let m := emit (onStateChange (state m) (Some prevState)) m in
    let '(h, m) := setTimeout AfterOpen (transitionDuration m) m in
    set_pendingTransition (Some h) m.

Definition close (m : t) : t :=
  let m := cancelPendingTransition m in
  if String.eqb (state m) STATES.CLOSED
     || String.eqb (state m) STATES.CLOSING then m
  else
    let prevState := state m in
    let m := classList_remove ["interactive"] m in
    let m := set_state STATES.CLOSING m in
    let m := classList_add "fading" m in
    let m := emit (onStateChange (state m) (Some prevState)) m in
    let '(h, m) := setTimeout AfterClose (transitionDuration m) m in
    set_pendingTransition (Some h) m.

Definition forceClose (m : t) : t :=
  let m := cancelPendingTransition m in
  let m := set_state STATES.CLOSED m in
  let m := classList_remove ["active"; "fading"; "interactive"] m in
  emit (onStateChange (state m) None) m.

(** The bodies of the two timer closures. *)
Definition run_callback (cb : Callback) (m : t) : t :=
  let m := set_pendingTransition None m in
  match cb with
  | AfterOpen =>
      if String.eqb (state m) STATES.OPENING then
        let prev := state m in
        let m := set_state STATES.OPEN m in
        let m := classList_add "interactive" m in
        emit (onStateChange (state m) (Some prev)) m
      else m
  | AfterClose =>
      if String.eqb (state m) STATES.CLOSING then
        let prev := state m in
        let m := set_state STATES.CLOSED m in
        let m := classList_remove ["active"; "fading"] m in
        emit (onStateChange (state m) (Some prev)) m
      else m
  end.

(** The browser fires the timer with handle [h]: a live timer leaves the
    table and its callback runs; a cleared or already fired handle does
    nothing. *)
Definition fire (h : nat) (m : t) : t :=
  match timers m !! h with
  | Some (cb, _) => run_callback cb (clearTimeout h m)
  | None => m
  end.

(** What can happen to a manager. *)
Inductive Action : Type :=
| CallOpen (position : string)
| CallClose
| CallForceClose
| TimerFires (h : nat).

Definition step (a : Action) (m : t) : t :=
  match a with
  | CallOpen position => open position m
  | CallClose => close m
  | CallForceClose => forceClose m
  | TimerFires h => fire h m
  end.

Definition run (acts : list Action) (m : t) : t :=
  fold_left (fun m a => step a m) acts m.

Inductive reachable : t -> Prop :=
| reachable_new classes d : reachable (constructor classes d)
| reachable_step a m : reachable m -> reachable (step a m).

End PopupStateManager.

(** ** Browser events and the camera object *)

Local Open Scope R_scope.

(** [{ x, y }] objects ([previousMouse], [previousTouch], ...). *)
Record Point : Type := mkPoint { x : R; y : R }.

(** DOM nodes are identified by a number. *)
Definition Element : Type := nat.

Module MouseEvent.
Record t : Type := mk { clientX : R; clientY : R; target : Element }.
End MouseEvent.

Module WheelEvent.
Record t : Type := mk { deltaY : R }.
End WheelEvent.

Module Touch.
Record t : Type := mk { clientX : R; clientY : R }.
End Touch.

Module TouchEvent.
Record t : Type := mk {
  touches : list Touch.t;
  changedTouches : list Touch.t;
  target : Element
}.
End TouchEvent.

Module KeyboardEvent.
Record t : Type := mk { key : string }.
End KeyboardEvent.

(** [alpha], [beta] and [gamma] are numbers or [null]. *)
Module DeviceOrientationEvent.
Record t : Type := mk {
  alpha : option R;
  beta : option R;
  gamma : option R
}.
End DeviceOrientationEvent.

(** The part of three.js the page relies on.  A camera carries its
    position, its field of view and its aspect ratio; [lookAt] turns the
    camera toward a point, which is recorded as [target] (three.js derives
    the orientation from [position] and that point and moves nothing). *)
Module THREE.

Record Vector3 : Type := mkVector3 { vx : R; vy : R; vz : R }.

Record PerspectiveCamera : Type := mkCamera {
  position : Vector3;
  fov : R;
  aspect : R;
  target : Vector3
}.

Definition lookAt (c : PerspectiveCamera) (x y z : R) : PerspectiveCamera :=
  mkCamera (position c) (fov c) (aspect c) (mkVector3 x y z).

Definition set_fov (v : R) (c : PerspectiveCamera) : PerspectiveCamera :=
  mkCamera (position c) v (aspect c) (target c).

Definition set_position (x y z : R) (c : PerspectiveCamera)
  : PerspectiveCamera :=
  mkCamera (mkVector3 x y z) (fov c) (aspect c) (target c).

(** Recomputes the projection matrix, which is not part of this model. *)
Definition updateProjectionMatrix (c : PerspectiveCamera)
  : PerspectiveCamera := c.

(** [new THREE.PerspectiveCamera(fov, aspect, near, far)]: a new object
    sits at the origin and looks down the negative z axis. *)
Definition newPerspectiveCamera (fov aspect : R) : PerspectiveCamera :=
  mkCamera (mkVector3 0 0 0) fov aspect (mkVector3 0 0 (-1)).

(** [THREE.MathUtils.degToRad]. *)
Definition degToRad (degrees : R) : R := degrees * (PI / 180).

End THREE.

(** ** The camera rig of [js/camera-controls.js] *)

Module JsCameraControls.

(** The fields of [this].  [cursor] is [domElement.style.cursor]; the
    gyroscope button is pure DOM and left out. *)
Record t : Type := mk {
  camera : THREE.PerspectiveCamera;
  cursor : string;
  enabled : bool;
  theta : R;
  phi : R;
  targetTheta : R;
  targetPhi : R;
  isDragging : bool;
  previousMouse : Point;
  previousTouch : Point;
  touchStartTime : R;
  gyroEnabled : bool;
  gyroCalibrated : bool;
  gyroAlphaOffset : R;
  gyroBetaOffset : R
}.

(** Assigned in the constructor and written by no method. *)
Definition minPhi : R := PI / 6.
Definition maxPhi : R := PI * 5 / 6.
Definition dampingFactor : R := 0.08.
Definition rotationSpeed : R := 0.003.

Definition set_camera (v : THREE.PerspectiveCamera) (s : t) : t :=
  mk v (cursor s) (enabled s) (theta s) (phi s) (targetTheta s)
     (targetPhi s) (isDragging s) (previousMouse s) (previousTouch s)
     (touchStartTime s) (gyroEnabled s) (gyroCalibrated s)
     (gyroAlphaOffset s) (gyroBetaOffset s).

Definition set_cursor (v : string) (s : t) : t :=
  mk (camera s) v (enabled s) (theta s) (phi s) (targetTheta s)
     (targetPhi s) (isDragging s) (previousMouse s) (previousTouch s)
     (touchStartTime s) (gyroEnabled s) (gyroCalibrated s)
     (gyroAlphaOffset s) (gyroBetaOffset s).

Definition set_enabled (v : bool) (s : t) : t :=
  mk (camera s) (cursor s) v (theta s) (phi s) (targetTheta s)
     (targetPhi s) (isDragging s) (previousMouse s) (previousTouch s)
     (touchStartTime s) (gyroEnabled s) (gyroCalibrated s)
     (gyroAlphaOffset s) (gyroBetaOffset s).

Definition set_theta (v : R) (s : t) : t :=
  mk (camera s) (cursor s) (enabled s) v (phi s) (targetTheta s)
     (targetPhi s) (isDragging s) (previousMouse s) (previousTouch s)
     (touchStartTime s) (gyroEnabled s) (gyroCalibrated s)
     (gyroAlphaOffset s) (gyroBetaOffset s).

Definition set_phi (v : R) (s : t) : t :=
  mk (camera s) (cursor s) (enabled s) (theta s) v (targetTheta s)
     (targetPhi s) (isDragging s) (previousMouse s) (previousTouch s)
     (touchStartTime s) (gyroEnabled s) (gyroCalibrated s)
     (gyroAlphaOffset s) (gyroBetaOffset s).

Definition set_targetTheta (v : R) (s : t) : t :=
  mk (camera s) (cursor s) (enabled s) (theta s) (phi s) v (targetPhi s)
     (isDragging s) (previousMouse s) (previousTouch s) (touchStartTime s)
     (gyroEnabled s) (gyroCalibrated s) (gyroAlphaOffset s)
     (gyroBetaOffset s).

Definition set_targetPhi (v : R) (s : t) : t :=
  mk (camera s) (cursor s) (enabled s) (theta s) (phi s) (targetTheta s) v
     (isDragging s) (previousMouse s) (previousTouch s) (touchStartTime s)
     (gyroEnabled s) (gyroCalibrated s) (gyroAlphaOffset s)
     (gyroBetaOffset s).

Definition set_isDragging (v : bool) (s : t) : t :=
  mk (camera s) (cursor s) (enabled s) (theta s) (phi s) (targetTheta s)
     (targetPhi s) v (previousMouse s) (previousTouch s)
     (touchStartTime s) (gyroEnabled s) (gyroCalibrated s)
     (gyroAlphaOffset s) (gyroBetaOffset s).

Definition set_previousMouse (v : Point) (s : t) : t :=
  mk (camera s) (cursor s) (enabled s) (theta s) (phi s) (targetTheta s)
     (targetPhi s) (isDragging s) v (previousTouch s) (touchStartTime s)
     (gyroEnabled s) (gyroCalibrated s) (gyroAlphaOffset s)
     (gyroBetaOffset s).

Definition set_previousTouch (v : Point) (s : t) : t :=
  mk (camera s) (cursor s) (enabled s) (theta s) (phi s) (targetTheta s)
     (targetPhi s) (isDragging s) (previousMouse s) v (touchStartTime s)
     (gyroEnabled s) (gyroCalibrated s) (gyroAlphaOffset s)
     (gyroBetaOffset s).

Definition set_touchStartTime (v : R) (s : t) : t :=
  mk (camera s) (cursor s) (enabled s) (theta s) (phi s) (targetTheta s)
     (targetPhi s) (isDragging s) (previousMouse s) (previousTouch s) v
     (gyroEnabled s) (gyroCalibrated s) (gyroAlphaOffset s)
     (gyroBetaOffset s).

Definition set_gyroEnabled (v : bool) (s : t) : t :=
  mk (camera s) (cursor s) (enabled s) (theta s) (phi s) (targetTheta s)
     (targetPhi s) (isDragging s) (previousMouse s) (previousTouch s)
     (touchStartTime s) v (gyroCalibrated s) (gyroAlphaOffset s)
     (gyroBetaOffset s).

Definition set_gyroCalibrated (v : bool) (s : t) : t :=
  mk (camera s) (cursor s) (enabled s) (theta s) (phi s) (targetTheta s)
     (targetPhi s) (isDragging s) (previousMouse s) (previousTouch s)
     (touchStartTime s) (gyroEnabled s) v (gyroAlphaOffset s)
     (gyroBetaOffset s).

Definition set_gyroAlphaOffset (v : R) (s : t) : t :=
  mk (camera s) (cursor s) (enabled s) (theta s) (phi s) (targetTheta s)
     (targetPhi s) (isDragging s) (previousMouse s) (previousTouch s)
     (touchStartTime s) (gyroEnabled s) (gyroCalibrated s) v
     (gyroBetaOffset s).

Definition set_gyroBetaOffset (v : R) (s : t) : t :=
  mk (camera s) (cursor s) (enabled s) (theta s) (phi s) (targetTheta s)
     (targetPhi s) (isDragging s) (previousMouse s) (previousTouch s)
     (touchStartTime s) (gyroEnabled s) (gyroCalibrated s)
     (gyroAlphaOffset s) v.

Definition updateCameraRotation (s : t) : t :=
  let lookDistance := 100 in
  let x := lookDistance * sin (phi s) * sin (theta s) in
  let y := lookDistance * cos (phi s) in
  let z := - lookDistance * sin (phi s) * cos (theta s) in
  set_camera (THREE.lookAt (camera s) x y z) s.

Definition constructor (camera : THREE.PerspectiveCamera) : t :=
  updateCameraRotation
    (mk camera "grab" false
        0 (PI / 2) 0 (PI / 2)
        false (mkPoint 0 0) (mkPoint 0 0) 0
        false false 0 0).

Definition onMouseDown (event : MouseEvent.t) (s : t) : t :=
  if negb (enabled s) then s
  else
    let s := set_isDragging true s in
    let s := set_previousMouse
               (mkPoint (MouseEvent.clientX event) (MouseEvent.clientY event))
               s in
    set_cursor "grabbing" s.

Definition onMouseMove (event : MouseEvent.t) (s : t) : t :=
  if negb (enabled s) || negb (isDragging s) then s
  else
    let deltaX := MouseEvent.clientX event - x (previousMouse s) in
    let deltaY := MouseEvent.clientY event - y (previousMouse s) in
    let s := set_targetTheta (targetTheta s - deltaX * rotationSpeed) s in
    let s := set_targetPhi (targetPhi s - deltaY * rotationSpeed) s in
    let s := set_targetPhi (Rmax minPhi (Rmin maxPhi (targetPhi s))) s in
    set_previousMouse
      (mkPoint (MouseEvent.clientX event) (MouseEvent.clientY event)) s.

Definition onMouseUp (s : t) : t :=
  set_cursor "grab" (set_isDragging false s).

(** [now] is the value of [Date.now()]. *)
Definition onTouchStart (now : R) (event : TouchEvent.t) (s : t) : t :=
  if negb (enabled s) || gyroEnabled s then s
  else
    match TouchEvent.touches event with
    | [touch] =>
        let s := set_touchStartTime now s in
        set_previousTouch
          (mkPoint (Touch.clientX touch) (Touch.clientY touch)) s
    | _ => s
    end.

Definition onTouchMove (event : TouchEvent.t) (s : t) : t :=
  if negb (enabled s) || gyroEnabled s then s
  else
    match TouchEvent.touches event with
    | [touch] =>
        let deltaX := Touch.clientX touch - x (previousTouch s) in
        let deltaY := Touch.clientY touch - y (previousTouch s) in
        let s := set_targetTheta
                   (targetTheta s - deltaX * rotationSpeed * 1.5) s in
        let s := set_targetPhi
                   (targetPhi s - deltaY * rotationSpeed * 1.5) s in
        let s := set_targetPhi
                   (Rmax minPhi (Rmin maxPhi (targetPhi s))) s in
        set_previousTouch
          (mkPoint (Touch.clientX touch) (Touch.clientY touch)) s
    | _ => s
    end.

Definition onTouchEnd (s : t) : t := s.

Definition onKeyDown (event : KeyboardEvent.t) (s : t) : t :=
  if negb (enabled s) then s
  else
    let rotateAmount := 0.1 in
    let key := KeyboardEvent.key event in
    if String.eqb key "ArrowLeft" || String.eqb key "a" then
      set_targetTheta (targetTheta s + rotateAmount) s
    else if String.eqb key "ArrowRight" || String.eqb key "d" then
      set_targetTheta (targetTheta s - rotateAmount) s
    else if String.eqb key "ArrowUp" || String.eqb key "w" then
      set_targetPhi (Rmax minPhi (targetPhi s - rotateAmount)) s
    else if String.eqb key "ArrowDown" || String.eqb key "s" then
      set_targetPhi (Rmin maxPhi (targetPhi s + rotateAmount)) s
    else s.

Definition enableGyroscope (s : t) : t := set_gyroEnabled true s.

(** The [onclick] closure installed by [enableGyroscope]. *)
Definition toggleGyroscope (s : t) : t :=
  set_gyroEnabled (negb (gyroEnabled s)) s.

Definition handleOrientation (event : DeviceOrientationEvent.t) (s : t)
  : t :=
  if negb (enabled s) || negb (gyroEnabled s) then s
  else
    match DeviceOrientationEvent.alpha event,
          DeviceOrientationEvent.beta event with
    | Some alpha, Some beta =>
        let s :=
          if negb (gyroCalibrated s) then
            let s := set_gyroAlphaOffset alpha s in
            let s := set_gyroBetaOffset beta s in
            set_gyroCalibrated true s
          else s in
        let alphaRad := THREE.degToRad (alpha - gyroAlphaOffset s) in
        let s := set_targetTheta (- alphaRad) s in
        let neutralBeta := 50 in
        let betaDelta := beta - neutralBeta in
        let betaRad := THREE.degToRad betaDelta in
        let s := set_targetPhi (PI / 2 + betaRad * 0.5) s in
        set_targetPhi (Rmax minPhi (Rmin maxPhi (targetPhi s))) s
    | _, _ => s
    end.

Definition update (s : t) : t :=
  if negb (enabled s) then s
  else
    let s := set_theta
               (theta s + (targetTheta s - theta s) * dampingFactor) s in
    let s := set_phi (phi s + (targetPhi s - phi s) * dampingFactor) s in
    updateCameraRotation s.

(** [phi || Math.PI / 2]: a missing argument and the number 0 are
    falsy. *)
Definition lookAt (theta' : R) (phi' : option R) (instant : bool) (s : t)
  : t :=
  let s := set_targetTheta theta' s in
  let s := set_targetPhi
             (match phi' with
              | Some p => if Req_dec_T p 0 then PI / 2 else p
              | None => PI / 2
              end) s in
  if instant then
    let s := set_theta (targetTheta s) s in
    let s := set_phi (targetPhi s) s in
    updateCameraRotation s
  else s.

Definition lookAtFront (instant : bool) (s : t) : t :=
  lookAt 0 (Some (PI / 2)) instant s.

Definition lookAtLeft (instant : bool) (s : t) : t :=
  lookAt (- PI / 3) (Some (PI / 2)) instant s.

Definition lookAtRight (instant : bool) (s : t) : t :=
  lookAt (PI / 3) (Some (PI / 2)) instant s.

Definition lookAtBack (instant : bool) (s : t) : t :=
  lookAt PI (Some (PI / 2)) instant s.

(** Everything that can happen to a rig: the DOM events it listens to,
    the per-frame update, its public methods, and the scene switching
    [enabled]. *)
Inductive Op : Type :=
| MouseDown (e : MouseEvent.t)
| MouseMove (e : MouseEvent.t)
| MouseUp
| TouchStart (now : R) (e : TouchEvent.t)
| TouchMove (e : TouchEvent.t)
| TouchEnd
| KeyDown (e : KeyboardEvent.t)
| EnableGyroscope
| ToggleGyroscope
| Orientation (e : DeviceOrientationEvent.t)
| Frame
| LookAt (theta' : R) (phi' : option R) (instant : bool)
| LookAtFront (instant : bool)
| LookAtLeft (instant : bool)
| LookAtRight (instant : bool)
| LookAtBack (instant : bool)
| SetEnabled (b : bool).

Definition step (o : Op) (s : t) : t :=
  match o with
  | MouseDown e => onMouseDown e s
  | MouseMove e => onMouseMove e s
  | MouseUp => onMouseUp s
  | TouchStart now e => onTouchStart now e s
  | TouchMove e => onTouchMove e s
  | TouchEnd => onTouchEnd s
  | KeyDown e => onKeyDown e s
  | EnableGyroscope => enableGyroscope s
  | ToggleGyroscope => toggleGyroscope s
  | Orientation e => handleOrientation e s
  | Frame => update s
  | LookAt th ph i => lookAt th ph i s
  | LookAtFront i => lookAtFront i s
  | LookAtLeft i => lookAtLeft i s
  | LookAtRight i => lookAtRight i s
  | LookAtBack i => lookAtBack i s
  | SetEnabled b => set_enabled b s
  end.

Definition run (ops : list Op) (s : t) : t :=
  fold_left (fun s o => step o s) ops s.

End JsCameraControls.

(** ** The camera rig of [src/js/camera-controls.js] *)

Module SrcCameraControls.

(** What a handler reads from the page while it runs: the two DOM
    queries of the class, [findInteractiveElementAtPoint] and
    [isInteractiveElement], and the clock [Date.now()]. *)
Record Env : Type := mkEnv {
  findInteractiveElementAtPoint : R -> R -> option Element;
  isInteractiveElement : Element -> bool;
  now : R
}.

(** The fields of [this].  [mouseDownPos], [mouseDownTime],
    [pendingClick], [touchStartPos] and [pendingTap] are undefined until
    a handler assigns them; [clicked] records the [click()] calls the rig
    dispatches. *)
Record t : Type := mk {
  camera : THREE.PerspectiveCamera;
  cursor : string;
  enabled : bool;
  theta : R;
  phi : R;
  targetTheta : R;
  targetPhi : R;
  isDragging : bool;
  previousMouse : Point;
  previousTouch : Point;
  touchStartTime : R;
  isPinching : bool;
  previousPinchDistance : R;
  targetFov : R;
  gyroEnabled : bool;
  gyroCalibrated : bool;
  gyroAlphaOffset : R;
  gyroBetaOffset : R;
  mouseDownPos : option Point;
  mouseDownTime : option R;
  pendingClick : option Element;
  touchStartPos : option Point;
  pendingTap : option Element;
  clicked : list Element
}.

(** Assigned in the constructor and written by no method. *)
Definition minPhi : R := PI / 6.
Definition maxPhi : R := PI * 5 / 6.
Definition dampingFactor : R := 0.08.
Definition rotationSpeed : R := 0.003.
Definition baseFov : R := 60.
Definition minFov : R := 30.
Definition maxFov : R := 90.
Definition zoomSpeed : R := 0.5.

Definition set_camera (v : THREE.PerspectiveCamera) (s : t) : t :=
  mk v (cursor s) (enabled s) (theta s) (phi s) (targetTheta s)
     (targetPhi s) (isDragging s) (previousMouse s) (previousTouch s)
     (touchStartTime s) (isPinching s) (previousPinchDistance s)
     (targetFov s) (gyroEnabled s) (gyroCalibrated s) (gyroAlphaOffset s)
     (gyroBetaOffset s) (mouseDownPos s) (mouseDownTime s)
     (pendingClick s) (touchStartPos s) (pendingTap s) (clicked s).

Definition set_cursor (v : string) (s : t) : t :=
  mk (camera s) v (enabled s) (theta s) (phi s) (targetTheta s)
     (targetPhi s) (isDragging s) (previousMouse s) (previousTouch s)
     (touchStartTime s) (isPinching s) (previousPinchDistance s)
     (targetFov s) (gyroEnabled s) (gyroCalibrated s) (gyroAlphaOffset s)
     (gyroBetaOffset s) (mouseDownPos s) (mouseDownTime s)
     (pendingClick s) (touchStartPos s) (pendingTap s) (clicked s).

Definition set_enabled (v : bool) (s : t) : t :=
  mk (camera s) (cursor s) v (theta s) (phi s) (targetTheta s)
     (targetPhi s) (isDragging s) (previousMouse s) (previousTouch s)
     (touchStartTime s) (isPinching s) (previousPinchDistance s)
     (targetFov s) (gyroEnabled s) (gyroCalibrated s) (gyroAlphaOffset s)
     (gyroBetaOffset s) (mouseDownPos s) (mouseDownTime s)
     (pendingClick s) (touchStartPos s) (pendingTap s) (clicked s).

Definition set_theta (v : R) (s : t) : t :=
  mk (camera s) (cursor s) (enabled s) v (phi s) (targetTheta s)
     (targetPhi s) (isDragging s) (previousMouse s) (previousTouch s)
     (touchStartTime s) (isPinching s) (previousPinchDistance s)
     (targetFov s) (gyroEnabled s) (gyroCalibrated s) (gyroAlphaOffset s)
     (gyroBetaOffset s) (mouseDownPos s) (mouseDownTime s)
     (pendingClick s) (touchStartPos s) (pendingTap s) (clicked s).

Definition set_phi (v : R) (s : t) : t :=
  mk (camera s) (cursor s) (enabled s) (theta s) v (targetTheta s)
     (targetPhi s) (isDragging s) (previousMouse s) (previousTouch s)
     (touchStartTime s) (isPinching s) (previousPinchDistance s)
     (targetFov s) (gyroEnabled s) (gyroCalibrated s) (gyroAlphaOffset s)
     (gyroBetaOffset s) (mouseDownPos s) (mouseDownTime s)
     (pendingClick s) (touchStartPos s) (pendingTap s) (clicked s).

Definition set_targetTheta (v : R) (s : t) : t :=
  mk (camera s) (cursor s) (enabled s) (theta s) (phi s) v (targetPhi s)
     (isDragging s) (previousMouse s) (previousTouch s) (touchStartTime s)
     (isPinching s) (previousPinchDistance s) (targetFov s)
     (gyroEnabled s) (gyroCalibrated s) (gyroAlphaOffset s)
     (gyroBetaOffset s) (mouseDownPos s) (mouseDownTime s)
     (pendingClick s) (touchStartPos s) (pendingTap s) (clicked s).

Definition set_targetPhi (v : R) (s : t) : t :=
  mk (camera s) (cursor s) (enabled s) (theta s) (phi s) (targetTheta s) v
     (isDragging s) (previousMouse s) (previousTouch s) (touchStartTime s)
     (isPinching s) (previousPinchDistance s) (targetFov s)
     (gyroEnabled s) (gyroCalibrated s) (gyroAlphaOffset s)
     (gyroBetaOffset s) (mouseDownPos s) (mouseDownTime s)
     (pendingClick s) (touchStartPos s) (pendingTap s) (clicked s).

Definition set_isDragging (v : bool) (s : t) : t :=
  mk (camera s) (cursor s) (enabled s) (theta s) (phi s) (targetTheta s)
     (targetPhi s) v (previousMouse s) (previousTouch s)
     (touchStartTime s) (isPinching s) (previousPinchDistance s)
     (targetFov s) (gyroEnabled s) (gyroCalibrated s) (gyroAlphaOffset s)
     (gyroBetaOffset s) (mouseDownPos s) (mouseDownTime s)
     (pendingClick s) (touchStartPos s) (pendingTap s) (clicked s).

Definition set_previousMouse (v : Point) (s : t) : t :=
  mk (camera s) (cursor s) (enabled s) (theta s) (phi s) (targetTheta s)
     (targetPhi s) (isDragging s) v (previousTouch s) (touchStartTime s)
     (isPinching s) (previousPinchDistance s) (targetFov s)
     (gyroEnabled s) (gyroCalibrated s) (gyroAlphaOffset s)
     (gyroBetaOffset s) (mouseDownPos s) (mouseDownTime s)
     (pendingClick s) (touchStartPos s) (pendingTap s) (clicked s).

Definition set_previousTouch (v : Point) (s : t) : t :=
  mk (camera s) (cursor s) (enabled s) (theta s) (phi s) (targetTheta s)
     (targetPhi s) (isDragging s) (previousMouse s) v (touchStartTime s)
     (isPinching s) (previousPinchDistance s) (targetFov s)
     (gyroEnabled s) (gyroCalibrated s) (gyroAlphaOffset s)
     (gyroBetaOffset s) (mouseDownPos s) (mouseDownTime s)
     (pendingClick s) (touchStartPos s) (pendingTap s) (clicked s).

Definition set_touchStartTime (v : R) (s : t) : t :=
  mk (camera s) (cursor s) (enabled s) (theta s) (phi s) (targetTheta s)
     (targetPhi s) (isDragging s) (previousMouse s) (previousTouch s) v
     (isPinching s) (previousPinchDistance s) (targetFov s)
     (gyroEnabled s) (gyroCalibrated s) (gyroAlphaOffset s)
     (gyroBetaOffset s) (mouseDownPos s) (mouseDownTime s)
     (pendingClick s) (touchStartPos s) (pendingTap s) (clicked s).

Definition set_isPinching (v : bool) (s : t) : t :=
  mk (camera s) (cursor s) (enabled s) (theta s) (phi s) (targetTheta s)
     (targetPhi s) (isDragging s) (previousMouse s) (previousTouch s)
     (touchStartTime s) v (previousPinchDistance s) (targetFov s)
     (gyroEnabled s) (gyroCalibrated s) (gyroAlphaOffset s)
     (gyroBetaOffset s) (mouseDownPos s) (mouseDownTime s)
     (pendingClick s) (touchStartPos s) (pendingTap s) (clicked s).

Definition set_previousPinchDistance (v : R) (s : t) : t :=
  mk (camera s) (cursor s) (enabled s) (theta s) (phi s) (targetTheta s)
     (targetPhi s) (isDragging s) (previousMouse s) (previousTouch s)
     (touchStartTime s) (isPinching s) v (targetFov s) (gyroEnabled s)
     (gyroCalibrated s) (gyroAlphaOffset s) (gyroBetaOffset s)
     (mouseDownPos s) (mouseDownTime s) (pendingClick s) (touchStartPos s)
     (pendingTap s) (clicked s).

Definition set_targetFov (v : R) (s : t) : t :=
  mk (camera s) (cursor s) (enabled s) (theta s) (phi s) (targetTheta s)
     (targetPhi s) (isDragging s) (previousMouse s) (previousTouch s)
     (touchStartTime s) (isPinching s) (previousPinchDistance s) v
     (gyroEnabled s) (gyroCalibrated s) (gyroAlphaOffset s)
     (gyroBetaOffset s) (mouseDownPos s) (mouseDownTime s)
     (pendingClick s) (touchStartPos s) (pendingTap s) (clicked s).

Definition set_gyroEnabled (v : bool) (s : t) : t :=
  mk (camera s) (cursor s) (enabled s) (theta s) (phi s) (targetTheta s)
     (targetPhi s) (isDragging s) (previousMouse s) (previousTouch s)
     (touchStartTime s) (isPinching s) (previousPinchDistance s)
     (targetFov s) v (gyroCalibrated s) (gyroAlphaOffset s)
     (gyroBetaOffset s) (mouseDownPos s) (mouseDownTime s)
     (pendingClick s) (touchStartPos s) (pendingTap s) (clicked s).

Definition set_gyroCalibrated (v : bool) (s : t) : t :=
  mk (camera s) (cursor s) (enabled s) (theta s) (phi s) (targetTheta s)
     (targetPhi s) (isDragging s) (previousMouse s) (previousTouch s)
     (touchStartTime s) (isPinching s) (previousPinchDistance s)
     (targetFov s) (gyroEnabled s) v (gyroAlphaOffset s)
     (gyroBetaOffset s) (mouseDownPos s) (mouseDownTime s)
     (pendingClick s) (touchStartPos s) (pendingTap s) (clicked s).

Definition set_gyroAlphaOffset (v : R) (s : t) : t :=
  mk (camera s) (cursor s) (enabled s) (theta s) (phi s) (targetTheta s)
     (targetPhi s) (isDragging s) (previousMouse s) (previousTouch s)
     (touchStartTime s) (isPinching s) (previousPinchDistance s)
     (targetFov s) (gyroEnabled s) (gyroCalibrated s) v (gyroBetaOffset s)
     (mouseDownPos s) (mouseDownTime s) (pendingClick s) (touchStartPos s)
     (pendingTap s) (clicked s).

Definition set_gyroBetaOffset (v : R) (s : t) : t :=
  mk (camera s) (cursor s) (enabled s) (theta s) (phi s) (targetTheta s)
     (targetPhi s) (isDragging s) (previousMouse s) (previousTouch s)
     (touchStartTime s) (isPinching s) (previousPinchDistance s)
     (targetFov s) (gyroEnabled s) (gyroCalibrated s) (gyroAlphaOffset s)
     v (mouseDownPos s) (mouseDownTime s) (pendingClick s)
     (touchStartPos s) (pendingTap s) (clicked s).

Definition set_mouseDownPos (v : option Point) (s : t) : t :=
  mk (camera s) (cursor s) (enabled s) (theta s) (phi s) (targetTheta s)
     (targetPhi s) (isDragging s) (previousMouse s) (previousTouch s)
     (touchStartTime s) (isPinching s) (previousPinchDistance s)
     (targetFov s) (gyroEnabled s) (gyroCalibrated s) (gyroAlphaOffset s)
     (gyroBetaOffset s) v (mouseDownTime s) (pendingClick s)
     (touchStartPos s) (pendingTap s) (clicked s).

Definition set_mouseDownTime (v : option R) (s : t) : t :=
  mk (camera s) (cursor s) (enabled s) (theta s) (phi s) (targetTheta s)
     (targetPhi s) (isDragging s) (previousMouse s) (previousTouch s)
     (touchStartTime s) (isPinching s) (previousPinchDistance s)
     (targetFov s) (gyroEnabled s) (gyroCalibrated s) (gyroAlphaOffset s)
     (gyroBetaOffset s) (mouseDownPos s) v (pendingClick s)
     (touchStartPos s) (pendingTap s) (clicked s).

Definition set_pendingClick (v : option Element) (s : t) : t :=
  mk (camera s) (cursor s) (enabled s) (theta s) (phi s) (targetTheta s)
     (targetPhi s) (isDragging s) (previousMouse s) (previousTouch s)
     (touchStartTime s) (isPinching s) (previousPinchDistance s)
     (targetFov s) (gyroEnabled s) (gyroCalibrated s) (gyroAlphaOffset s)
     (gyroBetaOffset s) (mouseDownPos s) (mouseDownTime s) v
     (touchStartPos s) (pendingTap s) (clicked s).

Definition set_touchStartPos (v : option Point) (s : t) : t :=
  mk (camera s) (cursor s) (enabled s) (theta s) (phi s) (targetTheta s)
     (targetPhi s) (isDragging s) (previousMouse s) (previousTouch s)
     (touchStartTime s) (isPinching s) (previousPinchDistance s)
     (targetFov s) (gyroEnabled s) (gyroCalibrated s) (gyroAlphaOffset s)
     (gyroBetaOffset s) (mouseDownPos s) (mouseDownTime s)
     (pendingClick s) v (pendingTap s) (clicked s).

Definition set_pendingTap (v : option Element) (s : t) : t :=
  mk (camera s) (cursor s) (enabled s) (theta s) (phi s) (targetTheta s)
     (targetPhi s) (isDragging s) (previousMouse s) (previousTouch s)
     (touchStartTime s) (isPinching s) (previousPinchDistance s)
     (targetFov s) (gyroEnabled s) (gyroCalibrated s) (gyroAlphaOffset s)
     (gyroBetaOffset s) (mouseDownPos s) (mouseDownTime s)
     (pendingClick s) (touchStartPos s) v (clicked s).

Definition set_clicked (v : list Element) (s : t) : t :=
  mk (camera s) (cursor s) (enabled s) (theta s) (phi s) (targetTheta s)
     (targetPhi s) (isDragging s) (previousMouse s) (previousTouch s)
     (touchStartTime s) (isPinching s) (previousPinchDistance s)
     (targetFov s) (gyroEnabled s) (gyroCalibrated s) (gyroAlphaOffset s)
     (gyroBetaOffset s) (mouseDownPos s) (mouseDownTime s)
     (pendingClick s) (touchStartPos s) (pendingTap s) v.

Definition updateCameraRotation (s : t) : t :=
  let lookDistance := 100 in
  let x := lookDistance * sin (phi s) * sin (theta s) in
  let y := lookDistance * cos (phi s) in
  let z := - lookDistance * sin (phi s) * cos (theta s) in
  set_camera (THREE.lookAt (camera s) x y z) s.

Definition constructor (camera : THREE.PerspectiveCamera) : t :=
  updateCameraRotation
    (mk camera "grab" false
        0 (PI / 2) 0 (PI / 2)
        false (mkPoint 0 0) (mkPoint 0 0) 0
        false 0 60
        false false 0 0
        None None None None None []).

Definition onMouseWheel (event : WheelEvent.t) (s : t) : t :=
  if negb (enabled s) then s
  else
    let s := set_targetFov (targetFov s + WheelEvent.deltaY event * 0.05)
               s in
    set_targetFov (Rmax minFov (Rmin maxFov (targetFov s))) s.

Definition onMouseDown (env : Env) (event : MouseEvent.t) (s : t) : t :=
  if negb (enabled s) then s
  else
    let s := set_mouseDownPos
               (Some (mkPoint (MouseEvent.clientX event)
                              (MouseEvent.clientY event))) s in
    let s := set_mouseDownTime (Some (now env)) s in
    match findInteractiveElementAtPoint env (MouseEvent.clientX event)
            (MouseEvent.clientY event) with
    | Some interactiveEl => set_pendingClick (Some interactiveEl) s
    | None =>
        if isInteractiveElement env (MouseEvent.target event) then s
        else
          let s := set_isDragging true s in
          let s := set_previousMouse
                     (mkPoint (MouseEvent.clientX event)
                              (MouseEvent.clientY event)) s in
          set_cursor "grabbing" s
    end.

Definition onMouseMove (event : MouseEvent.t) (s : t) : t :=
  if negb (enabled s) || negb (isDragging s) then s
  else
    let deltaX := MouseEvent.clientX event - x (previousMouse s) in
    let deltaY := MouseEvent.clientY event - y (previousMouse s) in
    let s := set_targetTheta (targetTheta s - deltaX * rotationSpeed) s in
    let s := set_targetPhi (targetPhi s - deltaY * rotationSpeed) s in
    let s := set_targetPhi (Rmax minPhi (Rmin maxPhi (targetPhi s))) s in
    set_previousMouse
      (mkPoint (MouseEvent.clientX event) (MouseEvent.clientY event)) s.

(** [mouseup] passes its event, [mouseleave] passes none.  Reading
    [this.mouseDownPos.x] while [mouseDownPos] is undefined raises a
    TypeError, which ends the handler before it has written anything;
    an undefined [mouseDownTime] makes [duration] NaN and the comparison
    false. *)
Definition onMouseUp (env : Env) (event : option MouseEvent.t) (s : t)
  : option t :=
  let finish s := set_cursor "grab" (set_isDragging false s) in
  match pendingClick s, event with
  | Some el, Some e =>
      match mouseDownPos s with
      | None => None
      | Some downPos =>
          let dx := MouseEvent.clientX e - x downPos in
          let dy := MouseEvent.clientY e - y downPos in
          let distance := sqrt (dx * dx + dy * dy) in
          let quick :=
            match mouseDownTime s with
            | Some downTime =>
                let duration := now env - downTime in
                if Rlt_dec distance 10 then
                  if Rlt_dec duration 300 then true else false
                else false
            | None => false
            end in
          let s := if quick then set_clicked (clicked s ++ [el]) s
                   else s in
          let s := set_pendingClick None s in
          Some (finish s)
      end
  | _, _ => Some (finish s)
  end.

(** [touches[0]] and [touches[1]] of a two-finger gesture. *)
Definition getPinchDistance (t0 t1 : Touch.t) : R :=
  let dx := Touch.clientX t0 - Touch.clientX t1 in
  let dy := Touch.clientY t0 - Touch.clientY t1 in
  sqrt (dx * dx + dy * dy).

(** The statements of [onTouchStart] that follow the tap detection. *)
Definition onTouchStart_gesture (env : Env) (event : TouchEvent.t) (s : t)
  : t :=
  if isInteractiveElement env (TouchEvent.target event) then s
  else
    match TouchEvent.touches event with
    | [t0; t1] =>
        let s := set_isPinching true s in
        let s := set_pendingTap None s in
        set_previousPinchDistance (getPinchDistance t0 t1) s
    | [touch] =>
        if negb (gyroEnabled s) then
          set_previousTouch
            (mkPoint (Touch.clientX touch) (Touch.clientY touch)) s
        else s
    | _ => s
    end.

Definition onTouchStart (env : Env) (event : TouchEvent.t) (s : t) : t :=
  if negb (enabled s) then s
  else
    match TouchEvent.touches event with
    | [touch] =>
        let s := set_touchStartPos
                   (Some (mkPoint (Touch.clientX touch)
                                  (Touch.clientY touch))) s in
        let s := set_touchStartTime (now env) s in
        match findInteractiveElementAtPoint env (Touch.clientX touch)
                (Touch.clientY touch) with
        | Some interactiveEl => set_pendingTap (Some interactiveEl) s
        | None => onTouchStart_gesture env event s
        end
    | _ => onTouchStart_gesture env event s
    end.

Definition onTouchMove (event : TouchEvent.t) (s : t) : t :=
  if negb (enabled s) then s
  else
    match TouchEvent.touches event, isPinching s with
    | [t0; t1], true =>
        let currentDistance := getPinchDistance t0 t1 in
        let delta := currentDistance - previousPinchDistance s in
        let s := set_targetFov (targetFov s - delta * zoomSpeed * 0.1) s in
        let s := set_targetFov
                   (Rmax minFov (Rmin maxFov (targetFov s))) s in
        set_previousPinchDistance currentDistance s
    | touches, _ =>
        if gyroEnabled s then s
        else
          match touches with
          | [touch] =>
              let deltaX := Touch.clientX touch - x (previousTouch s) in
              let deltaY := Touch.clientY touch - y (previousTouch s) in
              let s := set_targetTheta
                         (targetTheta s - deltaX * rotationSpeed * 1.5)
                         s in
              let s := set_targetPhi
                         (targetPhi s - deltaY * rotationSpeed * 1.5) s in
              let s := set_targetPhi
                         (Rmax minPhi (Rmin maxPhi (targetPhi s))) s in
              set_previousTouch
                (mkPoint (Touch.clientX touch) (Touch.clientY touch)) s
          | _ => s
          end
    end.

(** As in [onMouseUp], an undefined [touchStartPos] raises before
    anything is written. *)
Definition onTouchEnd (env : Env) (event : option TouchEvent.t) (s : t)
  : option t :=
  let finish s :=
    match event with
    | Some e =>
        if (length (TouchEvent.touches e) <? 2)%nat
        then set_isPinching false s else s
    | None => set_isPinching false s
    end in
  match pendingTap s, event with
  | Some el, Some e =>
      match TouchEvent.changedTouches e with
      | touch :: _ =>
          match touchStartPos s with
          | None => None
          | Some startPos =>
              let dx := Touch.clientX touch - x startPos in
              let dy := Touch.clientY touch - y startPos in
              let distance := sqrt (dx * dx + dy * dy) in
              let duration := now env - touchStartTime s in
              let quick :=
                if Rlt_dec distance 15 then
                  if Rlt_dec duration 400 then true else false
                else false in
              let s := if quick then set_clicked (clicked s ++ [el]) s
                       else s in
              let s := set_pendingTap None s in
              Some (finish s)
          end
      | [] => Some (finish s)
      end
  | _, _ => Some (finish s)
  end.

Definition onKeyDown (event : KeyboardEvent.t) (s : t) : t :=
  if negb (enabled s) then s
  else
    let rotateAmount := 0.1 in
    let key := KeyboardEvent.key event in
    if String.eqb key "ArrowLeft" || String.eqb key "a" then
      set_targetTheta (targetTheta s + rotateAmount) s
    else if String.eqb key "ArrowRight" || String.eqb key "d" then
      set_targetTheta (targetTheta s - rotateAmount) s
    else if String.eqb key "ArrowUp" || String.eqb key "w" then
      set_targetPhi (Rmax minPhi (targetPhi s - rotateAmount)) s
    else if String.eqb key "ArrowDown" || String.eqb key "s" then
      set_targetPhi (Rmin maxPhi (targetPhi s + rotateAmount)) s
    else s.

Definition enableGyroscope (s : t) : t := set_gyroEnabled true s.

(** The [onclick] closure installed by [enableGyroscope]. *)
Definition toggleGyroscope (s : t) : t :=
  set_gyroEnabled (negb (gyroEnabled s)) s.

Definition handleOrientation (event : DeviceOrientationEvent.t) (s : t)
  : t :=
  if negb (enabled s) || negb (gyroEnabled s) then s
  else
    match DeviceOrientationEvent.alpha event,
          DeviceOrientationEvent.beta event with
    | Some alpha, Some beta =>
        let s :=
          if negb (gyroCalibrated s) then
            let s := set_gyroAlphaOffset alpha s in
            let s := set_gyroBetaOffset beta s in
            set_gyroCalibrated true s
          else s in
        let alphaRad := THREE.degToRad (alpha - gyroAlphaOffset s) in
        let s := set_targetTheta alphaRad s in
        let neutralBeta := 50 in
        let betaDelta := beta - neutralBeta in
        let betaRad := THREE.degToRad betaDelta in
        let s := set_targetPhi (PI / 2 - betaRad * 0.5) s in
        set_targetPhi (Rmax minPhi (Rmin maxPhi (targetPhi s))) s
    | _, _ => s
    end.

Definition update (s : t) : t :=
  if negb (enabled s) then s
  else
    let s := set_theta
               (theta s + (targetTheta s - theta s) * dampingFactor) s in
    let s := set_phi (phi s + (targetPhi s - phi s) * dampingFactor) s in
    let currentFov := THREE.fov (camera s) in
    let s :=
      if Rgt_dec (Rabs (currentFov - targetFov s)) 0.1 then
        let c := THREE.set_fov
                   (THREE.fov (camera s)
                    + (targetFov s - currentFov) * dampingFactor)
                   (camera s) in
        set_camera (THREE.updateProjectionMatrix c) s
      else s in
    updateCameraRotation s.

(** [phi || Math.PI / 2]: a missing argument and the number 0 are
    falsy. *)
Definition lookAt (theta' : R) (phi' : option R) (instant : bool) (s : t)
  : t :=
  let s := set_targetTheta theta' s in
  let s := set_targetPhi
             (match phi' with
              | Some p => if Req_dec_T p 0 then PI / 2 else p
              | None => PI / 2
              end) s in
  if instant then
    let s := set_theta (targetTheta s) s in
    let s := set_phi (targetPhi s) s in
    updateCameraRotation s
  else s.

Definition lookAtFront (instant : bool) (s : t) : t :=
  lookAt 0 (Some (PI / 2)) instant s.

Definition lookAtLeft (instant : bool) (s : t) : t :=
  lookAt (- PI / 3) (Some (PI / 2)) instant s.

Definition lookAtRight (instant : bool) (s : t) : t :=
  lookAt (PI / 3) (Some (PI / 2)) instant s.

Definition lookAtBack (instant : bool) (s : t) : t :=
  lookAt PI (Some (PI / 2)) instant s.

Definition lookAtSkillPopup (position : string) (s : t) : t :=
  let baseTheta := - PI / 3 in
  let '(thetaOffset, phiOffset) :=
    if String.eqb position "top-left" then (-0.35, -0.15)
    else if String.eqb position "top-right" then (0.35, -0.15)
    else if String.eqb position "bottom" then (0, 0.15)
    else (0, 0) in
  let s := set_targetTheta (baseTheta + thetaOffset) s in
  let s := set_targetPhi (PI / 2 + phiOffset) s in
  set_targetPhi (Rmax minPhi (Rmin maxPhi (targetPhi s))) s.

(** Everything that can happen to a rig.  A handler that raises leaves
    the rig as it was. *)
Inductive Op : Type :=
| MouseWheel (e : WheelEvent.t)
| MouseDown (env : Env) (e : MouseEvent.t)
| MouseMove (e : MouseEvent.t)
| MouseUp (env : Env) (e : option MouseEvent.t)
| TouchStart (env : Env) (e : TouchEvent.t)
| TouchMove (e : TouchEvent.t)
| TouchEnd (env : Env) (e : option TouchEvent.t)
| KeyDown (e : KeyboardEvent.t)
| EnableGyroscope
| ToggleGyroscope
| Orientation (e : DeviceOrientationEvent.t)
| Frame
| LookAt (theta' : R) (phi' : option R) (instant : bool)
| LookAtFront (instant : bool)
| LookAtLeft (instant : bool)
| LookAtRight (instant : bool)
| LookAtBack (instant : bool)
| LookAtSkillPopup (position : string)
| SetEnabled (b : bool).

Definition step (o : Op) (s : t) : t :=
  match o with
  | MouseWheel e => onMouseWheel e s
  | MouseDown env e => onMouseDown env e s
  | MouseMove e => onMouseMove e s
  | MouseUp env e => default s (onMouseUp env e s)
  | TouchStart env e => onTouchStart env e s
  | TouchMove e => onTouchMove e s
  | TouchEnd env e => default s (onTouchEnd env e s)
  | KeyDown e => onKeyDown e s
  | EnableGyroscope => enableGyroscope s
  | ToggleGyroscope => toggleGyroscope s
  | Orientation e => handleOrientation e s
  | Frame => update s
  | LookAt th ph i => lookAt th ph i s
  | LookAtFront i => lookAtFront i s
  | LookAtLeft i => lookAtLeft i s
  | LookAtRight i => lookAtRight i s
  | LookAtBack i => lookAtBack i s
  | LookAtSkillPopup position => lookAtSkillPopup position s
  | SetEnabled b => set_enabled b s
  end.

Definition run (ops : list Op) (s : t) : t :=
  fold_left (fun s o => step o s) ops s.

End SrcCameraControls.

(** ** The smoothing step in binary64 *)

(** The angles of a rig as the browser holds them, in IEEE binary64, and
    the two assignments of [update()] (the same text in both copies) in
    that arithmetic; [updateCameraRotation] writes the camera only. *)
Module Binary64.
Import PrimFloat.
Local Open Scope float_scope.

Record t : Type := mk {
  enabled : bool;
  theta : float;
  phi : float;
  targetTheta : float;
  targetPhi : float
}.

Definition dampingFactor : float := 0.08.

Definition update (s : t) : t :=
  if negb (enabled s) then s
  else
    let theta' := theta s + (targetTheta s - theta s) * dampingFactor in
    let phi' := phi s + (targetPhi s - phi s) * dampingFactor in
    mk (enabled s) theta' phi' (targetTheta s) (targetPhi s).

Definition frames (n : nat) (s : t) : t := Nat.iter n update s.

(** [Math.PI]. *)
Definition PI : float := 0x1.921fb54442d18p+1.

(** Enabled controls at the horizon whose yaw target is one unit in the
    last place above the yaw 1. *)
Definition near_target : t := mk true 1 (PI / 2) (1 + 0x1p-52) (PI / 2).

(** New controls, enabled, after [lookAtLeft()]. *)
Definition turning_left : t := mk true 0 (PI / 2) (- PI / 3) (PI / 2).

End Binary64.

(** ** The scene and the page *)

Module PortfolioScene.

(** What the constructor reads from the page: the window size and the
    class list of the [#skill-popup] element, when the page has one. *)
Record Env : Type := mkEnv {
  innerWidth : R;
  innerHeight : R;
  skillPopup : option (gset string)
}.

(** The camera is one object shared by the scene and its controls; it
    lives in [controls]. *)
Record t : Type := mk {
  controls : SrcCameraControls.t;
  popupState : option PopupStateManager.t;
  isInitialized : bool
}.

Definition camera (sc : t) : THREE.PerspectiveCamera :=
  SrcCameraControls.camera (controls sc).

Definition createCamera (env : Env) : THREE.PerspectiveCamera :=
  let camera := THREE.newPerspectiveCamera 60
                  (innerWidth env / innerHeight env) in
  THREE.set_position 0 0 0 camera.

(** [createPopupPanel]: without the element there is no state manager. *)
Definition createPopupPanel (env : Env) : option PopupStateManager.t :=
  match skillPopup env with
  | Some classes => Some (PopupStateManager.constructor classes (Some 150%nat))
  | None => None
  end.

Definition createControls (camera : THREE.PerspectiveCamera)
  : SrcCameraControls.t :=
  SrcCameraControls.constructor camera.

(** The scene that [constructor] and [init] leave when they run to the
    end, as far as camera, controls and popup are concerned; room and
    panels are scene-graph and DOM construction.  [init] does not always
    run to the end: see [createRenderers] and [new] below. *)
Definition constructor (env : Env) : t :=
  let camera := createCamera env in
  let popupState := createPopupPanel env in
  let controls := createControls camera in
  mk controls popupState true.

(** What [createRenderers] needs from the browser: a WebGL context, which
    [new THREE.WebGLRenderer] raises without, and the [#threejs-container]
    element, on which [container.appendChild] is called. *)
Record Host : Type := mkHost {
  webglContext : bool;
  threejsContainer : bool
}.

Inductive Exception : Type :=
| WebGLContextError
| TypeError.



Definition showPopup (position : string) (sc : t) : t :=
  match popupState sc with
  | None => sc
  | Some popup =>
      let controls :=
        SrcCameraControls.lookAtSkillPopup position (controls sc) in
      mk controls (Some (PopupStateManager.open position popup))
         (isInitialized sc)
  end.

Definition hidePopup (sc : t) : t :=
  match popupState sc with
  | None => sc
  | Some popup =>
      let popup := PopupStateManager.close popup in
      mk (SrcCameraControls.lookAtLeft false (controls sc)) (Some popup)
         (isInitialized sc)
  end.

Definition isPopupVisible (sc : t) : bool :=
  match popupState sc with
  | Some popup => PopupStateManager.isVisible popup
  | None => false
  end.

Definition isPopupInteractive (sc : t) : bool :=
  match popupState sc with
  | Some popup => PopupStateManager.isInteractive popup
  | None => false
  end.

End PortfolioScene.

Module Page.

(** The page as [initPortfolio] sees it.  [WebGLRenderingContext] is the
    truthiness of [window.WebGLRenderingContext]; [portfolioScene] is the
    module variable and [window_portfolioScene] the property of
    [window]; [warnings] collects [console.warn]; [uncaught] is the
    exception that left [initPortfolio], if one did. *)
Record t : Type := mk {
  WebGLRenderingContext : bool;
  host : PortfolioScene.Host;
  env : PortfolioScene.Env;
  bodyClassList : gset string;
  portfolioScene : option PortfolioScene.t;
  window_portfolioScene : option PortfolioScene.t;
  warnings : list string;
  uncaught : option PortfolioScene.Exception
}.



End Page.

(** ** JavaScript operators on numbers *)

Module Number.

(** Comparisons as booleans. *)
Definition ltb (a b : R) : bool := if Rlt_dec a b then true else false.
Definition gtb (a b : R) : bool := if Rgt_dec a b then true else false.
Definition geb (a b : R) : bool := if Rge_dec a b then true else false.

(** Rounding toward zero. *)
Definition trunc (r : R) : R :=
  if Rle_dec 0 r then IZR (Int_part r) else - IZR (Int_part (- r)).

(** [n % d]: the remainder of the division truncated toward zero; it has
    the sign of the dividend. *)
Definition rem (n d : R) : R := n - d * trunc (n / d).

End Number.

(** ** The rest of the camera rig *)

(** [getCurrentDirection], the same text in both copies. *)
Module JsDirection.

Definition getCurrentDirection (s : JsCameraControls.t) : string :=
  let normalizedTheta := Number.rem (JsCameraControls.theta s) (PI * 2) in
  let normalizedTheta :=
    if Number.ltb normalizedTheta 0 then normalizedTheta + PI * 2
    else normalizedTheta in
  if Number.ltb normalizedTheta (PI / 8)
     || Number.gtb normalizedTheta (PI * 15 / 8) then "front"
  else if Number.geb normalizedTheta (PI / 8)
          && Number.ltb normalizedTheta (PI * 3 / 8) then "left"
  else if Number.geb normalizedTheta (PI * 5 / 8)
          && Number.ltb normalizedTheta (PI * 11 / 8) then "back"
  else if Number.geb normalizedTheta (PI * 13 / 8)
          && Number.ltb normalizedTheta (PI * 15 / 8) then "right"
  else "unknown".

End JsDirection.

Module SrcDirection.

Definition getCurrentDirection (s : SrcCameraControls.t) : string :=
  let normalizedTheta := Number.rem (SrcCameraControls.theta s) (PI * 2) in
  let normalizedTheta :=
    if Number.ltb normalizedTheta 0 then normalizedTheta + PI * 2
    else normalizedTheta in
  if Number.ltb normalizedTheta (PI / 8)
     || Number.gtb normalizedTheta (PI * 15 / 8) then "front"
  else if Number.geb normalizedTheta (PI / 8)
          && Number.ltb normalizedTheta (PI * 3 / 8) then "left"
  else if Number.geb normalizedTheta (PI * 5 / 8)
          && Number.ltb normalizedTheta (PI * 11 / 8) then "back"
  else if Number.geb normalizedTheta (PI * 13 / 8)
          && Number.ltb normalizedTheta (PI * 15 / 8) then "right"
  else "unknown".

End SrcDirection.

(** The event listeners the rig registers and the ones [dispose] asks to
    remove.  A callback is either a method of the class taken as a value
    ([this.onMouseDown]) or one of the arrow functions written in the
    [setup...] methods; the arrow functions are told apart by the event
    they are written for. *)
Module Listeners.

Inductive EventTarget : Type := DomElement | Document | Window.

Inductive Fn : Type :=
| Method (name : string)
| Arrow (event : string).

Record Listener : Type := mkListener {
  target : EventTarget;
  type : string;
  callback : Fn;
  capture : bool
}.

Global Instance EventTarget_eq_dec : EqDecision EventTarget.
Proof. solve_decision. Defined.

Global Instance Fn_eq_dec : EqDecision Fn.
Proof. solve_decision. Defined.

Global Instance Listener_eq_dec : EqDecision Listener.
Proof. solve_decision. Defined.

(** [addEventListener] ignores a listener that is already registered with
    the same type, callback and capture flag. *)
Definition addEventListener (tg : EventTarget) (ty : string) (f : Fn)
    (cap : bool) (ls : list Listener) : list Listener :=
  if decide (mkListener tg ty f cap ∈ ls) then ls
  else ls ++ [mkListener tg ty f cap].

Definition removeEventListener (tg : EventTarget) (ty : string) (f : Fn)
    (ls : list Listener) : list Listener :=
  filter (fun l => l <> mkListener tg ty f false) ls.

Definition setupMouseControls (wheel : bool) (ls : list Listener)
  : list Listener :=
  let ls := addEventListener DomElement "mousedown" (Arrow "mousedown")
              false ls in
  let ls := addEventListener DomElement "mousemove" (Arrow "mousemove")
              false ls in
  let ls := addEventListener DomElement "mouseup" (Arrow "mouseup")
              false ls in
  let ls := addEventListener DomElement "mouseleave" (Arrow "mouseleave")
              false ls in
  if wheel then
    addEventListener DomElement "wheel" (Arrow "wheel") false ls
  else ls.

Definition setupTouchControls (ls : list Listener) : list Listener :=
  let ls := addEventListener DomElement "touchstart" (Arrow "touchstart")
              false ls in
  let ls := addEventListener DomElement "touchmove" (Arrow "touchmove")
              false ls in
  addEventListener DomElement "touchend" (Arrow "touchend") false ls.

Definition setupKeyboardControls (ls : list Listener) : list Listener :=
  addEventListener Document "keydown" (Arrow "keydown") false ls.

(** The registrations of the constructor; [wheel] tells the copy in
    [src/js/], which also listens to the wheel, from the one in [js/]. *)
Definition constructor (wheel : bool) (ls : list Listener) : list Listener :=
  setupKeyboardControls (setupTouchControls (setupMouseControls wheel ls)).

Definition dispose (ls : list Listener) : list Listener :=
  let ls := removeEventListener DomElement "mousedown"
              (Method "onMouseDown") ls in
  let ls := removeEventListener DomElement "mousemove"
              (Method "onMouseMove") ls in
  let ls := removeEventListener DomElement "mouseup"
              (Method "onMouseUp") ls in
  let ls := removeEventListener DomElement "touchstart"
              (Method "onTouchStart") ls in
  let ls := removeEventListener DomElement "touchmove"
              (Method "onTouchMove") ls in
  removeEventListener DomElement "touchend" (Method "onTouchEnd") ls.

End Listeners.

(** ** The panels of the scene *)

Module Panels.









End Panels.

(** ** [script.js] *)

Module Script.

(** A [.nav-btn] element: its [data-direction] and its class list. *)
Record NavButton : Type := mkNavButton {
  direction : option string;
  classList : gset string
}.

Definition classList_add (c : string) (b : NavButton) : NavButton :=
  mkNavButton (direction b) (classList b ∪ {[ c ]}).

Definition classList_remove (c : string) (b : NavButton) : NavButton :=
  mkNavButton (direction b) (classList b ∖ {[ c ]}).

(** [classList.toggle(c, force)]. *)
Definition classList_toggle (c : string) (force : bool) (b : NavButton)
  : NavButton :=
  if force then classList_add c b else classList_remove c b.

Definition updateNavActive (dir : string) (navButtons : list NavButton)
  : list NavButton :=
  map (fun btn =>
         classList_toggle "active"
           (bool_decide (direction btn = Some dir)) btn)
      navButtons.

(** The class changes of the click handler of the [k]-th button, as
    [initNavHUD] and the scene's [setupNavHUD] both write them. *)
Definition navClick_classes (k : nat) (navButtons : list NavButton)
  : list NavButton :=
  alter (classList_add "active") k
        (map (classList_remove "active") navButtons).

(** The [switch (direction)] of the click handler, on the controls. *)
Definition navLook (dir : option string) (controls : SrcCameraControls.t)
  : SrcCameraControls.t :=
  match dir with
  | Some d =>
      if String.eqb d "front" then SrcCameraControls.lookAtFront false controls
      else if String.eqb d "left" then
        SrcCameraControls.lookAtLeft false controls
      else if String.eqb d "right" then
        SrcCameraControls.lookAtRight false controls
      else if String.eqb d "back" then
        SrcCameraControls.lookAtBack false controls
      else controls
  | None => controls
  end.

(** The page as the keyboard shortcuts see it: the controls of
    [window.portfolioScene], when there is a scene, and the buttons. *)
Record Hud : Type := mkHud {
  controls : option SrcCameraControls.t;
  navButtons : list NavButton;
  feedback : list string
}.

Definition jump (look : SrcCameraControls.t -> SrcCameraControls.t)
    (dir message : string) (h : Hud) : Hud :=
  match controls h with
  | Some c =>
      mkHud (Some (look c)) (updateNavActive dir (navButtons h))
            (feedback h ++ [message])
  | None => h
  end.

(** The [keydown] listener of [script.js]; [tagName] is the tag of the
    event target. *)
Definition onKeyDown (tagName key : string) (h : Hud) : Hud :=
  if String.eqb tagName "INPUT" || String.eqb tagName "TEXTAREA" then h
  else if String.eqb key "1" then
    jump (SrcCameraControls.lookAtFront false) "front" "goto panel[0]" h
  else if String.eqb key "2" then
    jump (SrcCameraControls.lookAtLeft false) "left" "goto panel[1]" h
  else if String.eqb key "3" then
    jump (SrcCameraControls.lookAtRight false) "right" "goto panel[2]" h
  else if String.eqb key "4" then
    jump (SrcCameraControls.lookAtBack false) "back" "goto panel[3]" h
  else if String.eqb key "Escape" then
    jump (SrcCameraControls.lookAtFront false) "front" "reset" h
  else h.

(** One [.typing] element under [initTypingEffect]: the saved [text], the
    element's [textContent], the counter [i], and whether a call of
    [type] is waiting in a timer. *)
Record Typing : Type := mkTyping {
  text : string;
  textContent : string;
  i : nat;
  scheduled : bool
}.

(** The body of the [forEach]: the text is saved and cleared, and the
    first call of [type] is scheduled. *)
Definition startTyping (content : string) : Typing :=
  mkTyping content "" 0 true.

(** [text.charAt(i)]: the empty string past the end. *)
Definition charAt (s : string) (n : nat) : string :=
  String.substring n 1 s.

(** The timer fires and [type] runs. *)
Definition type (t : Typing) : Typing :=
  if scheduled t then
    if (i t <? String.length (text t))%nat then
      mkTyping (text t)
               (String.append (textContent t) (charAt (text t) (i t)))
               (S (i t)) true
    else mkTyping (text t) (textContent t) (i t) false
  else t.

End Script.

(** * Properties

    The predicates the statements below are written with, and the inputs
    of the worked examples. *)

Module Js := JsCameraControls.
Module Src := SrcCameraControls.

Module Props.

(** The four values of [STATES]. *)
Definition is_STATE (s : string) : Prop :=
  s = PopupStateManager.STATES.CLOSED
  \/ s = PopupStateManager.STATES.OPENING
  \/ s = PopupStateManager.STATES.OPEN
  \/ s = PopupStateManager.STATES.CLOSING.

(** The manager tracks its timer: a live timer is the pending one, and
    handles are positive and already handed out. *)
Definition timer_tracked (m : PopupStateManager.t) : Prop :=
  (forall h x, PopupStateManager.timers m !! h = Some x ->
               PopupStateManager.pendingTransition m = Some h)
  /\ (forall h, PopupStateManager.pendingTransition m = Some h ->
                (1 <= h < PopupStateManager.nextHandle m)%nat).

(** The pitch band [[PI/6, 5*PI/6]]. *)
Definition in_band (v : R) : Prop := PI / 6 <= v <= PI * 5 / 6.

(** One smoothing step took the angle [a] to [a']: [a'] is the value of
    the code's expression, it lies between [a] and [target], it is no
    further from [target] than [a] was, and an angle already at its
    target stays. *)
Definition approaches (a target a' : R) : Prop :=
  a' = a + (target - a) * 0.08
  /\ (a <= target -> a <= a' <= target)
  /\ (target <= a -> target <= a' <= a)
  /\ Rabs (target - a') <= Rabs (target - a)
  /\ (a = target -> a' = a).

(** [targetPhi'] is [v] clamped into the pitch band. *)
Definition clamped_to_band (v targetPhi' : R) : Prop :=
  in_band targetPhi'
  /\ (v < PI / 6 -> targetPhi' = PI / 6)
  /\ (in_band v -> targetPhi' = v)
  /\ (PI * 5 / 6 < v -> targetPhi' = PI * 5 / 6).

(** An orientation event that carries both [alpha] and [beta]. *)
Definition has_reading (e : DeviceOrientationEvent.t) : Prop :=
  DeviceOrientationEvent.alpha e <> None
  /\ DeviceOrientationEvent.beta e <> None.

(** The events are delivered to the handler one after the other. *)
Definition Js_deliver (evs : list DeviceOrientationEvent.t) (s : Js.t)
  : Js.t := Js.run (map Js.Orientation evs) s.

Definition Src_deliver (evs : list DeviceOrientationEvent.t) (s : Src.t)
  : Src.t := Src.run (map Src.Orientation evs) s.

(** Two rigs, one of each copy, that take orientation events in step:
    both listen, and they agree on the calibration. *)
Definition in_step (a : Js.t) (b : Src.t) : Prop :=
  Js.enabled a = true /\ Js.gyroEnabled a = true
  /\ Src.enabled b = true /\ Src.gyroEnabled b = true
  /\ Js.gyroCalibrated a = Src.gyroCalibrated b
  /\ (Js.gyroCalibrated a = true ->
      Js.gyroAlphaOffset a = Src.gyroAlphaOffset b).

(** The targets of the two rigs are mirror images: opposite yaw, and
    pitches that are reflections of each other about PI/2. *)
Definition mirrored (a : Js.t) (b : Src.t) : Prop :=
  Js.targetTheta a = - Src.targetTheta b
  /\ Js.targetPhi a + Src.targetPhi b = PI.

(** *** Worked inputs *)

(** A popup that was opened and whose opening timer has fired. *)
Definition ex_popup_open : PopupStateManager.t :=
  PopupStateManager.run
    [PopupStateManager.CallOpen "center"; PopupStateManager.TimerFires 1]
    (PopupStateManager.constructor ∅ None).

(** New controls of each copy on a 60 degree camera, enabled as the scene
    does once the entry animation is over. *)
Definition ex_camera : THREE.PerspectiveCamera :=
  THREE.newPerspectiveCamera 60 1.

Definition ex_js : Js.t := Js.set_enabled true (Js.constructor ex_camera).

Definition ex_src : Src.t :=
  Src.set_enabled true (Src.constructor ex_camera).

(** The controls after [lookAt(1, 2)]: the targets are ahead of the
    angles. *)
Definition ex_js_turning : Js.t := Js.lookAt 1 (Some 2) false ex_js.

Definition ex_src_turning : Src.t := Src.lookAt 1 (Some 2) false ex_src.

(** A page with nothing interactive under the pointer. *)
Definition ex_env : Src.Env :=
  Src.mkEnv (fun _ _ => None) (fun _ => false) 0.

(** A drag that starts at (10, 20) and moves to (110, 50). *)
Definition ex_down : MouseEvent.t := MouseEvent.mk 10 20 0%nat.

Definition ex_move : MouseEvent.t := MouseEvent.mk 110 50 0%nat.

Definition ex_js_dragging : Js.t := Js.onMouseDown ex_down ex_js.

Definition ex_src_dragging : Src.t := Src.onMouseDown ex_env ex_down ex_src.


(** The same controls with the gyroscope on; they receive a first reading
    (alpha 0, beta 50) and then (alpha 90, beta 70). *)
Definition c10_js : Js.t := Js.enableGyroscope ex_js.

Definition c10_src : Src.t := Src.enableGyroscope ex_src.

Definition c10_events : list DeviceOrientationEvent.t :=
  [ DeviceOrientationEvent.mk (Some 0) (Some 50) None;
    DeviceOrientationEvent.mk (Some 90) (Some 70) None ].

End Props.

(** ** Further predicates *)

Module MoreProps.
Import Props.

(** The three classes the manager toggles say what state it is in. *)
Definition classes_track_state (m : PopupStateManager.t) : Prop :=
  (("interactive" ∈ PopupStateManager.classList m)
   <-> PopupStateManager.state m = PopupStateManager.STATES.OPEN)
  /\ (("active" ∈ PopupStateManager.classList m)
      <-> PopupStateManager.state m <> PopupStateManager.STATES.CLOSED)
  /\ (("fading" ∈ PopupStateManager.classList m)
      <-> PopupStateManager.state m = PopupStateManager.STATES.CLOSING).

(** Either nothing is pending and no timer is live, or exactly one timer
    is live: its handle is the pending one, it was handed out already, and
    its closure is the one of the transition under way. *)
Definition one_timer (m : PopupStateManager.t) : Prop :=
  (PopupStateManager.pendingTransition m = None
   /\ PopupStateManager.timers m = ∅)
  \/ exists (h : nat) (cb : PopupStateManager.Callback) (delay : nat),
       (1 <= h < PopupStateManager.nextHandle m)%nat
       /\ PopupStateManager.pendingTransition m = Some h
       /\ PopupStateManager.timers m = {[ h := (cb, delay) ]}
       /\ ((cb = PopupStateManager.AfterOpen
            /\ PopupStateManager.state m = PopupStateManager.STATES.OPENING)
           \/ (cb = PopupStateManager.AfterClose
               /\ PopupStateManager.state m
                  = PopupStateManager.STATES.CLOSING)).

(** A popup element that carries none of the three classes yet. *)
Definition plain (classes : gset string) : Prop :=
  ("active" ∉ classes) /\ ("fading" ∉ classes)
  /\ ("interactive" ∉ classes).

(** The operations that stand for user input and for the frame loop. *)
Definition Js_input (o : Js.Op) : bool :=
  match o with
  | Js.MouseDown _ | Js.MouseMove _ | Js.TouchStart _ _ | Js.TouchMove _
  | Js.KeyDown _ | Js.Orientation _ | Js.Frame => true
  | _ => false
  end.

Definition Src_input (o : Src.Op) : bool :=
  match o with
  | Src.MouseWheel _ | Src.MouseDown _ _ | Src.MouseMove _
  | Src.TouchStart _ _ | Src.TouchMove _ | Src.KeyDown _
  | Src.Orientation _ | Src.Frame => true
  | _ => false
  end.

(** [n] animation frames in a row. *)
Definition Js_frames (n : nat) (s : Js.t) : Js.t :=
  Js.run (replicate n Js.Frame) s.

Definition Src_frames (n : nat) (s : Src.t) : Src.t :=
  Src.run (replicate n Src.Frame) s.

(** A disabled rig of each copy, dragging stopped, for the examples. *)
Definition ex_js_disabled : Js.t := Js.constructor ex_camera.

Definition ex_src_disabled : Src.t := Src.constructor ex_camera.


(** The labels [getCurrentDirection] gives, for an angle already brought
    into [[0, 2*PI)]: the gaps answer "unknown". *)
Definition in_gap (nt : R) : Prop :=
  PI * 3 / 8 <= nt < PI * 5 / 8
  \/ PI * 11 / 8 <= nt < PI * 13 / 8
  \/ nt = PI * 15 / 8.

(** The zoom band [[30, 90]] of the field of view. *)
Definition fov_in_band (v : R) : Prop := 30 <= v <= 90.

(** Whenever a click or a tap is armed, the position it started at is
    known. *)
Definition armed_has_origin (s : Src.t) : Prop :=
  (Src.pendingClick s <> None -> Src.mouseDownPos s <> None)
  /\ (Src.pendingTap s <> None -> Src.touchStartPos s <> None).

(** The complete readings of a sequence of orientation events, in
    order. *)
Definition reading (e : DeviceOrientationEvent.t) : option (R * R) :=
  match DeviceOrientationEvent.alpha e, DeviceOrientationEvent.beta e with
  | Some al, Some be => Some (al, be)
  | _, _ => None
  end.

Definition readings (evs : list DeviceOrientationEvent.t) : list (R * R) :=
  omap reading evs.

(** The four keys that turn, and their letter twins. *)
Definition key (k : string) : KeyboardEvent.t := KeyboardEvent.mk k.

(** A listener whose callback is one of the arrow functions. *)
Definition is_arrow (l : Listeners.Listener) : Prop :=
  match Listeners.callback l with
  | Listeners.Arrow _ => True
  | Listeners.Method _ => False
  end.


(** [n] firings of the typing timer. *)
Definition typed (n : nat) (content : string) : Script.Typing :=
  Nat.iter n Script.type (Script.startTyping content).

(** [a'] lies between [a] and [target], on whichever side [a] is. *)
Definition between (a target a' : R) : Prop :=
  (a <= target -> a <= a' <= target)
  /\ (target <= a -> target <= a' <= a).

(** The keys that [onKeyDown] acts on. *)
Definition turning_keys : list string :=
  ["ArrowLeft"; "a"; "ArrowRight"; "d"; "ArrowUp"; "w"; "ArrowDown"; "s"].

(** Each pointer column of a series of mousemove events is related by
    [rel] to the one before it, the first to [start]. *)
Fixpoint columns (rel : R -> R -> Prop) (start : R)
    (moves : list MouseEvent.t) : Prop :=
  match moves with
  | [] => True
  | e :: moves' =>
      rel start (MouseEvent.clientX e)
      /\ columns rel (MouseEvent.clientX e) moves'
  end.

(** Where the pointer is after a series of mousemove events that started
    at [start]. *)
Definition pointer_after (moves : list MouseEvent.t) (start : Point)
  : Point :=
  fold_left
    (fun _ e => mkPoint (MouseEvent.clientX e) (MouseEvent.clientY e))
    moves start.

End MoreProps.

(** * Theorems *)

(** ** The popup state machine *)

Module PopupFacts.
Import PopupStateManager Props.

Lemma cancel_state m : state (cancelPendingTransition m) = state m.
Proof.
  unfold cancelPendingTransition.
  destruct (pendingTransition m) as [h|]; [|reflexivity].
  destruct (Nat.eqb h 0); reflexivity.
Qed.

Lemma cancel_classList m :
  classList (cancelPendingTransition m) = classList m.
Proof.
  unfold cancelPendingTransition.
  destruct (pendingTransition m) as [h|]; [|reflexivity].
  destruct (Nat.eqb h 0); reflexivity.
Qed.

(** [open] leaves an open popup open and moves every other one to
    OPENING. *)
Lemma open_state position m :
  state (open position m) =
    if String.eqb (state m) STATES.OPEN then STATES.OPEN
    else STATES.OPENING.
Proof.
  unfold open. rewrite cancel_state.
  destruct (String.eqb_spec (state m) STATES.OPEN) as [E|E].
  - simpl. rewrite cancel_state. exact E.
  - reflexivity.
Qed.

Lemma close_state m :
  state (close m) =
    if String.eqb (state m) STATES.CLOSED
       || String.eqb (state m) STATES.CLOSING
    then state m else STATES.CLOSING.
Proof.
  unfold close. rewrite cancel_state.
  destruct (String.eqb (state m) STATES.CLOSED
            || String.eqb (state m) STATES.CLOSING).
  - apply cancel_state.
  - reflexivity.
Qed.

Lemma forceClose_state m : state (forceClose m) = STATES.CLOSED.
Proof. reflexivity. Qed.

Lemma run_callback_state cb m :
  state (run_callback cb m) = state m
  \/ state (run_callback cb m) = STATES.OPEN
  \/ state (run_callback cb m) = STATES.CLOSED.
Proof.
  unfold run_callback. destruct cb; simpl.
  - destruct (String.eqb (state m) STATES.OPENING); simpl; auto.
  - destruct (String.eqb (state m) STATES.CLOSING); simpl; auto.
Qed.

Lemma step_is_STATE a m :
  is_STATE (state m) -> is_STATE (state (step a m)).
Proof.
  intros Hm. destruct a as [position| | |h]; simpl.
  - rewrite open_state.
    destruct (String.eqb (state m) STATES.OPEN); red; auto.
  - rewrite close_state.
    destruct (String.eqb (state m) STATES.CLOSED
              || String.eqb (state m) STATES.CLOSING);
      [assumption | red; auto].
  - red; auto.
  - unfold fire. destruct (timers m !! h) as [[cb d]|]; [|assumption].
    destruct (run_callback_state cb (clearTimeout h m)) as [E|[E|E]];
      rewrite E; [exact Hm | red; auto ..].
Qed.

Lemma reachable_is_STATE m : reachable m -> is_STATE (state m).
Proof.
  induction 1 as [classes d | a m _ IH].
  - left. reflexivity.
  - apply step_is_STATE, IH.
Qed.

Lemma run_reachable acts m : reachable m -> reachable (run acts m).
Proof.
  revert m. induction acts as [|a acts IH]; intros m Hm; simpl.
  - exact Hm.
  - apply IH. constructor. exact Hm.
Qed.

(** Whatever the manager was doing, [open] then [close] leaves a closing
    popup whose pending handle is a live timer carrying the closure of
    [close]. *)
Lemma open_close_pending position m :
  let m1 := close (open position m) in
  state m1 = STATES.CLOSING
  /\ ("interactive" ∉ classList m1)
  /\ exists h d, pendingTransition m1 = Some h
                 /\ timers m1 !! h = Some (AfterClose, d).
Proof.
  set (mo := open position m).
  assert (Ho : state mo = STATES.OPEN \/ state mo = STATES.OPENING).
  { subst mo. rewrite open_state.
    destruct (String.eqb (state m) STATES.OPEN); auto. }
  simpl. unfold close. rewrite cancel_state.
  assert (Hb : (String.eqb (state mo) STATES.CLOSED
                || String.eqb (state mo) STATES.CLOSING) = false).
  { destruct Ho as [E|E]; rewrite E; reflexivity. }
  rewrite Hb. simpl. split; [reflexivity|]. split.
  - set_solver.
  - eexists _, _. split; [reflexivity|]. apply lookup_insert_eq.
Qed.

Lemma fire_after_close h d m :
  state m = STATES.CLOSING ->
  timers m !! h = Some (AfterClose, d) ->
  state (fire h m) = STATES.CLOSED
  /\ classList (fire h m) = classList m ∖ {[ "active"; "fading" ]}
  /\ pendingTransition (fire h m) = None.
Proof.
  intros Hs Ht. unfold fire. rewrite Ht. unfold run_callback. simpl.
  rewrite Hs. simpl. repeat split.
Qed.

(** *** At most one timer is live *)

Lemma delete_only_key (h : nat) (ts : gmap nat (Callback * nat)) :
  (forall i x, ts !! i = Some x -> i = h) -> delete h ts = ∅.
Proof.
  intros Hts. apply map_empty. intros i.
  destruct (decide (i = h)) as [->|Hne].
  - apply lookup_delete_eq.
  - rewrite lookup_delete_ne by congruence.
    destruct (ts !! i) as [x|] eqn:Ei; [|reflexivity].
    specialize (Hts i x Ei). congruence.
Qed.

Lemma no_key_empty (ts : gmap nat (Callback * nat)) :
  (forall i x, ts !! i = Some x -> False) -> ts = ∅.
Proof.
  intros Hts. apply map_empty. intros i.
  destruct (ts !! i) as [x|] eqn:Ei; [|reflexivity].
  destruct (Hts i x Ei).
Qed.

Lemma idle_tracked m :
  pendingTransition m = None -> timers m = ∅ -> timer_tracked m.
Proof.
  intros Hp Ht. split.
  - intros h x. rewrite Ht, lookup_empty. discriminate.
  - intros h. rewrite Hp. discriminate.
Qed.

Lemma cancel_clears m :
  timer_tracked m ->
  pendingTransition (cancelPendingTransition m) = None
  /\ timers (cancelPendingTransition m) = ∅
  /\ nextHandle (cancelPendingTransition m) = nextHandle m.
Proof.
  intros [Ht Hp]. unfold cancelPendingTransition.
  destruct (pendingTransition m) as [h|] eqn:E.
  - destruct (Hp h eq_refl) as [Hpos _].
    destruct (Nat.eqb_spec h 0) as [->|_]; [lia|]. simpl.
    split; [reflexivity|]. split; [|reflexivity].
    apply delete_only_key. intros i x Hi.
    specialize (Ht i x Hi). congruence.
  - split; [exact E|]. split; [|reflexivity].
    apply no_key_empty. intros i x Hi.
    specialize (Ht i x Hi). discriminate.
Qed.

(** A timer scheduled while none is live is the only live one. *)
Lemma scheduled_tracked cb delay m :
  timers m = ∅ -> (1 <= nextHandle m)%nat ->
  timer_tracked
    (set_pendingTransition (Some (fst (setTimeout cb delay m)))
       (snd (setTimeout cb delay m))).
Proof.
  intros He Hn. split; simpl.
  - intros h x. rewrite He. intros H.
    apply lookup_insert_Some in H as [[<- _]|[_ H]]; [reflexivity|].
    rewrite lookup_empty in H. discriminate.
  - intros h [= <-]. lia.
Qed.

Lemma open_timer_tracked position m :
  timer_tracked m -> (1 <= nextHandle m)%nat ->
  timer_tracked (open position m) /\ (1 <= nextHandle (open position m))%nat.
Proof.
  intros Hm Hn. destruct (cancel_clears m Hm) as (Cp & Ct & Cn).
  unfold open.
  destruct (String.eqb (state (cancelPendingTransition m)) STATES.OPEN).
  - split; [apply idle_tracked; assumption | simpl; lia].
  - match goal with
    | |- context [setTimeout ?cb ?d ?m'] =>
        pose proof (scheduled_tracked cb d m') as H
    end.
    simpl in H |- *. split; [|lia]. apply H.
    + destruct (String.eqb _ STATES.CLOSING); exact Ct.
    + destruct (String.eqb _ STATES.CLOSING); simpl; lia.
Qed.

Lemma close_timer_tracked m :
  timer_tracked m -> (1 <= nextHandle m)%nat ->
  timer_tracked (close m) /\ (1 <= nextHandle (close m))%nat.
Proof.
  intros Hm Hn. destruct (cancel_clears m Hm) as (Cp & Ct & Cn).
  unfold close.
  destruct (String.eqb (state (cancelPendingTransition m)) STATES.CLOSED
            || String.eqb (state (cancelPendingTransition m))
                 STATES.CLOSING).
  - split; [apply idle_tracked; assumption | lia].
  - match goal with
    | |- context [setTimeout ?cb ?d ?m'] =>
        pose proof (scheduled_tracked cb d m') as H
    end.
    simpl in H |- *. split; [|lia]. apply H; [exact Ct | lia].
Qed.

Lemma fire_timer_tracked h m :
  timer_tracked m -> (1 <= nextHandle m)%nat ->
  timer_tracked (fire h m) /\ (1 <= nextHandle (fire h m))%nat.
Proof.
  intros Hm Hn. unfold fire.
  destruct (timers m !! h) as [[cb d]|] eqn:E; [|split; assumption].
  destruct Hm as [Ht Hp].
  assert (Hempty : delete h (timers m) = ∅).
  { apply delete_only_key. intros i x Hi.
    pose proof (Ht i x Hi). pose proof (Ht h _ E). congruence. }
  unfold run_callback. destruct cb; simpl;
    match goal with
    | |- context [if ?b then _ else _] => destruct b
    end; (split; [apply idle_tracked; simpl; auto | simpl; lia]).
Qed.

Lemma step_timer_tracked a m :
  timer_tracked m -> (1 <= nextHandle m)%nat ->
  timer_tracked (step a m) /\ (1 <= nextHandle (step a m))%nat.
Proof.
  intros Hm Hn. destruct a as [position| | |h]; simpl.
  - apply open_timer_tracked; assumption.
  - apply close_timer_tracked; assumption.
  - destruct (cancel_clears m Hm) as (Cp & Ct & Cn).
    split; [apply idle_tracked; simpl; assumption | simpl; lia].
  - apply fire_timer_tracked; assumption.
Qed.

(** Every manager the page can reach has at most one live timer, the one
    whose handle is in [pendingTransition]. *)
Lemma reachable_timer_tracked m :
  reachable m -> timer_tracked m /\ (1 <= nextHandle m)%nat.
Proof.
  induction 1 as [classes d | a m _ [IH1 IH2]].
  - split; [split|simpl; lia].
    + intros h x. simpl. rewrite lookup_empty. discriminate.
    + simpl. discriminate.
  - apply step_timer_tracked; assumption.
Qed.

(** C1: [isVisible()] holds exactly in the states OPENING and OPEN,
    [isInteractive()] exactly in the state OPEN, so an interactive popup
    is always a visible one. *)
Theorem C1_visibility_gating (m : PopupStateManager.t) :
  (isVisible m = true <->
     state m = STATES.OPENING \/ state m = STATES.OPEN)
  /\ (isInteractive m = true <-> state m = STATES.OPEN)
  /\ (isInteractive m = true -> isVisible m = true).
Proof.
  unfold isVisible, isInteractive.
  rewrite orb_true_iff, !String.eqb_eq. tauto.
Qed.

(** C2: from every state the manager can reach, [open(position)], then
    [close()], then the firing of the timer that [close()] left pending
    ends in the state CLOSED with none of the classes 'active', 'fading'
    and 'interactive' on the element. *)
Theorem C2_open_close_returns_to_closed
    (classes : gset string) (d : option nat) (acts : list Action)
    (position : string) :
  let m := run acts (constructor classes d) in
  let m1 := close (open position m) in
  exists (h delay : nat),
    pendingTransition m1 = Some h
    /\ timers m1 !! h = Some (AfterClose, delay)
    /\ state (fire h m1) = STATES.CLOSED
    /\ ("active" ∉ classList (fire h m1))
    /\ ("fading" ∉ classList (fire h m1))
    /\ ("interactive" ∉ classList (fire h m1)).
Proof.
  intros m m1.
  destruct (open_close_pending position m) as (Hs & Hi & h & dl & Hp & Ht).
  fold m1 in Hs, Hi, Hp, Ht.
  destruct (fire_after_close h dl m1 Hs Ht) as (Hs' & Hc & _).
  exists h, dl. rewrite Hs', Hc.
  repeat split; [exact Hp | exact Ht | set_solver ..].
Qed.

(** C3: starting from a new manager, whose state is CLOSED, every
    sequence of [open()], [close()], [forceClose()] and timer firings
    leaves the state among CLOSED, OPENING, OPEN and CLOSING. *)
Theorem C3_four_states
    (classes : gset string) (d : option nat) (acts : list Action) :
  state (constructor classes d) = STATES.CLOSED
  /\ let s := state (run acts (constructor classes d)) in
     s = STATES.CLOSED \/ s = STATES.OPENING \/ s = STATES.OPEN
     \/ s = STATES.CLOSING.
Proof.
  split; [reflexivity|].
  apply reachable_is_STATE, run_reachable. constructor.
Qed.

(** The witness of C1: the popup of [ex_popup_open] is interactive, hence
    visible. *)
Lemma C1_witness :
  isInteractive ex_popup_open = true /\ isVisible ex_popup_open = true.
Proof.
  split; [reflexivity|].
  apply (proj2 (proj2 (C1_visibility_gating ex_popup_open))).
  reflexivity.
Defined.

(** *** The machine on concrete runs *)

Example open_then_timer_is_open :
  state ex_popup_open = "open"
  /\ classList ex_popup_open = {[ "active"; "interactive" ]}
  /\ pendingTransition ex_popup_open = None
  /\ timers ex_popup_open = ∅.
Proof. vm_compute. repeat split. Qed.

(** Reopening while the popup fades out cancels the closing timer: when
    its handle comes up later, nothing happens. *)
Example reopen_cancels_close :
  let m := run [CallOpen "bottom"; CallClose; CallOpen "bottom";
                TimerFires 2]
               (constructor {[ "skill-popup-3d" ]} (Some 150%nat)) in
  state m = "opening"
  /\ classList m = {[ "skill-popup-3d"; "active" ]}
  /\ pendingTransition m = Some 3%nat.
Proof. vm_compute. repeat split. Qed.

Example open_close_timer_is_closed :
  let m := run [CallOpen "center"; TimerFires 1; CallClose; TimerFires 2]
               (constructor {[ "skill-popup-3d" ]} None) in
  state m = "closed" /\ classList m = {[ "skill-popup-3d" ]}.
Proof. vm_compute. repeat split. Qed.

End PopupFacts.

(** ** The camera rig *)

Module CameraFacts.
Import Props.

(** *** Arithmetic of the pitch band and of the smoothing step *)

(** [Math.max(lo, Math.min(hi, v))] with [lo <= hi] is [v] cut to
    [[lo, hi]]. *)
Lemma clamp_cases (lo hi v : R) :
  lo <= hi ->
  lo <= Rmax lo (Rmin hi v) <= hi
  /\ (v < lo -> Rmax lo (Rmin hi v) = lo)
  /\ (lo <= v <= hi -> Rmax lo (Rmin hi v) = v)
  /\ (hi < v -> Rmax lo (Rmin hi v) = hi).
Proof.
  intros Hle. unfold Rmax, Rmin.
  destruct (Rle_dec hi v); destruct (Rle_dec lo _); repeat split; lra.
Qed.

Lemma band_nonempty : PI / 6 <= PI * 5 / 6.
Proof. pose proof PI_RGT_0. lra. Qed.

Lemma clamp_in_band (v : R) :
  in_band (Rmax (PI / 6) (Rmin (PI * 5 / 6) v)).
Proof. apply clamp_cases, band_nonempty. Qed.

(** One smoothing step from [a] toward [target] with damping 0.08. *)
Lemma approaches_lerp (a target : R) :
  approaches a target (a + (target - a) * 0.08).
Proof.
  red. split; [reflexivity|].
  split; [intros; lra|]. split; [intros; lra|]. split; [|intros; lra].
  replace (target - (a + (target - a) * 0.08))
    with (0.92 * (target - a)) by lra.
  rewrite Rabs_mult, (Rabs_pos_eq 0.92) by lra.
  pose proof (Rabs_pos (target - a)). lra.
Qed.

(** C4, as stated, fails in the arithmetic the code runs in: with
    [theta = 1] and [targetTheta] one unit in the last place above it,
    [update()] on enabled controls leaves [theta] where it is, so the
    angle is a fixed point without being at its target and its distance to
    the target has not shrunk; and after [lookAtLeft()] from yaw 0 the
    frames stop moving [theta] at the 409th, short of the target. *)
Lemma C4_counterexample :
  Binary64.enabled Binary64.near_target = true
  /\ Binary64.theta (Binary64.update Binary64.near_target)
     = Binary64.theta Binary64.near_target
  /\ Binary64.theta Binary64.near_target
     <> Binary64.targetTheta Binary64.near_target
  /\ Binary64.update (Binary64.frames 409 Binary64.turning_left)
     = Binary64.frames 409 Binary64.turning_left
  /\ Binary64.theta (Binary64.frames 409 Binary64.turning_left)
     <> Binary64.targetTheta (Binary64.frames 409 Binary64.turning_left).
Proof.
  split; [reflexivity|].
  split; [vm_compute; reflexivity|].
  split.
  { intros H.
    assert (E : PrimFloat.eqb (Binary64.theta Binary64.near_target)
                  (Binary64.targetTheta Binary64.near_target) = false)
      by (vm_compute; reflexivity).
    rewrite H in E. vm_compute in E. discriminate E. }
  split; [vm_compute; reflexivity|].
  intros H.
  assert (E : PrimFloat.eqb
                (Binary64.theta (Binary64.frames 409 Binary64.turning_left))
                (Binary64.targetTheta
                   (Binary64.frames 409 Binary64.turning_left)) = false)
    by (vm_compute; reflexivity).
  rewrite H in E. vm_compute in E. discriminate E.
Qed.

(** C4, amended: for enabled controls, in both copies, [update()] sets
    [theta] and [phi] to the values of [theta + (targetTheta - theta) *
    0.08] and [phi + (targetPhi - phi) * 0.08]; each angle stays between
    its old value and its target, so it never overshoots and is never
    further from the target than before; an angle that equals its target
    is left as it is; and the targets are not written. *)
Theorem C4_update_approaches_targets :
  (forall s : Js.t,
      Js.enabled s = true ->
      approaches (Js.theta s) (Js.targetTheta s) (Js.theta (Js.update s))
      /\ approaches (Js.phi s) (Js.targetPhi s) (Js.phi (Js.update s))
      /\ Js.targetTheta (Js.update s) = Js.targetTheta s
      /\ Js.targetPhi (Js.update s) = Js.targetPhi s)
  /\ (forall s : Src.t,
        Src.enabled s = true ->
        approaches (Src.theta s) (Src.targetTheta s)
                   (Src.theta (Src.update s))
        /\ approaches (Src.phi s) (Src.targetPhi s)
                      (Src.phi (Src.update s))
        /\ Src.targetTheta (Src.update s) = Src.targetTheta s
        /\ Src.targetPhi (Src.update s) = Src.targetPhi s).
Proof.
  split; intros s He.
  - unfold Js.update. rewrite He. simpl. unfold Js.dampingFactor.
    split; [apply approaches_lerp|].
    split; [apply approaches_lerp|]. split; reflexivity.
  - unfold Src.update. rewrite He. simpl.
    destruct (Rgt_dec _ _); simpl; unfold Src.dampingFactor;
      (split; [apply approaches_lerp|]);
      (split; [apply approaches_lerp|]); split; reflexivity.
Qed.

(** *** Dragging *)

Lemma clamped_to_band_clamp (v : R) :
  clamped_to_band v (Rmax (PI / 6) (Rmin (PI * 5 / 6) v)).
Proof. apply clamp_cases, band_nonempty. Qed.

Lemma Js_onMouseMove_drag (s : Js.t) (e : MouseEvent.t) :
  Js.enabled s = true -> Js.isDragging s = true ->
  let deltaX := MouseEvent.clientX e - x (Js.previousMouse s) in
  let deltaY := MouseEvent.clientY e - y (Js.previousMouse s) in
  Js.targetTheta (Js.onMouseMove e s) = Js.targetTheta s - deltaX * 0.003
  /\ Js.targetPhi (Js.onMouseMove e s) =
       Rmax (PI / 6) (Rmin (PI * 5 / 6) (Js.targetPhi s - deltaY * 0.003)).
Proof.
  intros He Hd. unfold Js.onMouseMove. rewrite He, Hd. simpl.
  split; reflexivity.
Qed.

Lemma Src_onMouseMove_drag (s : Src.t) (e : MouseEvent.t) :
  Src.enabled s = true -> Src.isDragging s = true ->
  let deltaX := MouseEvent.clientX e - x (Src.previousMouse s) in
  let deltaY := MouseEvent.clientY e - y (Src.previousMouse s) in
  Src.targetTheta (Src.onMouseMove e s) = Src.targetTheta s - deltaX * 0.003
  /\ Src.targetPhi (Src.onMouseMove e s) =
       Rmax (PI / 6) (Rmin (PI * 5 / 6) (Src.targetPhi s - deltaY * 0.003)).
Proof.
  intros He Hd. unfold Src.onMouseMove. rewrite He, Hd. simpl.
  split; reflexivity.
Qed.

Lemma Js_onMouseMove_idle (s : Js.t) (e : MouseEvent.t) :
  Js.enabled s = false \/ Js.isDragging s = false ->
  Js.onMouseMove e s = s.
Proof.
  intros [H|H]; unfold Js.onMouseMove; rewrite H;
    [|rewrite orb_true_r]; reflexivity.
Qed.

Lemma Src_onMouseMove_idle (s : Src.t) (e : MouseEvent.t) :
  Src.enabled s = false \/ Src.isDragging s = false ->
  Src.onMouseMove e s = s.
Proof.
  intros [H|H]; unfold Src.onMouseMove; rewrite H;
    [|rewrite orb_true_r]; reflexivity.
Qed.

(** C5: in both copies, a mousemove received by enabled controls during
    a drag lowers [targetTheta] by [deltaX * 0.003] and sets [targetPhi]
    to [targetPhi - deltaY * 0.003] clamped into [[PI/6, 5*PI/6]], the
    deltas being taken from the recorded mouse position; without a drag,
    or with the controls disabled, both targets keep their values. *)
Theorem C5_dragging_updates_targets :
  (forall (s : Js.t) (e : MouseEvent.t),
      let deltaX := MouseEvent.clientX e - x (Js.previousMouse s) in
      let deltaY := MouseEvent.clientY e - y (Js.previousMouse s) in
      let s' := Js.onMouseMove e s in
      (Js.enabled s = true -> Js.isDragging s = true ->
         Js.targetTheta s' = Js.targetTheta s - deltaX * 0.003
         /\ clamped_to_band (Js.targetPhi s - deltaY * 0.003)
                            (Js.targetPhi s'))
      /\ (Js.enabled s = false \/ Js.isDragging s = false ->
            Js.targetTheta s' = Js.targetTheta s
            /\ Js.targetPhi s' = Js.targetPhi s))
  /\ (forall (s : Src.t) (e : MouseEvent.t),
        let deltaX := MouseEvent.clientX e - x (Src.previousMouse s) in
        let deltaY := MouseEvent.clientY e - y (Src.previousMouse s) in
        let s' := Src.onMouseMove e s in
        (Src.enabled s = true -> Src.isDragging s = true ->
           Src.targetTheta s' = Src.targetTheta s - deltaX * 0.003
           /\ clamped_to_band (Src.targetPhi s - deltaY * 0.003)
                              (Src.targetPhi s'))
        /\ (Src.enabled s = false \/ Src.isDragging s = false ->
              Src.targetTheta s' = Src.targetTheta s
              /\ Src.targetPhi s' = Src.targetPhi s)).
Proof.
  split; intros s e deltaX deltaY s'; subst s'; split.
  - intros He Hd.
    destruct (Js_onMouseMove_drag s e He Hd) as [Ht Hp].
    split; [exact Ht|]. rewrite Hp. apply clamped_to_band_clamp.
  - intros H. rewrite (Js_onMouseMove_idle s e H). split; reflexivity.
  - intros He Hd.
    destruct (Src_onMouseMove_drag s e He Hd) as [Ht Hp].
    split; [exact Ht|]. rewrite Hp. apply clamped_to_band_clamp.
  - intros H. rewrite (Src_onMouseMove_idle s e H). split; reflexivity.
Qed.

(** *** The public [lookAt] *)

Lemma half_PI_neq_0 : PI / 2 <> 0.
Proof. pose proof PI_RGT_0. lra. Qed.

Lemma or_default_zero : (if Req_dec_T 0 0 then PI / 2 else 0) = PI / 2.
Proof. destruct (Req_dec_T 0 0); [reflexivity | lra]. Qed.

Lemma or_default_neq_0 (phi' : option R) :
  match phi' with
  | Some p => if Req_dec_T p 0 then PI / 2 else p
  | None => PI / 2
  end <> 0.
Proof.
  destruct phi' as [p|]; [|apply half_PI_neq_0].
  destruct (Req_dec_T p 0); [apply half_PI_neq_0 | assumption].
Qed.

(** C9: in both copies, [lookAt(theta, 0)] sets [targetPhi] to PI/2 and
    behaves exactly as [lookAt(theta)] with [phi] omitted; whatever the
    arguments, [lookAt] never leaves [targetPhi] equal to 0. *)
Theorem C9_lookAt_falsy_pitch :
  (forall (s : Js.t) (theta' : R) (instant : bool),
      Js.targetPhi (Js.lookAt theta' (Some 0) instant s) = PI / 2
      /\ Js.lookAt theta' (Some 0) instant s = Js.lookAt theta' None instant s
      /\ forall phi' : option R,
           Js.targetPhi (Js.lookAt theta' phi' instant s) <> 0)
  /\ (forall (s : Src.t) (theta' : R) (instant : bool),
        Src.targetPhi (Src.lookAt theta' (Some 0) instant s) = PI / 2
        /\ Src.lookAt theta' (Some 0) instant s
           = Src.lookAt theta' None instant s
        /\ forall phi' : option R,
             Src.targetPhi (Src.lookAt theta' phi' instant s) <> 0).
Proof.
  split; intros s theta' instant.
  - unfold Js.lookAt. rewrite or_default_zero. repeat split.
    + destruct instant; reflexivity.
    + intros phi'. pose proof (or_default_neq_0 phi').
      destruct instant; simpl; assumption.
  - unfold Src.lookAt. rewrite or_default_zero. repeat split.
    + destruct instant; reflexivity.
    + intros phi'. pose proof (or_default_neq_0 phi').
      destruct instant; simpl; assumption.
Qed.

(** *** The pitch band *)

Ltac band :=
  unfold in_band, Js.minPhi, Js.maxPhi, Src.minPhi, Src.maxPhi in *;
  simpl; unfold Rmax, Rmin;
  pose proof PI_RGT_0; repeat destruct (Rle_dec _ _); lra.

Lemma Js_onMouseMove_band s e :
  in_band (Js.targetPhi s) -> in_band (Js.targetPhi (Js.onMouseMove e s)).
Proof.
  intros H. unfold Js.onMouseMove.
  destruct (negb (Js.enabled s) || negb (Js.isDragging s));
    [exact H | apply clamp_in_band].
Qed.

Lemma Js_onTouchMove_band s e :
  in_band (Js.targetPhi s) -> in_band (Js.targetPhi (Js.onTouchMove e s)).
Proof.
  intros H. unfold Js.onTouchMove.
  destruct (negb (Js.enabled s) || Js.gyroEnabled s); [exact H|].
  destruct (TouchEvent.touches e) as [|t0 [|t1 ts]];
    [exact H | apply clamp_in_band | exact H].
Qed.

Lemma Js_onKeyDown_band s e :
  in_band (Js.targetPhi s) -> in_band (Js.targetPhi (Js.onKeyDown e s)).
Proof.
  intros H. unfold Js.onKeyDown.
  destruct (negb (Js.enabled s)); [exact H|].
  repeat match goal with
         | |- context [if ?b then _ else _] => destruct b
         end; simpl; try exact H; band.
Qed.

Lemma Js_handleOrientation_band s e :
  in_band (Js.targetPhi s) ->
  in_band (Js.targetPhi (Js.handleOrientation e s)).
Proof.
  intros H. unfold Js.handleOrientation.
  destruct (negb (Js.enabled s) || negb (Js.gyroEnabled s)); [exact H|].
  destruct (DeviceOrientationEvent.alpha e); [|exact H].
  destruct (DeviceOrientationEvent.beta e); [|exact H].
  apply clamp_in_band.
Qed.

Lemma Src_onMouseMove_band s e :
  in_band (Src.targetPhi s) ->
  in_band (Src.targetPhi (Src.onMouseMove e s)).
Proof.
  intros H. unfold Src.onMouseMove.
  destruct (negb (Src.enabled s) || negb (Src.isDragging s));
    [exact H | apply clamp_in_band].
Qed.

Lemma Src_onTouchMove_band s e :
  in_band (Src.targetPhi s) ->
  in_band (Src.targetPhi (Src.onTouchMove e s)).
Proof.
  intros H. unfold Src.onTouchMove.
  destruct (negb (Src.enabled s)); [exact H|].
  destruct (TouchEvent.touches e) as [|t0 [|t1 [|t2 ts]]];
    destruct (Src.isPinching s); destruct (Src.gyroEnabled s);
    simpl; try exact H; apply clamp_in_band.
Qed.

Lemma Src_onKeyDown_band s e :
  in_band (Src.targetPhi s) -> in_band (Src.targetPhi (Src.onKeyDown e s)).
Proof.
  intros H. unfold Src.onKeyDown.
  destruct (negb (Src.enabled s)); [exact H|].
  repeat match goal with
         | |- context [if ?b then _ else _] => destruct b
         end; simpl; try exact H; band.
Qed.

Lemma Src_handleOrientation_band s e :
  in_band (Src.targetPhi s) ->
  in_band (Src.targetPhi (Src.handleOrientation e s)).
Proof.
  intros H. unfold Src.handleOrientation.
  destruct (negb (Src.enabled s) || negb (Src.gyroEnabled s)); [exact H|].
  destruct (DeviceOrientationEvent.alpha e); [|exact H].
  destruct (DeviceOrientationEvent.beta e); [|exact H].
  apply clamp_in_band.
Qed.

Lemma Src_lookAtSkillPopup_band s position :
  in_band (Src.targetPhi (Src.lookAtSkillPopup position s)).
Proof.
  unfold Src.lookAtSkillPopup.
  repeat match goal with
         | |- context [if ?b then _ else _] => destruct b
         end; apply clamp_in_band.
Qed.

(** A pitch of 4 radians lies above the band. *)
Lemma four_not_in_band : ~ in_band 4.
Proof. unfold in_band. pose proof PI_4. lra. Qed.

Lemma lookAt_4_targetPhi :
  (if Req_dec_T 4 0 then PI / 2 else 4) = 4.
Proof. destruct (Req_dec_T 4 0); [lra | reflexivity]. Qed.

(** C8: in both copies, when [targetPhi] starts in [[PI/6, 5*PI/6]] it
    is still there after [onMouseMove], [onTouchMove], [onKeyDown] and
    [handleOrientation], and after [lookAtSkillPopup] in the copy that
    has it; [lookAt(theta, phi)] stores [phi] unclamped, so
    [lookAt(theta, 4)] takes [targetPhi] out of the band. *)
Theorem C8_pitch_target_band :
  (forall s : Js.t,
      in_band (Js.targetPhi s) ->
      (forall e, in_band (Js.targetPhi (Js.onMouseMove e s)))
      /\ (forall e, in_band (Js.targetPhi (Js.onTouchMove e s)))
      /\ (forall e, in_band (Js.targetPhi (Js.onKeyDown e s)))
      /\ (forall e, in_band (Js.targetPhi (Js.handleOrientation e s)))
      /\ (forall theta' instant,
            Js.targetPhi (Js.lookAt theta' (Some 4) instant s) = 4
            /\ ~ in_band (Js.targetPhi
                            (Js.lookAt theta' (Some 4) instant s))))
  /\ (forall s : Src.t,
        in_band (Src.targetPhi s) ->
        (forall e, in_band (Src.targetPhi (Src.onMouseMove e s)))
        /\ (forall e, in_band (Src.targetPhi (Src.onTouchMove e s)))
        /\ (forall e, in_band (Src.targetPhi (Src.onKeyDown e s)))
        /\ (forall e, in_band (Src.targetPhi (Src.handleOrientation e s)))
        /\ (forall position,
              in_band (Src.targetPhi (Src.lookAtSkillPopup position s)))
        /\ (forall theta' instant,
              Src.targetPhi (Src.lookAt theta' (Some 4) instant s) = 4
              /\ ~ in_band (Src.targetPhi
                              (Src.lookAt theta' (Some 4) instant s)))).
Proof.
  split; intros s H.
  - split; [intros e; apply Js_onMouseMove_band, H|].
    split; [intros e; apply Js_onTouchMove_band, H|].
    split; [intros e; apply Js_onKeyDown_band, H|].
    split; [intros e; apply Js_handleOrientation_band, H|].
    intros theta' instant.
    assert (E : Js.targetPhi (Js.lookAt theta' (Some 4) instant s) = 4).
    { unfold Js.lookAt. rewrite lookAt_4_targetPhi.
      destruct instant; reflexivity. }
    rewrite E. split; [reflexivity | apply four_not_in_band].
  - split; [intros e; apply Src_onMouseMove_band, H|].
    split; [intros e; apply Src_onTouchMove_band, H|].
    split; [intros e; apply Src_onKeyDown_band, H|].
    split; [intros e; apply Src_handleOrientation_band, H|].
    split; [intros p; apply Src_lookAtSkillPopup_band|].
    intros theta' instant.
    assert (E : Src.targetPhi (Src.lookAt theta' (Some 4) instant s) = 4).
    { unfold Src.lookAt. rewrite lookAt_4_targetPhi.
      destruct instant; reflexivity. }
    rewrite E. split; [reflexivity | apply four_not_in_band].
Qed.

(** *** The camera stays where it is *)

Ltac crush_frame :=
  repeat match goal with
         | |- context [if ?b then _ else _] => destruct b
         | |- context [match ?v with _ => _ end] => destruct v
         end; simpl; try reflexivity.

Lemma Js_step_position (o : Js.Op) (s : Js.t) :
  THREE.position (Js.camera (Js.step o s)) = THREE.position (Js.camera s).
Proof.
  destruct o; simpl;
    unfold Js.onMouseDown, Js.onMouseMove, Js.onMouseUp, Js.onTouchStart,
      Js.onTouchMove, Js.onTouchEnd, Js.onKeyDown, Js.enableGyroscope,
      Js.toggleGyroscope, Js.handleOrientation, Js.update, Js.lookAtFront,
      Js.lookAtLeft, Js.lookAtRight, Js.lookAtBack, Js.lookAt;
    crush_frame.
Qed.

Lemma Src_step_position (o : Src.Op) (s : Src.t) :
  THREE.position (Src.camera (Src.step o s))
  = THREE.position (Src.camera s).
Proof.
  destruct o; simpl;
    unfold Src.onMouseWheel, Src.onMouseDown, Src.onMouseMove,
      Src.onMouseUp, Src.onTouchStart, Src.onTouchStart_gesture,
      Src.onTouchMove, Src.onTouchEnd,
      Src.onKeyDown, Src.enableGyroscope, Src.toggleGyroscope,
      Src.handleOrientation, Src.update, Src.lookAtFront, Src.lookAtLeft,
      Src.lookAtRight, Src.lookAtBack, Src.lookAt, Src.lookAtSkillPopup;
    crush_frame.
Qed.

Lemma Js_run_position (ops : list Js.Op) (s : Js.t) :
  THREE.position (Js.camera (Js.run ops s)) = THREE.position (Js.camera s).
Proof.
  revert s. induction ops as [|o ops IH]; intros s; simpl.
  - reflexivity.
  - unfold Js.run in IH. rewrite IH. apply Js_step_position.
Qed.

Lemma Src_run_position (ops : list Src.Op) (s : Src.t) :
  THREE.position (Src.camera (Src.run ops s))
  = THREE.position (Src.camera s).
Proof.
  revert s. induction ops as [|o ops IH]; intros s; simpl.
  - reflexivity.
  - unfold Src.run in IH. rewrite IH. apply Src_step_position.
Qed.

(** C6: in both copies no operation of the controls moves the camera,
    [updateCameraRotation] turns it toward
    [(100 sin(phi) sin(theta), 100 cos(phi), -100 sin(phi) cos(theta))]
    and changes nothing else, and the camera the scene creates at the
    origin is still at the origin after any sequence of operations. *)
Theorem C6_camera_fixed_at_origin :
  (forall (ops : list Js.Op) (s : Js.t),
      THREE.position (Js.camera (Js.run ops s))
      = THREE.position (Js.camera s))
  /\ (forall (ops : list Src.Op) (s : Src.t),
        THREE.position (Src.camera (Src.run ops s))
        = THREE.position (Src.camera s))
  /\ (forall s : Js.t,
        THREE.target (Js.camera (Js.updateCameraRotation s)) =
          THREE.mkVector3
            (100 * sin (Js.phi s) * sin (Js.theta s))
            (100 * cos (Js.phi s))
            (- 100 * sin (Js.phi s) * cos (Js.theta s))
        /\ Js.updateCameraRotation s =
             Js.set_camera
               (THREE.lookAt (Js.camera s)
                  (100 * sin (Js.phi s) * sin (Js.theta s))
                  (100 * cos (Js.phi s))
                  (- 100 * sin (Js.phi s) * cos (Js.theta s))) s)
  /\ (forall s : Src.t,
        THREE.target (Src.camera (Src.updateCameraRotation s)) =
          THREE.mkVector3
            (100 * sin (Src.phi s) * sin (Src.theta s))
            (100 * cos (Src.phi s))
            (- 100 * sin (Src.phi s) * cos (Src.theta s))
        /\ Src.updateCameraRotation s =
             Src.set_camera
               (THREE.lookAt (Src.camera s)
                  (100 * sin (Src.phi s) * sin (Src.theta s))
                  (100 * cos (Src.phi s))
                  (- 100 * sin (Src.phi s) * cos (Src.theta s))) s)
  /\ (forall (env : PortfolioScene.Env) (ops : list Src.Op),
        THREE.position (PortfolioScene.createCamera env)
        = THREE.mkVector3 0 0 0
        /\ THREE.position
             (Src.camera
                (Src.run ops
                   (PortfolioScene.controls
                      (PortfolioScene.constructor env))))
           = THREE.mkVector3 0 0 0).
Proof.
  split; [exact Js_run_position|].
  split; [exact Src_run_position|].
  split; [intros s; split; reflexivity|].
  split; [intros s; split; reflexivity|].
  intros env ops. split; [reflexivity|].
  rewrite Src_run_position. reflexivity.
Qed.

(** *** The two gyroscope handlers *)

Lemma Js_handleOrientation_reading s e al be :
  Js.enabled s = true -> Js.gyroEnabled s = true ->
  DeviceOrientationEvent.alpha e = Some al ->
  DeviceOrientationEvent.beta e = Some be ->
  let s' := Js.handleOrientation e s in
  let offset := if Js.gyroCalibrated s then Js.gyroAlphaOffset s else al in
  Js.targetTheta s' = - THREE.degToRad (al - offset)
  /\ Js.targetPhi s' =
       Rmax (PI / 6)
         (Rmin (PI * 5 / 6) (PI / 2 + THREE.degToRad (be - 50) * 0.5))
  /\ Js.gyroCalibrated s' = true
  /\ Js.gyroAlphaOffset s' = offset.
Proof.
  intros He Hg Ha Hb. unfold Js.handleOrientation.
  rewrite He, Hg, Ha, Hb. simpl.
  destruct (Js.gyroCalibrated s) eqn:Hc; simpl; repeat split.
  exact Hc.
Qed.

Lemma Src_handleOrientation_reading s e al be :
  Src.enabled s = true -> Src.gyroEnabled s = true ->
  DeviceOrientationEvent.alpha e = Some al ->
  DeviceOrientationEvent.beta e = Some be ->
  let s' := Src.handleOrientation e s in
  let offset :=
    if Src.gyroCalibrated s then Src.gyroAlphaOffset s else al in
  Src.targetTheta s' = THREE.degToRad (al - offset)
  /\ Src.targetPhi s' =
       Rmax (PI / 6)
         (Rmin (PI * 5 / 6) (PI / 2 - THREE.degToRad (be - 50) * 0.5))
  /\ Src.gyroCalibrated s' = true
  /\ Src.gyroAlphaOffset s' = offset.
Proof.
  intros He Hg Ha Hb. unfold Src.handleOrientation.
  rewrite He, Hg, Ha, Hb. simpl.
  destruct (Src.gyroCalibrated s) eqn:Hc; simpl; repeat split.
  exact Hc.
Qed.

Lemma Js_handleOrientation_flags s e :
  Js.enabled (Js.handleOrientation e s) = Js.enabled s
  /\ Js.gyroEnabled (Js.handleOrientation e s) = Js.gyroEnabled s.
Proof.
  unfold Js.handleOrientation.
  destruct (negb (Js.enabled s) || negb (Js.gyroEnabled s)); [tauto|].
  destruct (DeviceOrientationEvent.alpha e); [|tauto].
  destruct (DeviceOrientationEvent.beta e); [|tauto].
  destruct (negb (Js.gyroCalibrated s)); simpl; tauto.
Qed.

Lemma Src_handleOrientation_flags s e :
  Src.enabled (Src.handleOrientation e s) = Src.enabled s
  /\ Src.gyroEnabled (Src.handleOrientation e s) = Src.gyroEnabled s.
Proof.
  unfold Src.handleOrientation.
  destruct (negb (Src.enabled s) || negb (Src.gyroEnabled s)); [tauto|].
  destruct (DeviceOrientationEvent.alpha e); [|tauto].
  destruct (DeviceOrientationEvent.beta e); [|tauto].
  destruct (negb (Src.gyroCalibrated s)); simpl; tauto.
Qed.

Lemma Js_handleOrientation_no_reading s e :
  ~ has_reading e -> Js.handleOrientation e s = s.
Proof.
  unfold has_reading, Js.handleOrientation. intros H.
  destruct (negb (Js.enabled s) || negb (Js.gyroEnabled s));
    [reflexivity|].
  destruct (DeviceOrientationEvent.alpha e); [|reflexivity].
  destruct (DeviceOrientationEvent.beta e); [|reflexivity].
  exfalso. apply H. split; discriminate.
Qed.

Lemma Src_handleOrientation_no_reading s e :
  ~ has_reading e -> Src.handleOrientation e s = s.
Proof.
  unfold has_reading, Src.handleOrientation. intros H.
  destruct (negb (Src.enabled s) || negb (Src.gyroEnabled s));
    [reflexivity|].
  destruct (DeviceOrientationEvent.alpha e); [|reflexivity].
  destruct (DeviceOrientationEvent.beta e); [|reflexivity].
  exfalso. apply H. split; discriminate.
Qed.

Lemma has_reading_dec e : {has_reading e} + {~ has_reading e}.
Proof.
  unfold has_reading.
  destruct (DeviceOrientationEvent.alpha e);
    destruct (DeviceOrientationEvent.beta e);
    try (right; intros [? ?]; congruence).
  left. split; discriminate.
Qed.

(** The clamp is symmetric about PI/2. *)
Lemma clamp_mirror (v : R) :
  Rmax (PI / 6) (Rmin (PI * 5 / 6) (PI / 2 + v))
  + Rmax (PI / 6) (Rmin (PI * 5 / 6) (PI / 2 - v)) = PI.
Proof.
  pose proof PI_RGT_0. unfold Rmax, Rmin.
  repeat destruct (Rle_dec _ _); lra.
Qed.

Lemma handleOrientation_in_step a b e :
  in_step a b ->
  in_step (Js.handleOrientation e a) (Src.handleOrientation e b).
Proof.
  intros (Ea & Ga & Eb & Gb & Hc & Ho).
  destruct (has_reading_dec e) as [Hr|Hr].
  - destruct Hr as [Hal Hbe].
    destruct (DeviceOrientationEvent.alpha e) as [al|] eqn:Eal;
      [|congruence].
    destruct (DeviceOrientationEvent.beta e) as [be|] eqn:Ebe;
      [|congruence].
    destruct (Js_handleOrientation_reading a e al be Ea Ga Eal Ebe)
      as (_ & _ & Hca & Hoa).
    destruct (Src_handleOrientation_reading b e al be Eb Gb Eal Ebe)
      as (_ & _ & Hcb & Hob).
    destruct (Js_handleOrientation_flags a e) as [Fa1 Fa2].
    destruct (Src_handleOrientation_flags b e) as [Fb1 Fb2].
    red. rewrite Fa1, Fa2, Fb1, Fb2, Hca, Hcb, Hoa, Hob.
    repeat split; try assumption.
    rewrite <- Hc. destruct (Js.gyroCalibrated a); auto.
  - rewrite Js_handleOrientation_no_reading,
      Src_handleOrientation_no_reading by assumption.
    red. tauto.
Qed.

Lemma handleOrientation_reading_mirrored a b e :
  in_step a b -> has_reading e ->
  mirrored (Js.handleOrientation e a) (Src.handleOrientation e b).
Proof.
  intros (Ea & Ga & Eb & Gb & Hc & Ho) [Hal Hbe].
  destruct (DeviceOrientationEvent.alpha e) as [al|] eqn:Eal;
    [|congruence].
  destruct (DeviceOrientationEvent.beta e) as [be|] eqn:Ebe;
    [|congruence].
  destruct (Js_handleOrientation_reading a e al be Ea Ga Eal Ebe)
    as (Hta & Hpa & _ & _).
  destruct (Src_handleOrientation_reading b e al be Eb Gb Eal Ebe)
    as (Htb & Hpb & _ & _).
  red. rewrite Hta, Htb, Hpa, Hpb. split.
  - rewrite <- Hc.
    destruct (Js.gyroCalibrated a); [rewrite Ho|]; reflexivity.
  - apply clamp_mirror.
Qed.

Lemma deliver_mirrored evs : forall a b,
  in_step a b ->
  mirrored a b \/ Exists has_reading evs ->
  mirrored (Js_deliver evs a) (Src_deliver evs b).
Proof.
  unfold Js_deliver, Src_deliver, Js.run, Src.run.
  induction evs as [|e evs IH]; intros a b Hs Hm; simpl.
  - destruct Hm as [Hm|Hm]; [exact Hm | inversion Hm].
  - apply IH; [apply handleOrientation_in_step, Hs|].
    destruct (has_reading_dec e) as [Hr|Hr].
    + left. apply handleOrientation_reading_mirrored; assumption.
    + rewrite Js_handleOrientation_no_reading,
        Src_handleOrientation_no_reading by assumption.
      destruct Hm as [Hm|Hm]; [left; exact Hm|].
      inversion Hm; subst; [contradiction | right; assumption].
Qed.

Lemma c10_js_targets :
  Js.targetTheta (Js_deliver c10_events c10_js) = - (PI / 2)
  /\ Js.targetPhi (Js_deliver c10_events c10_js) = PI / 2 + PI / 18.
Proof.
  unfold Js_deliver, Js.run, c10_events. simpl fold_left.
  set (s1 := Js.handleOrientation _ c10_js).
  assert (H1 : Js.enabled s1 = true /\ Js.gyroEnabled s1 = true
               /\ Js.gyroCalibrated s1 = true
               /\ Js.gyroAlphaOffset s1 = 0).
  { subst s1.
    destruct (Js_handleOrientation_flags c10_js
                (DeviceOrientationEvent.mk (Some 0) (Some 50) None))
      as [F1 F2].
    destruct (Js_handleOrientation_reading c10_js
                (DeviceOrientationEvent.mk (Some 0) (Some 50) None)
                0 50 eq_refl eq_refl eq_refl eq_refl)
      as (_ & _ & Hc & Ho).
    rewrite F1, F2, Hc, Ho. repeat split. }
  destruct H1 as (He & Hg & Hc & Ho).
  destruct (Js_handleOrientation_reading s1
              (DeviceOrientationEvent.mk (Some 90) (Some 70) None)
              90 70 He Hg eq_refl eq_refl) as (Ht & Hp & _ & _).
  rewrite Ht, Hp, Hc, Ho. unfold THREE.degToRad. split; [lra|].
  pose proof PI_RGT_0.
  destruct (clamp_cases (PI / 6) (PI * 5 / 6)
              (PI / 2 + (70 - 50) * (PI / 180) * 0.5) band_nonempty)
    as (_ & _ & Hin & _).
  rewrite Hin; lra.
Qed.

Lemma c10_src_targets :
  Src.targetTheta (Src_deliver c10_events c10_src) = PI / 2
  /\ Src.targetPhi (Src_deliver c10_events c10_src) = PI / 2 - PI / 18.
Proof.
  unfold Src_deliver, Src.run, c10_events. simpl fold_left.
  set (s1 := Src.handleOrientation _ c10_src).
  assert (H1 : Src.enabled s1 = true /\ Src.gyroEnabled s1 = true
               /\ Src.gyroCalibrated s1 = true
               /\ Src.gyroAlphaOffset s1 = 0).
  { subst s1.
    destruct (Src_handleOrientation_flags c10_src
                (DeviceOrientationEvent.mk (Some 0) (Some 50) None))
      as [F1 F2].
    destruct (Src_handleOrientation_reading c10_src
                (DeviceOrientationEvent.mk (Some 0) (Some 50) None)
                0 50 eq_refl eq_refl eq_refl eq_refl)
      as (_ & _ & Hc & Ho).
    rewrite F1, F2, Hc, Ho. repeat split. }
  destruct H1 as (He & Hg & Hc & Ho).
  destruct (Src_handleOrientation_reading s1
              (DeviceOrientationEvent.mk (Some 90) (Some 70) None)
              90 70 He Hg eq_refl eq_refl) as (Ht & Hp & _ & _).
  rewrite Ht, Hp, Hc, Ho. unfold THREE.degToRad. split; [lra|].
  pose proof PI_RGT_0.
  destruct (clamp_cases (PI / 6) (PI * 5 / 6)
              (PI / 2 - (70 - 50) * (PI / 180) * 0.5) band_nonempty)
    as (_ & _ & Hin & _).
  rewrite Hin; lra.
Qed.

(** C10, as stated, fails: after the same two events the copy in [js/]
    looks at yaw -PI/2 and pitch PI/2 + PI/18, the copy in [src/js/] at
    yaw PI/2 and pitch PI/2 - PI/18. *)
Lemma C10_counterexample :
  Js.targetTheta (Js_deliver c10_events c10_js)
  <> Src.targetTheta (Src_deliver c10_events c10_src)
  /\ Js.targetPhi (Js_deliver c10_events c10_js)
     <> Src.targetPhi (Src_deliver c10_events c10_src).
Proof.
  destruct c10_js_targets as [Ha Hb].
  destruct c10_src_targets as [Hc Hd].
  rewrite Ha, Hb, Hc, Hd. pose proof PI_RGT_0. split; lra.
Qed.

(** C10, amended: the same sequence of orientation events, delivered to
    enabled, gyro-enabled, not yet calibrated controls of each copy and
    containing at least one event with both [alpha] and [beta], leaves
    mirror-image targets: the [targetTheta] of [js/] is the opposite of
    the one of [src/js/], and the two [targetPhi] add up to PI.  So the
    copies agree on [targetTheta] only at 0 and on [targetPhi] only at
    PI/2. *)
Theorem C10_gyro_handlers_mirror
    (a : Js.t) (b : Src.t) (evs : list DeviceOrientationEvent.t) :
  Js.enabled a = true -> Js.gyroEnabled a = true ->
  Js.gyroCalibrated a = false ->
  Src.enabled b = true -> Src.gyroEnabled b = true ->
  Src.gyroCalibrated b = false ->
  Exists has_reading evs ->
  let a' := Js_deliver evs a in
  let b' := Src_deliver evs b in
  Js.targetTheta a' = - Src.targetTheta b'
  /\ Js.targetPhi a' + Src.targetPhi b' = PI
  /\ (Js.targetTheta a' = Src.targetTheta b' <-> Src.targetTheta b' = 0)
  /\ (Js.targetPhi a' = Src.targetPhi b' <-> Src.targetPhi b' = PI / 2).
Proof.
  intros Ea Ga Ca Eb Gb Cb Hex a' b'.
  assert (Hs : in_step a b).
  { red. rewrite Ca, Cb. repeat split; try assumption. discriminate. }
  destruct (deliver_mirrored evs a b Hs (or_intror Hex)) as [Ht Hp].
  fold a' in Ht, Hp. fold b' in Ht, Hp.
  repeat split; try assumption; intros; lra.
Qed.

(** *** Witnesses and concrete runs *)

(** The witness of C4, on the [js/] controls turning toward yaw 1 and
    pitch 2. *)
Lemma C4_witness :
  approaches (Js.theta ex_js_turning) (Js.targetTheta ex_js_turning)
             (Js.theta (Js.update ex_js_turning))
  /\ approaches (Js.phi ex_js_turning) (Js.targetPhi ex_js_turning)
                (Js.phi (Js.update ex_js_turning))
  /\ Js.targetTheta (Js.update ex_js_turning) = Js.targetTheta ex_js_turning
  /\ Js.targetPhi (Js.update ex_js_turning) = Js.targetPhi ex_js_turning.
Proof.
  apply (proj1 C4_update_approaches_targets ex_js_turning).
  reflexivity.
Defined.

Example update_first_frame :
  Js.theta (Js.update ex_js_turning) = 0.08
  /\ Src.theta (Src.update ex_src_turning) = 0.08
  /\ Js.targetTheta (Js.update ex_js_turning) = 1.
Proof.
  unfold ex_js_turning, ex_src_turning, Js.update, Src.update; simpl.
  destruct (Rgt_dec _ _); simpl;
    unfold Js.dampingFactor, Src.dampingFactor; repeat split; lra.
Qed.

(** The witness of C5, on the drag from (10, 20) to (110, 50). *)
Lemma C5_witness :
  Js.targetTheta (Js.onMouseMove ex_move ex_js_dragging)
  = Js.targetTheta ex_js_dragging
    - (MouseEvent.clientX ex_move - x (Js.previousMouse ex_js_dragging))
      * 0.003
  /\ clamped_to_band
       (Js.targetPhi ex_js_dragging
        - (MouseEvent.clientY ex_move - y (Js.previousMouse ex_js_dragging))
          * 0.003)
       (Js.targetPhi (Js.onMouseMove ex_move ex_js_dragging)).
Proof.
  apply (proj1 (proj1 C5_dragging_updates_targets ex_js_dragging ex_move));
    reflexivity.
Defined.

Example drag_100_pixels_right :
  Js.targetTheta (Js.onMouseMove ex_move ex_js_dragging) = - 0.3
  /\ Src.targetTheta (Src.onMouseMove ex_move ex_src_dragging) = - 0.3
  /\ Js.targetTheta (Js.onMouseMove ex_move ex_js) = 0.
Proof.
  unfold Js.onMouseMove, Src.onMouseMove; simpl.
  unfold Js.rotationSpeed, Src.rotationSpeed. repeat split; lra.
Qed.

(** The witness of C8: new controls have [targetPhi = PI/2], inside the
    band. *)
Lemma C8_witness :
  in_band (Js.targetPhi ex_js)
  /\ forall e, in_band (Js.targetPhi (Js.onKeyDown e ex_js)).
Proof.
  assert (H : in_band (Js.targetPhi ex_js)).
  { unfold in_band. simpl. pose proof PI_RGT_0. lra. }
  split; [exact H|].
  apply (proj1 C8_pitch_target_band ex_js H).
Defined.

(** The witness of C10 as amended, on the input of the counterexample. *)
Lemma C10_witness :
  Js.targetTheta (Js_deliver c10_events c10_js)
  = - Src.targetTheta (Src_deliver c10_events c10_src)
  /\ Js.targetPhi (Js_deliver c10_events c10_js)
     + Src.targetPhi (Src_deliver c10_events c10_src) = PI.
Proof.
  assert (Hex : Exists has_reading c10_events).
  { apply Exists_cons_hd. split; discriminate. }
  destruct (C10_gyro_handlers_mirror c10_js c10_src c10_events
              eq_refl eq_refl eq_refl eq_refl eq_refl eq_refl Hex)
    as (Ht & Hp & _).
  split; [exact Ht | exact Hp].
Defined.

End CameraFacts.

(** ** WebGL detection *)

Module PageFacts.
Import Props.




End PageFacts.

(** * Further properties *)

(** ** The popup state machine *)

Module PopupMore.
Import PopupStateManager Props MoreProps.

(** The effect of each operation on the state and on the class list. *)
Lemma open_classList position m :
  classList (open position m) =
    if String.eqb (state m) STATES.OPEN then classList m
    else ((if String.eqb (state m) STATES.CLOSING
           then classList m ∖ {[ "fading" ]} else classList m)
          ∪ {[ "active" ]}) ∖ {[ "interactive" ]}.
Proof.
  unfold open. rewrite PopupFacts.cancel_state.
  destruct (String.eqb (state m) STATES.OPEN).
  - simpl. apply PopupFacts.cancel_classList.
  - destruct (String.eqb (state m) STATES.CLOSING); simpl;
      rewrite PopupFacts.cancel_classList; set_solver.
Qed.

Lemma close_classList m :
  classList (close m) =
    if String.eqb (state m) STATES.CLOSED
       || String.eqb (state m) STATES.CLOSING
    then classList m
    else (classList m ∖ {[ "interactive" ]}) ∪ {[ "fading" ]}.
Proof.
  unfold close. rewrite PopupFacts.cancel_state.
  destruct (String.eqb (state m) STATES.CLOSED
            || String.eqb (state m) STATES.CLOSING).
  - apply PopupFacts.cancel_classList.
  - simpl. rewrite PopupFacts.cancel_classList. set_solver.
Qed.

Lemma forceClose_classList m :
  classList (forceClose m) =
    classList m ∖ {[ "active"; "fading"; "interactive" ]}.
Proof.
  unfold forceClose. simpl. rewrite PopupFacts.cancel_classList.
  set_solver.
Qed.

Lemma fire_state_classList h m :
  (state (fire h m) = state m /\ classList (fire h m) = classList m)
  \/ (state m = STATES.OPENING /\ state (fire h m) = STATES.OPEN
      /\ classList (fire h m) = classList m ∪ {[ "interactive" ]})
  \/ (state m = STATES.CLOSING /\ state (fire h m) = STATES.CLOSED
      /\ classList (fire h m) = classList m ∖ {[ "active"; "fading" ]}).
Proof.
  unfold fire. destruct (timers m !! h) as [[cb d]|]; [|left; auto].
  unfold run_callback. destruct cb; simpl.
  - destruct (String.eqb_spec (state m) STATES.OPENING) as [E|E]; simpl.
    + right; left. repeat split. exact E.
    + left. split; reflexivity.
  - destruct (String.eqb_spec (state m) STATES.CLOSING) as [E|E]; simpl.
    + right; right. split; [exact E|]. split; [reflexivity|]. set_solver.
    + left. split; reflexivity.
Qed.

Lemma step_classes_track_state a m :
  is_STATE (state m) -> classes_track_state m ->
  classes_track_state (step a m).
Proof.
  intros Hs (Hi & Ha & Hf). unfold classes_track_state.
  destruct a as [position| | |h]; cbn [step].
  - rewrite PopupFacts.open_state, open_classList.
    destruct Hs as [E|[E|[E|E]]]; rewrite E in *; simpl;
      (repeat split; intros; try done; set_solver).
  - rewrite PopupFacts.close_state, close_classList.
    destruct Hs as [E|[E|[E|E]]]; rewrite E in *; simpl;
      (repeat split; intros; try done; set_solver).
  - rewrite forceClose_classList, PopupFacts.forceClose_state.
    repeat split; intros; try done; set_solver.
  - destruct (fire_state_classList h m)
      as [[E1 E2]|[(E0 & E1 & E2)|(E0 & E1 & E2)]];
      rewrite E1, E2; [tauto | |]; rewrite E0 in *;
      (repeat split; intros; try done; set_solver).
Qed.

(** X1: when the popup element starts without the classes 'active',
    'fading' and 'interactive', the class list always tells the state:
    'interactive' is present exactly in OPEN, 'active' exactly outside
    CLOSED, and 'fading' exactly in CLOSING. *)
Theorem X1_classes_track_state
    (classes : gset string) (d : option nat) (acts : list Action) :
  plain classes ->
  classes_track_state (run acts (constructor classes d)).
Proof.
  intros (Ha & Hf & Hi).
  assert (H : forall m, reachable m ->
              classes_track_state m ->
              classes_track_state (run acts m)).
  { induction acts as [|a acts IH]; intros m Hr Hm; simpl; [exact Hm|].
    apply IH; [constructor; exact Hr|].
    apply step_classes_track_state;
      [apply PopupFacts.reachable_is_STATE, Hr | exact Hm]. }
  apply H; [constructor|].
  unfold classes_track_state. simpl. repeat split; intros; done.
Qed.

Lemma X1_witness :
  classes_track_state
    (run [CallOpen "center"; TimerFires 1; CallClose]
         (constructor {[ "skill-popup-3d" ]} None)).
Proof.
  apply X1_classes_track_state.
  repeat split; set_solver.
Defined.

(** *** Timers *)

Lemma cancel_one_timer m :
  one_timer m ->
  pendingTransition (cancelPendingTransition m) = None
  /\ timers (cancelPendingTransition m) = ∅.
Proof.
  unfold cancelPendingTransition.
  intros [[Hp Ht]|(h & cb & dl & Hh & Hp & Ht & _)]; rewrite Hp.
  - auto.
  - destruct (Nat.eqb_spec h 0) as [->|_]; [lia|]. simpl.
    split; [reflexivity|]. rewrite Ht. apply delete_singleton_eq.
Qed.

Lemma cancel_other_fields m :
  state (cancelPendingTransition m) = state m
  /\ nextHandle (cancelPendingTransition m) = nextHandle m
  /\ classList (cancelPendingTransition m) = classList m.
Proof.
  unfold cancelPendingTransition.
  destruct (pendingTransition m) as [h|]; [|auto].
  destruct (Nat.eqb h 0); auto.
Qed.

Lemma step_one_timer a m :
  one_timer m -> (1 <= nextHandle m)%nat ->
  one_timer (step a m) /\ (1 <= nextHandle (step a m))%nat.
Proof.
  intros Hm Hn.
  destruct (cancel_one_timer m Hm) as [Cp Ct].
  destruct (cancel_other_fields m) as (Cs & Cn & _).
  destruct a as [position| | |h]; cbn [step].
  - unfold open.
    destruct (String.eqb (state (cancelPendingTransition m)) STATES.OPEN).
    + split; [left; split; assumption | simpl; lia].
    + destruct (String.eqb (state (cancelPendingTransition m))
                  STATES.CLOSING); simpl;
        (split; [|lia]; right;
         exists (nextHandle (cancelPendingTransition m)), AfterOpen,
                (transitionDuration (cancelPendingTransition m));
         simpl; split; [lia|]; split; [reflexivity|];
         split; [rewrite Ct; apply insert_empty | left; split; reflexivity]).
  - unfold close.
    destruct (String.eqb (state (cancelPendingTransition m)) STATES.CLOSED
              || String.eqb (state (cancelPendingTransition m))
                   STATES.CLOSING).
    + split; [left; split; assumption | lia].
    + simpl. split; [|lia]. right.
      exists (nextHandle (cancelPendingTransition m)), AfterClose,
             (transitionDuration (cancelPendingTransition m)).
      simpl. split; [lia|]. split; [reflexivity|].
      split; [rewrite Ct; apply insert_empty | right; split; reflexivity].
  - split; [left; split; simpl; assumption | simpl; lia].
  - unfold fire.
    destruct Hm as [[Hp Ht]|(h' & cb & dl & Hh & Hp & Ht & Hcb)].
    + rewrite Ht, lookup_empty. split; [left; auto | exact Hn].
    + rewrite Ht. destruct (decide (h = h')) as [->|Hne].
      * rewrite lookup_singleton_eq.
        assert (Hidle : forall m0,
                  pendingTransition m0 = None -> timers m0 = ∅ ->
                  one_timer m0) by (intros; left; auto).
        unfold run_callback, clearTimeout. simpl. rewrite Ht.
        destruct cb;
          match goal with
          | |- context [if ?b then _ else _] => destruct b
          end; simpl;
          (split; [apply Hidle; simpl;
                   [reflexivity | apply delete_singleton_eq] | lia]).
      * rewrite lookup_singleton_ne by congruence.
        split; [|exact Hn]. right. eexists _, _, _. eauto.
Qed.

Lemma reachable_one_timer m :
  reachable m -> one_timer m /\ (1 <= nextHandle m)%nat.
Proof.
  induction 1 as [classes d | a m _ [IH1 IH2]].
  - split; [left; split; reflexivity | simpl; lia].
  - apply step_one_timer; assumption.
Qed.

(** X2: a manager never has two timers running.  Whatever sequence of
    calls and timer firings a new manager went through, either nothing is
    pending and no timer is live, or exactly one timer is live, its handle
    is the one stored in [pendingTransition], and it carries the closure
    of [open] while the state is OPENING or the closure of [close] while
    the state is CLOSING. *)
Theorem X2_one_timer
    (classes : gset string) (d : option nat) (acts : list Action) :
  one_timer (run acts (constructor classes d)).
Proof.
  apply reachable_one_timer, PopupFacts.run_reachable. constructor.
Qed.

(** X3: a timer that was cancelled, or that fired already, changes
    nothing: the firing of any handle other than the pending one leaves a
    reachable manager exactly as it was. *)
Theorem X3_stale_timer_is_ignored
    (classes : gset string) (d : option nat) (acts : list Action)
    (h : nat) :
  let m := run acts (constructor classes d) in
  pendingTransition m <> Some h -> fire h m = m.
Proof.
  intros m Hne. unfold fire.
  assert (Hr : reachable m)
    by (apply PopupFacts.run_reachable; constructor).
  destruct (reachable_one_timer m Hr)
    as [[[_ Ht]|(h' & cb & dl & _ & Hp & Ht & _)] _].
  - rewrite Ht, lookup_empty. reflexivity.
  - rewrite Ht, lookup_singleton_ne; [reflexivity|]. congruence.
Qed.

Lemma X3_witness :
  fire 1 (run [CallOpen "center"; CallClose] (constructor ∅ None))
  = run [CallOpen "center"; CallClose] (constructor ∅ None).
Proof.
  apply (X3_stale_timer_is_ignored ∅ None [CallOpen "center"; CallClose] 1).
  vm_compute. discriminate.
Defined.

Lemma fires_idle (hs : list nat) m :
  timers m = ∅ -> run (map TimerFires hs) m = m.
Proof.
  intros Ht. induction hs as [|h hs IH]; simpl; [reflexivity|].
  unfold fire at 1. rewrite Ht, lookup_empty. exact IH.
Qed.

(** X4: a second [close()] during the fade-out stops the transition.
    From a reachable manager in state OPEN or OPENING, [close()] followed
    by [close()] leaves the state CLOSING with nothing pending and no live
    timer, so no timer firing ever completes the close: the manager stays
    as it is until [open()] or [forceClose()] is called. *)
Theorem X4_second_close_stalls
    (classes : gset string) (d : option nat) (acts : list Action)
    (hs : list nat) :
  let m := run acts (constructor classes d) in
  state m = STATES.OPEN \/ state m = STATES.OPENING ->
  let m2 := close (close m) in
  state m2 = STATES.CLOSING
  /\ pendingTransition m2 = None
  /\ timers m2 = ∅
  /\ run (map TimerFires hs) m2 = m2.
Proof.
  intros m Hs m2.
  assert (Hr : reachable (close m)).
  { apply (reachable_step CallClose), PopupFacts.run_reachable.
    constructor. }
  destruct (reachable_one_timer _ Hr) as [H1 _].
  destruct (cancel_one_timer _ H1) as [Cp Ct].
  assert (E1 : state (close m) = STATES.CLOSING).
  { rewrite PopupFacts.close_state.
    destruct Hs as [E|E]; rewrite E; reflexivity. }
  assert (E2 : m2 = cancelPendingTransition (close m)).
  { subst m2. unfold close at 1. rewrite PopupFacts.cancel_state, E1.
    reflexivity. }
  rewrite E2, PopupFacts.cancel_state.
  repeat split; try assumption. apply fires_idle, Ct.
Qed.

Lemma X4_witness :
  state (close (close ex_popup_open)) = STATES.CLOSING
  /\ timers (close (close ex_popup_open)) = ∅.
Proof.
  destruct (X4_second_close_stalls ∅ None
              [CallOpen "center"; TimerFires 1] [] (or_introl eq_refl))
    as (H1 & _ & H3 & _).
  split; [exact H1 | exact H3].
Defined.

(** X5: opening always completes.  From any manager, after
    [open(position)] either the popup was open already and stays OPEN with
    nothing pending, or a timer is pending and its firing makes the state
    OPEN with the classes 'active' and 'interactive' on the element. *)
Theorem X5_open_completes (position : string) (m : PopupStateManager.t) :
  let m1 := open position m in
  (state m = STATES.OPEN /\ state m1 = STATES.OPEN)
  \/ exists h : nat,
       pendingTransition m1 = Some h
       /\ state m1 = STATES.OPENING
       /\ isVisible m1 = true /\ isInteractive m1 = false
       /\ state (fire h m1) = STATES.OPEN
       /\ ("active" ∈ classList (fire h m1))
       /\ ("interactive" ∈ classList (fire h m1)).
Proof.
  intros m1.
  destruct (String.eqb_spec (state m) STATES.OPEN) as [E|E].
  - left. split; [exact E|]. subst m1.
    rewrite PopupFacts.open_state, E. reflexivity.
  - right. subst m1. unfold open. rewrite PopupFacts.cancel_state.
    apply String.eqb_neq in E. rewrite E.
    eexists. split; [reflexivity|]. split; [reflexivity|].
    split; [reflexivity|]. split; [reflexivity|].
    unfold fire. simpl. rewrite lookup_insert_eq.
    unfold run_callback. simpl. repeat split; set_solver.
Qed.

(** X6: [forceClose()] ends everything at once.  On a reachable manager
    it leaves the state CLOSED, the classes 'active', 'fading' and
    'interactive' off the element, nothing pending and no live timer, so
    that no later timer firing changes the manager. *)
Theorem X6_forceClose_is_final
    (classes : gset string) (d : option nat) (acts : list Action)
    (hs : list nat) :
  let m := forceClose (run acts (constructor classes d)) in
  state m = STATES.CLOSED
  /\ isVisible m = false
  /\ ("active" ∉ classList m)
  /\ ("fading" ∉ classList m)
  /\ ("interactive" ∉ classList m)
  /\ pendingTransition m = None
  /\ timers m = ∅
  /\ run (map TimerFires hs) m = m.
Proof.
  intros m.
  assert (Hr : reachable (run acts (constructor classes d)))
    by (apply PopupFacts.run_reachable; constructor).
  destruct (reachable_one_timer _ Hr) as [H1 _].
  destruct (cancel_one_timer _ H1) as [Cp Ct].
  assert (Ht : timers m = ∅) by exact Ct.
  split; [reflexivity|]. split; [reflexivity|].
  subst m. rewrite forceClose_classList.
  repeat split; try set_solver; try assumption.
  apply fires_idle, Ht.
Qed.

End PopupMore.

(** ** The camera rig *)

Module CameraMore.
Import Props MoreProps.

(** *** Frames *)

Lemma Js_update_enabled s :
  Js.enabled s = true ->
  Js.enabled (Js.update s) = true
  /\ Js.targetTheta (Js.update s) = Js.targetTheta s
  /\ Js.targetPhi (Js.update s) = Js.targetPhi s
  /\ approaches (Js.theta s) (Js.targetTheta s) (Js.theta (Js.update s))
  /\ approaches (Js.phi s) (Js.targetPhi s) (Js.phi (Js.update s)).
Proof.
  intros He. unfold Js.update. rewrite He. simpl.
  unfold Js.dampingFactor.
  split; [exact He|]. split; [reflexivity|]. split; [reflexivity|].
  split; apply CameraFacts.approaches_lerp.
Qed.

Lemma Src_update_enabled s :
  Src.enabled s = true ->
  Src.enabled (Src.update s) = true
  /\ Src.targetTheta (Src.update s) = Src.targetTheta s
  /\ Src.targetPhi (Src.update s) = Src.targetPhi s
  /\ approaches (Src.theta s) (Src.targetTheta s) (Src.theta (Src.update s))
  /\ approaches (Src.phi s) (Src.targetPhi s) (Src.phi (Src.update s)).
Proof.
  intros He. unfold Src.update. rewrite He. simpl.
  destruct (Rgt_dec _ _); simpl; unfold Src.dampingFactor;
    (split; [exact He|]); (split; [reflexivity|]); (split; [reflexivity|]);
    split; apply CameraFacts.approaches_lerp.
Qed.

Lemma Js_frames_S n s : Js_frames (S n) s = Js_frames n (Js.update s).
Proof. reflexivity. Qed.

Lemma Src_frames_S n s : Src_frames (S n) s = Src_frames n (Src.update s).
Proof. reflexivity. Qed.

(** The last of [S n] frames is a frame on what [n] frames left. *)
Lemma Js_frames_last n : forall s,
  Js_frames (S n) s = Js.update (Js_frames n s).
Proof.
  induction n as [|n IH]; intros s; [reflexivity|].
  rewrite Js_frames_S, IH. reflexivity.
Qed.

Lemma Src_frames_last n : forall s,
  Src_frames (S n) s = Src.update (Src_frames n s).
Proof.
  induction n as [|n IH]; intros s; [reflexivity|].
  rewrite Src_frames_S, IH. reflexivity.
Qed.

Lemma between_step (a target a1 an : R) :
  approaches a target a1 -> between a1 target an -> between a target an.
Proof.
  intros (_ & Hup & Hdown & _ & _) [Bup Bdown]. split; intros H.
  - specialize (Hup H). specialize (Bup ltac:(lra)). lra.
  - specialize (Hdown H). specialize (Bdown ltac:(lra)). lra.
Qed.

Lemma Js_frames_between n : forall s,
  Js.enabled s = true ->
  Js.enabled (Js_frames n s) = true
  /\ Js.targetTheta (Js_frames n s) = Js.targetTheta s
  /\ Js.targetPhi (Js_frames n s) = Js.targetPhi s
  /\ between (Js.theta s) (Js.targetTheta s) (Js.theta (Js_frames n s))
  /\ between (Js.phi s) (Js.targetPhi s) (Js.phi (Js_frames n s)).
Proof.
  induction n as [|n IH]; intros s He.
  - unfold Js_frames, between. simpl.
    split; [exact He|]. split; [reflexivity|]. split; [reflexivity|].
    split; split; intros; lra.
  - rewrite Js_frames_S.
    destruct (Js_update_enabled s He) as (He' & Ht & Hp & At & Ap).
    destruct (IH (Js.update s) He') as (He2 & Ht' & Hp' & Bt & Bp).
    rewrite Ht in Ht', Bt. rewrite Hp in Hp', Bp.
    split; [exact He2|]. split; [exact Ht'|]. split; [exact Hp'|].
    split; eapply between_step; eassumption.
Qed.

Lemma Src_frames_between n : forall s,
  Src.enabled s = true ->
  Src.enabled (Src_frames n s) = true
  /\ Src.targetTheta (Src_frames n s) = Src.targetTheta s
  /\ Src.targetPhi (Src_frames n s) = Src.targetPhi s
  /\ between (Src.theta s) (Src.targetTheta s) (Src.theta (Src_frames n s))
  /\ between (Src.phi s) (Src.targetPhi s) (Src.phi (Src_frames n s)).
Proof.
  induction n as [|n IH]; intros s He.
  - unfold Src_frames, between. simpl.
    split; [exact He|]. split; [reflexivity|]. split; [reflexivity|].
    split; split; intros; lra.
  - rewrite Src_frames_S.
    destruct (Src_update_enabled s He) as (He' & Ht & Hp & At & Ap).
    destruct (IH (Src.update s) He') as (He2 & Ht' & Hp' & Bt & Bp).
    rewrite Ht in Ht', Bt. rewrite Hp in Hp', Bp.
    split; [exact He2|]. split; [exact Ht'|]. split; [exact Hp'|].
    split; eapply between_step; eassumption.
Qed.

(** X7: with the targets left alone, the frames bring the angles toward
    them and never past them.  In both copies, after [n] calls of
    [update()] on enabled controls the targets are unchanged and each
    angle lies between the value it started from and its target; and the
    next frame sets each angle to the value of [angle + (target - angle) *
    0.08], which is no further from the target, and leaves an angle that
    equals its target as it is. *)
Theorem X7_frames_approach_targets :
  (forall (s : Js.t) (n : nat),
      Js.enabled s = true ->
      Js.targetTheta (Js_frames n s) = Js.targetTheta s
      /\ Js.targetPhi (Js_frames n s) = Js.targetPhi s
      /\ between (Js.theta s) (Js.targetTheta s) (Js.theta (Js_frames n s))
      /\ between (Js.phi s) (Js.targetPhi s) (Js.phi (Js_frames n s))
      /\ approaches (Js.theta (Js_frames n s)) (Js.targetTheta s)
                    (Js.theta (Js_frames (S n) s))
      /\ approaches (Js.phi (Js_frames n s)) (Js.targetPhi s)
                    (Js.phi (Js_frames (S n) s)))
  /\ (forall (s : Src.t) (n : nat),
        Src.enabled s = true ->
        Src.targetTheta (Src_frames n s) = Src.targetTheta s
        /\ Src.targetPhi (Src_frames n s) = Src.targetPhi s
        /\ between (Src.theta s) (Src.targetTheta s)
                   (Src.theta (Src_frames n s))
        /\ between (Src.phi s) (Src.targetPhi s) (Src.phi (Src_frames n s))
        /\ approaches (Src.theta (Src_frames n s)) (Src.targetTheta s)
                      (Src.theta (Src_frames (S n) s))
        /\ approaches (Src.phi (Src_frames n s)) (Src.targetPhi s)
                      (Src.phi (Src_frames (S n) s))).
Proof.
  split; intros s n He.
  - destruct (Js_frames_between n s He) as (He' & Ht & Hp & Bt & Bp).
    destruct (Js_update_enabled _ He') as (_ & _ & _ & At & Ap).
    rewrite Ht in At. rewrite Hp in Ap. rewrite Js_frames_last.
    split; [exact Ht|]. split; [exact Hp|]. split; [exact Bt|].
    split; [exact Bp|]. split; [exact At | exact Ap].
  - destruct (Src_frames_between n s He) as (He' & Ht & Hp & Bt & Bp).
    destruct (Src_update_enabled _ He') as (_ & _ & _ & At & Ap).
    rewrite Ht in At. rewrite Hp in Ap. rewrite Src_frames_last.
    split; [exact Ht|]. split; [exact Hp|]. split; [exact Bt|].
    split; [exact Bp|]. split; [exact At | exact Ap].
Qed.

Lemma X7_witness :
  between (Js.theta ex_js_turning) (Js.targetTheta ex_js_turning)
          (Js.theta (Js_frames 3 ex_js_turning)).
Proof.
  destruct (proj1 X7_frames_approach_targets ex_js_turning 3%nat eq_refl)
    as (_ & _ & H & _).
  exact H.
Defined.

(** *** Disabled controls *)

Lemma Js_input_disabled (o : Js.Op) (s : Js.t) :
  Js_input o = true -> Js.enabled s = false -> Js.step o s = s.
Proof.
  intros Ho He. destruct o; try discriminate Ho; simpl;
    unfold Js.onMouseDown, Js.onMouseMove, Js.onTouchStart, Js.onTouchMove,
      Js.onKeyDown, Js.handleOrientation, Js.update;
    rewrite He; reflexivity.
Qed.

Lemma Src_input_disabled (o : Src.Op) (s : Src.t) :
  Src_input o = true -> Src.enabled s = false -> Src.step o s = s.
Proof.
  intros Ho He. destruct o; try discriminate Ho; simpl;
    unfold Src.onMouseWheel, Src.onMouseDown, Src.onMouseMove,
      Src.onTouchStart, Src.onTouchMove, Src.onKeyDown,
      Src.handleOrientation, Src.update;
    rewrite He; reflexivity.
Qed.

Lemma Js_inputs_disabled (ops : list Js.Op) (s : Js.t) :
  forallb Js_input ops = true -> Js.enabled s = false -> Js.run ops s = s.
Proof.
  intros Ho He. induction ops as [|o ops IH]; simpl; [reflexivity|].
  simpl in Ho. apply andb_true_iff in Ho as [Ho1 Ho2].
  rewrite (Js_input_disabled o s Ho1 He). apply IH, Ho2.
Qed.

Lemma Src_inputs_disabled (ops : list Src.Op) (s : Src.t) :
  forallb Src_input ops = true -> Src.enabled s = false ->
  Src.run ops s = s.
Proof.
  intros Ho He. induction ops as [|o ops IH]; simpl; [reflexivity|].
  simpl in Ho. apply andb_true_iff in Ho as [Ho1 Ho2].
  rewrite (Src_input_disabled o s Ho1 He). apply IH, Ho2.
Qed.

(** X8: while [enabled] is false, in both copies, no sequence of
    mousedown, mousemove, wheel, touchstart, touchmove, keydown and
    deviceorientation events and of frames changes anything in the rig;
    the public [lookAt] is not gated and still sets both targets. *)
Theorem X8_disabled_controls_ignore_input :
  (forall (ops : list Js.Op) (s : Js.t),
      forallb Js_input ops = true -> Js.enabled s = false ->
      Js.run ops s = s)
  /\ (forall (ops : list Src.Op) (s : Src.t),
        forallb Src_input ops = true -> Src.enabled s = false ->
        Src.run ops s = s)
  /\ (forall (s : Js.t) (theta' phi' : R) (instant : bool),
        Js.enabled s = false -> phi' <> 0 ->
        Js.targetTheta (Js.lookAt theta' (Some phi') instant s) = theta'
        /\ Js.targetPhi (Js.lookAt theta' (Some phi') instant s) = phi')
  /\ (forall (s : Src.t) (theta' phi' : R) (instant : bool),
        Src.enabled s = false -> phi' <> 0 ->
        Src.targetTheta (Src.lookAt theta' (Some phi') instant s) = theta'
        /\ Src.targetPhi (Src.lookAt theta' (Some phi') instant s) = phi').
Proof.
  split; [exact Js_inputs_disabled|].
  split; [exact Src_inputs_disabled|].
  split; intros s theta' phi' instant _ Hphi.
  - unfold Js.lookAt. destruct (Req_dec_T phi' 0); [contradiction|].
    destruct instant; split; reflexivity.
  - unfold Src.lookAt. destruct (Req_dec_T phi' 0); [contradiction|].
    destruct instant; split; reflexivity.
Qed.

Lemma X8_witness :
  Js.run [Js.MouseDown ex_down; Js.MouseMove ex_move; Js.Frame]
         ex_js_disabled
  = ex_js_disabled.
Proof.
  apply (proj1 X8_disabled_controls_ignore_input); reflexivity.
Defined.

(** *** Snapping *)

(** X9: a [lookAt] with [instant] set is a rest position, a [lookAt]
    without it moves nothing yet.  In both copies, after
    [lookAt(theta, phi, true)] the angles equal the targets, and a frame
    on enabled controls leaves the angles and the point the camera looks
    at unchanged (in [js/] it leaves the whole rig unchanged);
    [lookAt(theta, phi)] leaves the angles and the camera as they were. *)
Theorem X9_lookAt_snap_is_stable :
  (forall (s : Js.t) (theta' : R) (phi' : option R),
      Js.enabled s = true ->
      Js.update (Js.lookAt theta' phi' true s) = Js.lookAt theta' phi' true s)
  /\ (forall (s : Src.t) (theta' : R) (phi' : option R),
        Src.enabled s = true ->
        let s1 := Src.lookAt theta' phi' true s in
        Src.theta (Src.update s1) = Src.theta s1
        /\ Src.phi (Src.update s1) = Src.phi s1
        /\ Src.theta s1 = Src.targetTheta s1
        /\ Src.phi s1 = Src.targetPhi s1
        /\ THREE.target (Src.camera (Src.update s1))
           = THREE.target (Src.camera s1))
  /\ (forall (s : Js.t) (theta' : R) (phi' : option R),
        Js.theta (Js.lookAt theta' phi' false s) = Js.theta s
        /\ Js.phi (Js.lookAt theta' phi' false s) = Js.phi s
        /\ Js.camera (Js.lookAt theta' phi' false s) = Js.camera s)
  /\ (forall (s : Src.t) (theta' : R) (phi' : option R),
        Src.theta (Src.lookAt theta' phi' false s) = Src.theta s
        /\ Src.phi (Src.lookAt theta' phi' false s) = Src.phi s
        /\ Src.camera (Src.lookAt theta' phi' false s) = Src.camera s).
Proof.
  split; [|split; [|split]].
  - intros s theta' phi' He.
    unfold Js.update, Js.lookAt. simpl. rewrite He. simpl.
    unfold Js.updateCameraRotation, Js.set_camera, THREE.lookAt. simpl.
    set (p := match phi' with
              | Some p => if Req_dec_T p 0 then PI / 2 else p
              | None => PI / 2
              end).
    replace (theta' + (theta' - theta') * Js.dampingFactor) with theta'
      by lra.
    replace (p + (p - p) * Js.dampingFactor) with p by lra.
    reflexivity.
  - intros s theta' phi' He s1. subst s1.
    unfold Src.update, Src.lookAt. simpl. rewrite He. simpl.
    set (p := match phi' with
              | Some p => if Req_dec_T p 0 then PI / 2 else p
              | None => PI / 2
              end).
    assert (E1 : theta' + (theta' - theta') * Src.dampingFactor = theta')
      by lra.
    assert (E2 : p + (p - p) * Src.dampingFactor = p) by lra.
    destruct (Rgt_dec _ _); simpl; rewrite E1, E2; repeat split.
  - intros s theta' phi'. repeat split.
  - intros s theta' phi'. repeat split.
Qed.

Lemma X9_witness :
  Js.update (Js.lookAt 1 (Some 2) true ex_js) = Js.lookAt 1 (Some 2) true ex_js.
Proof.
  apply (proj1 X9_lookAt_snap_is_stable ex_js 1 (Some 2)). reflexivity.
Defined.
(** *** Facing the panels *)

Lemma or_default_half_PI :
  (if Req_dec_T (PI / 2) 0 then PI / 2 else PI / 2) = PI / 2.
Proof. destruct (Req_dec_T (PI / 2) 0); reflexivity. Qed.



(** *** The remainder and the direction names *)

Lemma Int_part_unit (r : R) : 0 <= r < 1 -> Int_part r = 0%Z.
Proof.
  intros [H0 H1]. unfold Int_part.
  rewrite <- (tech_up r 1); [reflexivity | simpl; lra ..].
Qed.

Lemma rem_small (n d : R) : 0 < d -> - d < n < d -> Number.rem n d = n.
Proof.
  intros Hd Hn. unfold Number.rem, Number.trunc.
  assert (E : n = d * (n / d)) by (field; lra).
  assert (Hq : -1 < n / d < 1).
  { split; apply Rmult_lt_reg_l with d; try exact Hd; rewrite <- E; lra. }
  destruct (Rle_dec 0 (n / d)).
  - rewrite Int_part_unit by lra. simpl. lra.
  - rewrite Int_part_unit by lra. simpl. lra.
Qed.

Ltac decide_cmp :=
  unfold Number.ltb, Number.gtb, Number.geb;
  repeat match goal with
         | |- context [Rlt_dec ?a ?b] => destruct (Rlt_dec a b); try lra
         | |- context [Rgt_dec ?a ?b] => destruct (Rgt_dec a b); try lra
         | |- context [Rge_dec ?a ?b] => destruct (Rge_dec a b); try lra
         end.

Ltac direction_after :=
  unfold JsDirection.getCurrentDirection, SrcDirection.getCurrentDirection,
    Js.lookAtFront, Js.lookAtLeft, Js.lookAtRight, Js.lookAtBack, Js.lookAt,
    Src.lookAtFront, Src.lookAtLeft, Src.lookAtRight, Src.lookAtBack,
    Src.lookAt;
  rewrite or_default_half_PI; simpl;
  pose proof PI_RGT_0;
  rewrite rem_small by lra;
  decide_cmp; reflexivity.

(** X11: the names [getCurrentDirection] gives to the side panels are
    the other way round from the navigation methods.  In both copies,
    right after [lookAtLeft(true)] it answers "right" and right after
    [lookAtRight(true)] it answers "left"; after [lookAtFront(true)] and
    [lookAtBack(true)] it answers "front" and "back". *)
Theorem X11_direction_names_after_navigation :
  (forall s : Js.t,
      JsDirection.getCurrentDirection (Js.lookAtFront true s) = "front"
      /\ JsDirection.getCurrentDirection (Js.lookAtLeft true s) = "right"
      /\ JsDirection.getCurrentDirection (Js.lookAtRight true s) = "left"
      /\ JsDirection.getCurrentDirection (Js.lookAtBack true s) = "back")
  /\ (forall s : Src.t,
        SrcDirection.getCurrentDirection (Src.lookAtFront true s) = "front"
        /\ SrcDirection.getCurrentDirection (Src.lookAtLeft true s)
           = "right"
        /\ SrcDirection.getCurrentDirection (Src.lookAtRight true s)
           = "left"
        /\ SrcDirection.getCurrentDirection (Src.lookAtBack true s)
           = "back").
Proof.
  split; intros s; repeat split; direction_after.
Qed.

(** X12: [getCurrentDirection] has blind spots.  In both copies, for
    [theta] in [[0, 2*PI)] the answer is "unknown" exactly when [theta]
    lies in [[3*PI/8, 5*PI/8)], in [[11*PI/8, 13*PI/8)] or is [15*PI/8]. *)
Theorem X12_direction_has_gaps :
  (forall s : Js.t,
      0 <= Js.theta s < PI * 2 ->
      (JsDirection.getCurrentDirection s = "unknown"
       <-> in_gap (Js.theta s)))
  /\ (forall s : Src.t,
        0 <= Src.theta s < PI * 2 ->
        (SrcDirection.getCurrentDirection s = "unknown"
         <-> in_gap (Src.theta s))).
Proof.
  split.
  - intros s Hs. unfold JsDirection.getCurrentDirection, in_gap.
    pose proof PI_RGT_0. rewrite rem_small by lra.
    decide_cmp; simpl; split; intros; try discriminate; try lra;
      try reflexivity.
  - intros s Hs. unfold SrcDirection.getCurrentDirection, in_gap.
    pose proof PI_RGT_0. rewrite rem_small by lra.
    decide_cmp; simpl; split; intros; try discriminate; try lra;
      try reflexivity.
Qed.

Lemma X12_witness :
  JsDirection.getCurrentDirection ex_js = "unknown"
  <-> in_gap (Js.theta ex_js).
Proof.
  apply (proj1 X12_direction_has_gaps ex_js).
  simpl. pose proof PI_RGT_0. lra.
Defined.

(** *** Zoom *)

Ltac crush_ops :=
  repeat match goal with
         | |- context [if ?b then _ else _] => destruct b
         | |- context [match ?v with _ => _ end] => destruct v
         end; simpl.

Ltac fov_band :=
  unfold fov_in_band, Src.minFov, Src.maxFov in *; simpl;
  unfold Rmax, Rmin; repeat destruct (Rle_dec _ _); lra.

Lemma Src_step_targetFov (o : Src.Op) (s : Src.t) :
  fov_in_band (Src.targetFov s) ->
  fov_in_band (Src.targetFov (Src.step o s)).
Proof.
  intros H.
  destruct o; simpl;
    unfold Src.onMouseWheel, Src.onMouseDown, Src.onMouseMove,
      Src.onMouseUp, Src.onTouchStart, Src.onTouchStart_gesture,
      Src.onTouchMove, Src.onTouchEnd,
      Src.onKeyDown, Src.enableGyroscope, Src.toggleGyroscope,
      Src.handleOrientation, Src.update, Src.lookAtFront, Src.lookAtLeft,
      Src.lookAtRight, Src.lookAtBack, Src.lookAt, Src.lookAtSkillPopup;
    crush_ops; try exact H; fov_band.
Qed.

Lemma Src_step_fov (o : Src.Op) (s : Src.t) :
  fov_in_band (Src.targetFov s) ->
  fov_in_band (THREE.fov (Src.camera s)) ->
  fov_in_band (THREE.fov (Src.camera (Src.step o s))).
Proof.
  intros Ht H.
  destruct o; simpl;
    unfold Src.onMouseWheel, Src.onMouseDown, Src.onMouseMove,
      Src.onMouseUp, Src.onTouchStart, Src.onTouchStart_gesture,
      Src.onTouchMove, Src.onTouchEnd,
      Src.onKeyDown, Src.enableGyroscope, Src.toggleGyroscope,
      Src.handleOrientation, Src.update, Src.lookAtFront, Src.lookAtLeft,
      Src.lookAtRight, Src.lookAtBack, Src.lookAt, Src.lookAtSkillPopup;
    crush_ops; try exact H;
    unfold fov_in_band, Src.dampingFactor in *; lra.
Qed.

Lemma Src_run_fov (ops : list Src.Op) : forall s : Src.t,
  fov_in_band (Src.targetFov s) ->
  fov_in_band (THREE.fov (Src.camera s)) ->
  fov_in_band (Src.targetFov (Src.run ops s))
  /\ fov_in_band (THREE.fov (Src.camera (Src.run ops s))).
Proof.
  induction ops as [|o ops IH]; intros s Ht Hf; simpl; [auto|].
  apply IH; [apply Src_step_targetFov | apply Src_step_fov]; assumption.
Qed.

(** X13: the zoom never leaves its band.  For controls built on a camera
    whose field of view is between 30 and 90 degrees, as the scene's
    60 degree camera is, [targetFov] and the camera's [fov] are between 30
    and 90 after every sequence of operations. *)
Theorem X13_zoom_stays_in_band
    (camera : THREE.PerspectiveCamera) (ops : list Src.Op) :
  fov_in_band (THREE.fov camera) ->
  fov_in_band (Src.targetFov (Src.run ops (Src.constructor camera)))
  /\ fov_in_band
       (THREE.fov (Src.camera (Src.run ops (Src.constructor camera)))).
Proof.
  intros H. apply Src_run_fov; [|exact H].
  unfold fov_in_band. simpl. lra.
Qed.

Lemma X13_witness :
  fov_in_band
    (THREE.fov
       (Src.camera
          (Src.run [Src.SetEnabled true;
                    Src.MouseWheel (WheelEvent.mk 5000); Src.Frame]
             (Src.constructor ex_camera)))).
Proof.
  refine (proj2 (X13_zoom_stays_in_band ex_camera _ _)).
  unfold fov_in_band, ex_camera. simpl. lra.
Defined.

Lemma Src_update_fov s :
  Src.enabled s = true ->
  Src.targetFov (Src.update s) = Src.targetFov s
  /\ Src.enabled (Src.update s) = true
  /\ (Rabs (THREE.fov (Src.camera s) - Src.targetFov s) <= 0.1 ->
      THREE.fov (Src.camera (Src.update s)) = THREE.fov (Src.camera s))
  /\ (Rabs (THREE.fov (Src.camera s) - Src.targetFov s) > 0.1 ->
      THREE.fov (Src.camera (Src.update s))
      = THREE.fov (Src.camera s)
        + (Src.targetFov s - THREE.fov (Src.camera s)) * 0.08).
Proof.
  intros He. unfold Src.update. rewrite He. simpl.
  destruct (Rgt_dec _ _) as [Hg|Hg]; simpl;
    repeat split; try exact He; intros; try reflexivity; lra.
Qed.

(** X14: the zoom has a dead band of 0.1 degree.  A frame on enabled
    controls moves the camera's [fov] by 0.08 of its distance to
    [targetFov] when that distance exceeds 0.1, and not at all otherwise;
    so once the [fov] is within 0.1 of [targetFov] no number of frames
    brings it any closer. *)
Theorem X14_zoom_dead_band (s : Src.t) (n : nat) :
  Src.enabled s = true ->
  (Rabs (THREE.fov (Src.camera s) - Src.targetFov s) > 0.1 ->
   THREE.fov (Src.camera (Src.update s))
   = THREE.fov (Src.camera s)
     + (Src.targetFov s - THREE.fov (Src.camera s)) * 0.08)
  /\ (Rabs (THREE.fov (Src.camera s) - Src.targetFov s) <= 0.1 ->
      THREE.fov (Src.camera (Src_frames n s)) = THREE.fov (Src.camera s)).
Proof.
  intros He. split.
  - apply Src_update_fov, He.
  - revert s He. induction n as [|n IH]; intros s He Hd; [reflexivity|].
    rewrite Src_frames_S.
    destruct (Src_update_fov s He) as (Ht & He' & Hsame & _).
    specialize (Hsame Hd).
    rewrite IH; [exact Hsame | exact He' |].
    rewrite Hsame, Ht. exact Hd.
Qed.

Lemma X14_witness :
  THREE.fov (Src.camera (Src_frames 5 ex_src)) = THREE.fov (Src.camera ex_src).
Proof.
  refine (proj2 (X14_zoom_dead_band ex_src 5 eq_refl) _).
  simpl. replace (60 - 60) with 0 by lra. rewrite Rabs_R0. lra.
Defined.

(** *** Clicks and taps *)

Ltac crush_ops_eq :=
  repeat match goal with
         | |- context [if ?b then _ else _] => destruct b eqn:?
         | |- context [match ?v with _ => _ end] => destruct v eqn:?
         end; simpl.

Lemma Src_step_armed (o : Src.Op) (s : Src.t) :
  armed_has_origin s -> armed_has_origin (Src.step o s).
Proof.
  intros [Hc Ht].
  destruct o; simpl;
    unfold Src.onMouseWheel, Src.onMouseDown, Src.onMouseMove,
      Src.onMouseUp, Src.onTouchStart, Src.onTouchStart_gesture,
      Src.onTouchMove, Src.onTouchEnd,
      Src.onKeyDown, Src.enableGyroscope, Src.toggleGyroscope,
      Src.handleOrientation, Src.update, Src.lookAtFront, Src.lookAtLeft,
      Src.lookAtRight, Src.lookAtBack, Src.lookAt, Src.lookAtSkillPopup;
    unfold armed_has_origin in *;
    crush_ops_eq; split; intros; simpl in *; try congruence; auto;
    try (exfalso; apply Hc; [discriminate | reflexivity]);
    try (exfalso; apply Ht; [discriminate | reflexivity]).
Qed.

Lemma Src_run_armed (ops : list Src.Op) : forall s : Src.t,
  armed_has_origin s -> armed_has_origin (Src.run ops s).
Proof.
  induction ops as [|o ops IH]; intros s H; simpl; [exact H|].
  apply IH, Src_step_armed, H.
Qed.

(** X15: the handlers that read [mouseDownPos] and [touchStartPos] never
    find them undefined.  After every sequence of operations on new
    controls, [onMouseUp] and [onTouchEnd] run to the end, whatever the
    event. *)
Theorem X15_release_handlers_never_raise
    (camera : THREE.PerspectiveCamera) (ops : list Src.Op)
    (env : Src.Env) (mouse : option MouseEvent.t)
    (touch : option TouchEvent.t) :
  let s := Src.run ops (Src.constructor camera) in
  Src.onMouseUp env mouse s <> None
  /\ Src.onTouchEnd env touch s <> None.
Proof.
  intros s.
  assert (H : armed_has_origin s).
  { apply Src_run_armed. split; simpl; congruence. }
  destruct H as [Hc Ht]. split.
  - unfold Src.onMouseUp.
    destruct (Src.pendingClick s) as [el|]; [|discriminate].
    destruct mouse as [e|]; [|discriminate].
    destruct (Src.mouseDownPos s) as [p|]; [discriminate|].
    exfalso. apply Hc; [discriminate | reflexivity].
  - unfold Src.onTouchEnd.
    destruct (Src.pendingTap s) as [el|]; [|discriminate].
    destruct touch as [e|]; [|discriminate].
    destruct (TouchEvent.changedTouches e) as [|t0 ts]; [discriminate|].
    destruct (Src.touchStartPos s) as [p|]; [discriminate|].
    exfalso. apply Ht; [discriminate | reflexivity].
Qed.
(** X16: an armed click is dispatched only on a quick, still release.
    When enabled controls get a mousedown over an interactive element,
    no drag starts and the element is remembered; the mouseup that follows
    forgets it and ends any drag, and it calls [click()] on the element,
    once, exactly when the pointer moved less than 10 pixels and less
    than 300 ms went by. *)
Theorem X16_click_needs_quick_still_release
    (s : Src.t) (env env' : Src.Env) (down up : MouseEvent.t)
    (el : Element) :
  Src.enabled s = true ->
  Src.findInteractiveElementAtPoint env (MouseEvent.clientX down)
    (MouseEvent.clientY down) = Some el ->
  let s1 := Src.onMouseDown env down s in
  let dx := MouseEvent.clientX up - MouseEvent.clientX down in
  let dy := MouseEvent.clientY up - MouseEvent.clientY down in
  let quick := sqrt (dx * dx + dy * dy) < 10
               /\ Src.now env' - Src.now env < 300 in
  Src.pendingClick s1 = Some el
  /\ Src.isDragging s1 = Src.isDragging s
  /\ exists s2 : Src.t,
       Src.onMouseUp env' (Some up) s1 = Some s2
       /\ Src.pendingClick s2 = None
       /\ Src.isDragging s2 = false
       /\ (quick -> Src.clicked s2 = Src.clicked s ++ [el])
       /\ (~ quick -> Src.clicked s2 = Src.clicked s).
Proof.
  intros He Hf s1 dx dy quick. subst s1 quick dx dy.
  unfold Src.onMouseDown. rewrite He, Hf. simpl.
  split; [reflexivity|]. split; [reflexivity|].
  unfold Src.onMouseUp. simpl.
  destruct (Rlt_dec _ 10) as [H1|H1];
    [destruct (Rlt_dec _ 300) as [H2|H2]|];
    eexists; (split; [reflexivity|]); simpl;
    (split; [reflexivity|]); (split; [reflexivity|]);
    split; intros; try reflexivity; tauto.
Qed.

Lemma X16_witness :
  Src.pendingClick
    (Src.onMouseDown (Src.mkEnv (fun _ _ => Some 7%nat) (fun _ => true) 0)
       ex_down ex_src)
  = Some 7%nat.
Proof.
  exact (proj1 (X16_click_needs_quick_still_release ex_src
                  (Src.mkEnv (fun _ _ => Some 7%nat) (fun _ => true) 0)
                  ex_env ex_down ex_move 7%nat eq_refl eq_refl)).
Defined.

(** *** Touch *)

(** X17: one finger drags unless the gyroscope is on; two fingers zoom.
    In both copies a one-finger touchmove on enabled controls changes
    nothing while [gyroEnabled] is set, and otherwise lowers
    [targetTheta] by 1.5 * 0.003 * deltaX and brings [targetPhi], lowered
    by 1.5 * 0.003 * deltaY, back into [[PI/6, 5*PI/6]].  In [src/js/] a
    two-finger touchmove during a pinch leaves both targets alone and
    moves [targetFov], kept in [[30, 90]], by 0.05 per pixel the fingers
    came closer. *)
Theorem X17_touch_drag_and_pinch :
  (forall (s : Js.t) (e : TouchEvent.t) (t : Touch.t),
      Js.enabled s = true -> TouchEvent.touches e = [t] ->
      (Js.gyroEnabled s = true -> Js.onTouchMove e s = s)
      /\ (Js.gyroEnabled s = false ->
          Js.targetTheta (Js.onTouchMove e s)
          = Js.targetTheta s
            - (Touch.clientX t - x (Js.previousTouch s)) * 0.003 * 1.5
          /\ clamped_to_band
               (Js.targetPhi s
                - (Touch.clientY t - y (Js.previousTouch s)) * 0.003 * 1.5)
               (Js.targetPhi (Js.onTouchMove e s))))
  /\ (forall (s : Src.t) (e : TouchEvent.t) (t : Touch.t),
        Src.enabled s = true -> TouchEvent.touches e = [t] ->
        (Src.gyroEnabled s = true -> Src.onTouchMove e s = s)
        /\ (Src.gyroEnabled s = false ->
            Src.targetTheta (Src.onTouchMove e s)
            = Src.targetTheta s
              - (Touch.clientX t - x (Src.previousTouch s)) * 0.003 * 1.5
            /\ clamped_to_band
                 (Src.targetPhi s
                  - (Touch.clientY t - y (Src.previousTouch s))
                    * 0.003 * 1.5)
                 (Src.targetPhi (Src.onTouchMove e s))))
  /\ (forall (s : Src.t) (e : TouchEvent.t) (t0 t1 : Touch.t),
        Src.enabled s = true -> Src.isPinching s = true ->
        TouchEvent.touches e = [t0; t1] ->
        let s' := Src.onTouchMove e s in
        Src.targetTheta s' = Src.targetTheta s
        /\ Src.targetPhi s' = Src.targetPhi s
        /\ Src.previousPinchDistance s' = Src.getPinchDistance t0 t1
        /\ Src.targetFov s'
           = Rmax 30
               (Rmin 90
                  (Src.targetFov s
                   - (Src.getPinchDistance t0 t1
                      - Src.previousPinchDistance s) * 0.05))
        /\ fov_in_band (Src.targetFov s')).
Proof.
  split; [|split].
  - intros s e t He Ht. unfold Js.onTouchMove. rewrite He, Ht. split.
    + intros Hg. rewrite Hg. reflexivity.
    + intros Hg. rewrite Hg. simpl. split; [reflexivity|].
      apply CameraFacts.clamped_to_band_clamp.
  - intros s e t He Ht. unfold Src.onTouchMove. rewrite He, Ht. split.
    + intros Hg. rewrite Hg. simpl. destruct (Src.isPinching s); reflexivity.
    + intros Hg. rewrite Hg. simpl.
      destruct (Src.isPinching s); simpl;
        (split; [reflexivity | apply CameraFacts.clamped_to_band_clamp]).
  - intros s e t0 t1 He Hp Ht s'. subst s'.
    unfold Src.onTouchMove. rewrite He, Hp, Ht. simpl.
    split; [reflexivity|]. split; [reflexivity|]. split; [reflexivity|].
    unfold Src.minFov, Src.maxFov, Src.zoomSpeed.
    replace ((Src.getPinchDistance t0 t1 - Src.previousPinchDistance s)
             * 0.5 * 0.1)
      with ((Src.getPinchDistance t0 t1 - Src.previousPinchDistance s)
            * 0.05) by lra.
    split; [reflexivity|].
    unfold fov_in_band, Rmax, Rmin. repeat destruct (Rle_dec _ _); lra.
Qed.

Lemma X17_witness :
  Js.targetTheta
    (Js.onTouchMove (TouchEvent.mk [Touch.mk 100 0] [] 0%nat) ex_js)
  = Js.targetTheta ex_js
    - (100 - x (Js.previousTouch ex_js)) * 0.003 * 1.5.
Proof.
  exact (proj1 (proj2 (proj1 X17_touch_drag_and_pinch ex_js
                         (TouchEvent.mk [Touch.mk 100 0] [] 0%nat)
                         (Touch.mk 100 0) eq_refl eq_refl) eq_refl)).
Defined.

(** *** Keys *)

Lemma other_key (k : string) :
  ~ In k turning_keys ->
  String.eqb k "ArrowLeft" = false /\ String.eqb k "a" = false
  /\ String.eqb k "ArrowRight" = false /\ String.eqb k "d" = false
  /\ String.eqb k "ArrowUp" = false /\ String.eqb k "w" = false
  /\ String.eqb k "ArrowDown" = false /\ String.eqb k "s" = false.
Proof.
  intros Hk. unfold turning_keys in Hk. simpl in Hk.
  repeat split; apply String.eqb_neq; intros ->; apply Hk; tauto.
Qed.

(** X18: the keys nudge the targets by 0.1 and stop at the edges of the
    pitch band.  In both copies, on enabled controls, ArrowLeft sets
    [targetTheta] to [targetTheta + 0.1] and ArrowRight to [targetTheta -
    0.1], touching nothing else; ArrowUp sets [targetPhi] to the larger of
    PI/6 and [targetPhi - 0.1], hence to PI/6 itself once [targetPhi - 0.1]
    is not above it, and ArrowDown to the smaller of 5*PI/6 and [targetPhi
    + 0.1], hence to 5*PI/6 itself once [targetPhi + 0.1] is not below it;
    so from [targetPhi = PI/6] ArrowUp is lost and ArrowUp then ArrowDown
    ends at PI/6 + 0.1; the keys a, d, w, s act as the arrows, and any
    other key leaves the rig as it is. *)
Theorem X18_keys_nudge_the_targets :
  (forall s : Js.t,
      Js.enabled s = true ->
      Js.onKeyDown (key "ArrowLeft") s
      = Js.set_targetTheta (Js.targetTheta s + 0.1) s
      /\ Js.onKeyDown (key "ArrowRight") s
         = Js.set_targetTheta (Js.targetTheta s - 0.1) s
      /\ Js.onKeyDown (key "ArrowUp") s
         = Js.set_targetPhi (Rmax (PI / 6) (Js.targetPhi s - 0.1)) s
      /\ Js.onKeyDown (key "ArrowDown") s
         = Js.set_targetPhi (Rmin (PI * 5 / 6) (Js.targetPhi s + 0.1)) s
      /\ (Js.targetPhi s - 0.1 <= PI / 6 ->
          Js.targetPhi (Js.onKeyDown (key "ArrowUp") s) = PI / 6)
      /\ (PI * 5 / 6 <= Js.targetPhi s + 0.1 ->
          Js.targetPhi (Js.onKeyDown (key "ArrowDown") s) = PI * 5 / 6)
      /\ (Js.targetPhi s = PI / 6 ->
          Js.targetPhi
            (Js.onKeyDown (key "ArrowDown") (Js.onKeyDown (key "ArrowUp") s))
          = PI / 6 + 0.1)
      /\ Js.onKeyDown (key "a") s = Js.onKeyDown (key "ArrowLeft") s
      /\ Js.onKeyDown (key "d") s = Js.onKeyDown (key "ArrowRight") s
      /\ Js.onKeyDown (key "w") s = Js.onKeyDown (key "ArrowUp") s
      /\ Js.onKeyDown (key "s") s = Js.onKeyDown (key "ArrowDown") s
      /\ (forall k : string,
            ~ In k turning_keys -> Js.onKeyDown (key k) s = s))
  /\ (forall s : Src.t,
        Src.enabled s = true ->
        Src.onKeyDown (key "ArrowLeft") s
        = Src.set_targetTheta (Src.targetTheta s + 0.1) s
        /\ Src.onKeyDown (key "ArrowRight") s
           = Src.set_targetTheta (Src.targetTheta s - 0.1) s
        /\ Src.onKeyDown (key "ArrowUp") s
           = Src.set_targetPhi (Rmax (PI / 6) (Src.targetPhi s - 0.1)) s
        /\ Src.onKeyDown (key "ArrowDown") s
           = Src.set_targetPhi (Rmin (PI * 5 / 6) (Src.targetPhi s + 0.1)) s
        /\ (Src.targetPhi s - 0.1 <= PI / 6 ->
            Src.targetPhi (Src.onKeyDown (key "ArrowUp") s) = PI / 6)
        /\ (PI * 5 / 6 <= Src.targetPhi s + 0.1 ->
            Src.targetPhi (Src.onKeyDown (key "ArrowDown") s) = PI * 5 / 6)
        /\ (Src.targetPhi s = PI / 6 ->
            Src.targetPhi
              (Src.onKeyDown (key "ArrowDown")
                 (Src.onKeyDown (key "ArrowUp") s))
            = PI / 6 + 0.1)
        /\ Src.onKeyDown (key "a") s = Src.onKeyDown (key "ArrowLeft") s
        /\ Src.onKeyDown (key "d") s = Src.onKeyDown (key "ArrowRight") s
        /\ Src.onKeyDown (key "w") s = Src.onKeyDown (key "ArrowUp") s
        /\ Src.onKeyDown (key "s") s = Src.onKeyDown (key "ArrowDown") s
        /\ (forall k : string,
              ~ In k turning_keys -> Src.onKeyDown (key k) s = s)).
Proof.
  pose proof PI_RGT_0 as HPI. pose proof PI2_3_2 as HPI3.
  split; intros s He.
  - split; [unfold Js.onKeyDown, key; simpl; rewrite He; reflexivity|].
    split; [unfold Js.onKeyDown, key; simpl; rewrite He; reflexivity|].
    split; [unfold Js.onKeyDown, key; simpl; rewrite He; reflexivity|].
    split; [unfold Js.onKeyDown, key; simpl; rewrite He; reflexivity|].
    split.
    { intros Hb. unfold Js.onKeyDown, key. simpl. rewrite He. simpl.
      unfold Js.minPhi, Rmax. destruct (Rle_dec _ _); lra. }
    split.
    { intros Hb. unfold Js.onKeyDown, key. simpl. rewrite He. simpl.
      unfold Js.maxPhi, Rmin. destruct (Rle_dec _ _); lra. }
    split.
    { intros Hb. unfold Js.onKeyDown, key. simpl. rewrite He. simpl.
      rewrite He. simpl. rewrite Hb.
      unfold Js.minPhi, Js.maxPhi, Rmax, Rmin.
      repeat destruct (Rle_dec _ _); lra. }
    split; [unfold Js.onKeyDown, key; simpl; rewrite He; reflexivity|].
    split; [unfold Js.onKeyDown, key; simpl; rewrite He; reflexivity|].
    split; [unfold Js.onKeyDown, key; simpl; rewrite He; reflexivity|].
    split; [unfold Js.onKeyDown, key; simpl; rewrite He; reflexivity|].
    intros k Hk.
    destruct (other_key k Hk) as (K1 & K2 & K3 & K4 & K5 & K6 & K7 & K8).
    unfold Js.onKeyDown, key.
    cbn [KeyboardEvent.key]. rewrite He, K1, K2, K3, K4, K5, K6, K7, K8.
    reflexivity.
  - split; [unfold Src.onKeyDown, key; simpl; rewrite He; reflexivity|].
    split; [unfold Src.onKeyDown, key; simpl; rewrite He; reflexivity|].
    split; [unfold Src.onKeyDown, key; simpl; rewrite He; reflexivity|].
    split; [unfold Src.onKeyDown, key; simpl; rewrite He; reflexivity|].
    split.
    { intros Hb. unfold Src.onKeyDown, key. simpl. rewrite He. simpl.
      unfold Src.minPhi, Rmax. destruct (Rle_dec _ _); lra. }
    split.
    { intros Hb. unfold Src.onKeyDown, key. simpl. rewrite He. simpl.
      unfold Src.maxPhi, Rmin. destruct (Rle_dec _ _); lra. }
    split.
    { intros Hb. unfold Src.onKeyDown, key. simpl. rewrite He. simpl.
      rewrite He. simpl. rewrite Hb.
      unfold Src.minPhi, Src.maxPhi, Rmax, Rmin.
      repeat destruct (Rle_dec _ _); lra. }
    split; [unfold Src.onKeyDown, key; simpl; rewrite He; reflexivity|].
    split; [unfold Src.onKeyDown, key; simpl; rewrite He; reflexivity|].
    split; [unfold Src.onKeyDown, key; simpl; rewrite He; reflexivity|].
    split; [unfold Src.onKeyDown, key; simpl; rewrite He; reflexivity|].
    intros k Hk.
    destruct (other_key k Hk) as (K1 & K2 & K3 & K4 & K5 & K6 & K7 & K8).
    unfold Src.onKeyDown, key.
    cbn [KeyboardEvent.key]. rewrite He, K1, K2, K3, K4, K5, K6, K7, K8.
    reflexivity.
Qed.

Lemma X18_witness :
  Js.onKeyDown (key "ArrowLeft") ex_js
  = Js.set_targetTheta (Js.targetTheta ex_js + 0.1) ex_js.
Proof.
  exact (proj1 (proj1 X18_keys_nudge_the_targets ex_js eq_refl)).
Defined.

(** *** The gyroscope *)

Lemma readings_cons e evs :
  readings (e :: evs)
  = match reading e with
    | Some r => r :: readings evs
    | None => readings evs
    end.
Proof. reflexivity. Qed.

Lemma Js_deliver_cons e evs s :
  Js_deliver (e :: evs) s = Js_deliver evs (Js.handleOrientation e s).
Proof. reflexivity. Qed.

Lemma Js_no_reading_step e s :
  reading e = None -> Js.handleOrientation e s = s.
Proof.
  unfold reading, Js.handleOrientation. intros H.
  destruct (negb (Js.enabled s) || negb (Js.gyroEnabled s));
    [reflexivity|].
  destruct (DeviceOrientationEvent.alpha e); [|reflexivity].
  destruct (DeviceOrientationEvent.beta e); [discriminate | reflexivity].
Qed.

Lemma Js_reading_step e s al be :
  Js.enabled s = true -> Js.gyroEnabled s = true ->
  reading e = Some (al, be) ->
  let s' := Js.handleOrientation e s in
  let alphaOffset :=
    if Js.gyroCalibrated s then Js.gyroAlphaOffset s else al in
  Js.enabled s' = true /\ Js.gyroEnabled s' = true
  /\ Js.gyroCalibrated s' = true
  /\ Js.gyroAlphaOffset s' = alphaOffset
  /\ Js.gyroBetaOffset s'
     = (if Js.gyroCalibrated s then Js.gyroBetaOffset s else be)
  /\ Js.targetTheta s' = - THREE.degToRad (al - alphaOffset)
  /\ Js.targetPhi s'
     = Rmax (PI / 6)
         (Rmin (PI * 5 / 6) (PI / 2 + THREE.degToRad (be - 50) * 0.5)).
Proof.
  intros He Hg Hr. unfold reading in Hr. unfold Js.handleOrientation.
  rewrite He, Hg. simpl.
  destruct (DeviceOrientationEvent.alpha e) as [al'|]; [|discriminate].
  destruct (DeviceOrientationEvent.beta e) as [be'|]; [|discriminate].
  injection Hr as -> ->.
  destruct (Js.gyroCalibrated s) eqn:Hc; simpl; repeat split;
    assumption.
Qed.

Lemma Js_deliver_calibrated evs : forall s,
  Js.enabled s = true -> Js.gyroEnabled s = true ->
  Js.gyroCalibrated s = true ->
  let s' := Js_deliver evs s in
  Js.gyroCalibrated s' = true
  /\ Js.gyroAlphaOffset s' = Js.gyroAlphaOffset s
  /\ Js.gyroBetaOffset s' = Js.gyroBetaOffset s
  /\ (readings evs = [] -> s' = s)
  /\ (forall aL bL, last (readings evs) = Some (aL, bL) ->
      Js.targetTheta s'
      = - THREE.degToRad (aL - Js.gyroAlphaOffset s)
      /\ Js.targetPhi s'
         = Rmax (PI / 6)
             (Rmin (PI * 5 / 6)
                (PI / 2 + THREE.degToRad (bL - 50) * 0.5))).
Proof.
  induction evs as [|e evs IH]; intros s He Hg Hc.
  - simpl. split; [assumption|]. do 3 (split; [reflexivity|]).
    intros aL bL H. discriminate H.
  - rewrite Js_deliver_cons. rewrite readings_cons.
    destruct (reading e) as [[al be]|] eqn:Hr.
    + destruct (Js_reading_step e s al be He Hg Hr)
        as (He1 & Hg1 & Hc1 & Ha1 & Hb1 & Ht1 & Hp1).
      rewrite Hc in Ha1, Hb1, Ht1.
      destruct (IH _ He1 Hg1 Hc1) as (Hc2 & Ha2 & Hb2 & Hnil & Hlast).
      simpl. rewrite Ha2, Hb2, Ha1, Hb1.
      split; [exact Hc2|]. split; [reflexivity|]. split; [reflexivity|].
      split; [intros H; discriminate H|].
      intros aL bL.
      destruct (readings evs) as [|r rs] eqn:Hrs.
      * intros H. simplify_eq/=.
        rewrite (Hnil eq_refl). split; assumption.
      * intros H. rewrite <- Ha1. apply Hlast. exact H.
    + rewrite (Js_no_reading_step e s Hr). apply IH; assumption.
Qed.

Lemma Js_deliver_uncalibrated evs : forall s a0 b0 rest aL bL,
  Js.enabled s = true -> Js.gyroEnabled s = true ->
  Js.gyroCalibrated s = false ->
  readings evs = (a0, b0) :: rest ->
  last ((a0, b0) :: rest) = Some (aL, bL) ->
  let s' := Js_deliver evs s in
  Js.gyroCalibrated s' = true
  /\ Js.gyroAlphaOffset s' = a0
  /\ Js.gyroBetaOffset s' = b0
  /\ Js.targetTheta s' = - THREE.degToRad (aL - a0)
  /\ Js.targetPhi s'
     = Rmax (PI / 6)
         (Rmin (PI * 5 / 6) (PI / 2 + THREE.degToRad (bL - 50) * 0.5)).
Proof.
  induction evs as [|e evs IH]; intros s a0 b0 rest aL bL He Hg Hc Hr Hl.
  - discriminate Hr.
  - rewrite Js_deliver_cons. rewrite readings_cons in Hr.
    destruct (reading e) as [[al be]|] eqn:Hre.
    + injection Hr as -> -> Hrest.
      destruct (Js_reading_step e s a0 b0 He Hg Hre)
        as (He1 & Hg1 & Hc1 & Ha1 & Hb1 & Ht1 & Hp1).
      rewrite Hc in Ha1, Hb1, Ht1.
      destruct (Js_deliver_calibrated evs _ He1 Hg1 Hc1)
        as (Hc2 & Ha2 & Hb2 & Hnil & Hlast).
      simpl. rewrite Ha2, Hb2, Ha1, Hb1.
      split; [exact Hc2|]. split; [reflexivity|]. split; [reflexivity|].
      rewrite <- Hrest in Hl.
      destruct (readings evs) as [|r rs] eqn:Hrs.
      * simplify_eq/=.
        rewrite (Hnil eq_refl). split; assumption.
      * rewrite <- Ha1. apply Hlast. exact Hl.
    + rewrite (Js_no_reading_step e s Hre).
      apply (IH s a0 b0 rest); assumption.
Qed.

Lemma Src_deliver_cons e evs s :
  Src_deliver (e :: evs) s = Src_deliver evs (Src.handleOrientation e s).
Proof. reflexivity. Qed.

Lemma Src_no_reading_step e s :
  reading e = None -> Src.handleOrientation e s = s.
Proof.
  unfold reading, Src.handleOrientation. intros H.
  destruct (negb (Src.enabled s) || negb (Src.gyroEnabled s));
    [reflexivity|].
  destruct (DeviceOrientationEvent.alpha e); [|reflexivity].
  destruct (DeviceOrientationEvent.beta e); [discriminate | reflexivity].
Qed.

Lemma Src_reading_step e s al be :
  Src.enabled s = true -> Src.gyroEnabled s = true ->
  reading e = Some (al, be) ->
  let s' := Src.handleOrientation e s in
  let alphaOffset :=
    if Src.gyroCalibrated s then Src.gyroAlphaOffset s else al in
  Src.enabled s' = true /\ Src.gyroEnabled s' = true
  /\ Src.gyroCalibrated s' = true
  /\ Src.gyroAlphaOffset s' = alphaOffset
  /\ Src.gyroBetaOffset s'
     = (if Src.gyroCalibrated s then Src.gyroBetaOffset s else be)
  /\ Src.targetTheta s' = THREE.degToRad (al - alphaOffset)
  /\ Src.targetPhi s'
     = Rmax (PI / 6)
         (Rmin (PI * 5 / 6) (PI / 2 - THREE.degToRad (be - 50) * 0.5)).
Proof.
  intros He Hg Hr. unfold reading in Hr. unfold Src.handleOrientation.
  rewrite He, Hg. simpl.
  destruct (DeviceOrientationEvent.alpha e) as [al'|]; [|discriminate].
  destruct (DeviceOrientationEvent.beta e) as [be'|]; [|discriminate].
  injection Hr as -> ->.
  destruct (Src.gyroCalibrated s) eqn:Hc; simpl; repeat split;
    assumption.
Qed.

Lemma Src_deliver_calibrated evs : forall s,
  Src.enabled s = true -> Src.gyroEnabled s = true ->
  Src.gyroCalibrated s = true ->
  let s' := Src_deliver evs s in
  Src.gyroCalibrated s' = true
  /\ Src.gyroAlphaOffset s' = Src.gyroAlphaOffset s
  /\ Src.gyroBetaOffset s' = Src.gyroBetaOffset s
  /\ (readings evs = [] -> s' = s)
  /\ (forall aL bL, last (readings evs) = Some (aL, bL) ->
      Src.targetTheta s'
      = THREE.degToRad (aL - Src.gyroAlphaOffset s)
      /\ Src.targetPhi s'
         = Rmax (PI / 6)
             (Rmin (PI * 5 / 6)
                (PI / 2 - THREE.degToRad (bL - 50) * 0.5))).
Proof.
  induction evs as [|e evs IH]; intros s He Hg Hc.
  - simpl. split; [assumption|]. do 3 (split; [reflexivity|]).
    intros aL bL H. discriminate H.
  - rewrite Src_deliver_cons. rewrite readings_cons.
    destruct (reading e) as [[al be]|] eqn:Hr.
    + destruct (Src_reading_step e s al be He Hg Hr)
        as (He1 & Hg1 & Hc1 & Ha1 & Hb1 & Ht1 & Hp1).
      rewrite Hc in Ha1, Hb1, Ht1.
      destruct (IH _ He1 Hg1 Hc1) as (Hc2 & Ha2 & Hb2 & Hnil & Hlast).
      simpl. rewrite Ha2, Hb2, Ha1, Hb1.
      split; [exact Hc2|]. split; [reflexivity|]. split; [reflexivity|].
      split; [intros H; discriminate H|].
      intros aL bL.
      destruct (readings evs) as [|r rs] eqn:Hrs.
      * intros H. simplify_eq/=.
        rewrite (Hnil eq_refl). split; assumption.
      * intros H. rewrite <- Ha1. apply Hlast. exact H.
    + rewrite (Src_no_reading_step e s Hr). apply IH; assumption.
Qed.

Lemma Src_deliver_uncalibrated evs : forall s a0 b0 rest aL bL,
  Src.enabled s = true -> Src.gyroEnabled s = true ->
  Src.gyroCalibrated s = false ->
  readings evs = (a0, b0) :: rest ->
  last ((a0, b0) :: rest) = Some (aL, bL) ->
  let s' := Src_deliver evs s in
  Src.gyroCalibrated s' = true
  /\ Src.gyroAlphaOffset s' = a0
  /\ Src.gyroBetaOffset s' = b0
  /\ Src.targetTheta s' = THREE.degToRad (aL - a0)
  /\ Src.targetPhi s'
     = Rmax (PI / 6)
         (Rmin (PI * 5 / 6) (PI / 2 - THREE.degToRad (bL - 50) * 0.5)).
Proof.
  induction evs as [|e evs IH]; intros s a0 b0 rest aL bL He Hg Hc Hr Hl.
  - discriminate Hr.
  - rewrite Src_deliver_cons. rewrite readings_cons in Hr.
    destruct (reading e) as [[al be]|] eqn:Hre.
    + injection Hr as -> -> Hrest.
      destruct (Src_reading_step e s a0 b0 He Hg Hre)
        as (He1 & Hg1 & Hc1 & Ha1 & Hb1 & Ht1 & Hp1).
      rewrite Hc in Ha1, Hb1, Ht1.
      destruct (Src_deliver_calibrated evs _ He1 Hg1 Hc1)
        as (Hc2 & Ha2 & Hb2 & Hnil & Hlast).
      simpl. rewrite Ha2, Hb2, Ha1, Hb1.
      split; [exact Hc2|]. split; [reflexivity|]. split; [reflexivity|].
      rewrite <- Hrest in Hl.
      destruct (readings evs) as [|r rs] eqn:Hrs.
      * simplify_eq/=.
        rewrite (Hnil eq_refl). split; assumption.
      * rewrite <- Ha1. apply Hlast. exact Hl.
    + rewrite (Src_no_reading_step e s Hre).
      apply (IH s a0 b0 rest); assumption.
Qed.

(** X19: the gyroscope is calibrated once, on the first complete
    reading, and only for the compass.  In both copies, when enabled,
    gyro-enabled, not yet calibrated controls receive a sequence of
    orientation events whose first complete reading is [(a0, b0)] and
    whose last one is [(aL, bL)], the offsets stored are [a0] and [b0],
    [targetTheta] is the turn [aL - a0] in radians (negated in [js/]), and
    [targetPhi] is PI/2 plus (in [src/js/], minus) half of [bL - 50]
    degrees in radians, clamped to [[PI/6, 5*PI/6]]: the pitch does not
    depend on [b0], nor on any reading in between. *)
Theorem X19_gyroscope_calibrates_once :
  (forall (s : Js.t) (evs : list DeviceOrientationEvent.t)
          (a0 b0 : R) (rest : list (R * R)) (aL bL : R),
      Js.enabled s = true -> Js.gyroEnabled s = true ->
      Js.gyroCalibrated s = false ->
      readings evs = (a0, b0) :: rest ->
      last ((a0, b0) :: rest) = Some (aL, bL) ->
      let s' := Js_deliver evs s in
      Js.gyroCalibrated s' = true
      /\ Js.gyroAlphaOffset s' = a0
      /\ Js.gyroBetaOffset s' = b0
      /\ Js.targetTheta s' = - THREE.degToRad (aL - a0)
      /\ Js.targetPhi s'
         = Rmax (PI / 6)
             (Rmin (PI * 5 / 6)
                (PI / 2 + THREE.degToRad (bL - 50) * 0.5)))
  /\ (forall (s : Src.t) (evs : list DeviceOrientationEvent.t)
            (a0 b0 : R) (rest : list (R * R)) (aL bL : R),
        Src.enabled s = true -> Src.gyroEnabled s = true ->
        Src.gyroCalibrated s = false ->
        readings evs = (a0, b0) :: rest ->
        last ((a0, b0) :: rest) = Some (aL, bL) ->
        let s' := Src_deliver evs s in
        Src.gyroCalibrated s' = true
        /\ Src.gyroAlphaOffset s' = a0
        /\ Src.gyroBetaOffset s' = b0
        /\ Src.targetTheta s' = THREE.degToRad (aL - a0)
        /\ Src.targetPhi s'
           = Rmax (PI / 6)
               (Rmin (PI * 5 / 6)
                  (PI / 2 - THREE.degToRad (bL - 50) * 0.5))).
Proof.
  split.
  - intros s evs. apply Js_deliver_uncalibrated.
  - intros s evs. apply Src_deliver_uncalibrated.
Qed.

Lemma X19_witness :
  Js.gyroAlphaOffset (Js_deliver c10_events c10_js) = 0
  /\ Js.targetTheta (Js_deliver c10_events c10_js)
     = - THREE.degToRad (90 - 0).
Proof.
  destruct (proj1 X19_gyroscope_calibrates_once c10_js c10_events
              0 50 [(90, 70)] 90 70
              eq_refl eq_refl eq_refl eq_refl eq_refl)
    as (_ & H2 & _ & H4 & _).
  split; [exact H2 | exact H4].
Defined.

(** *** Drags *)

Lemma Js_run_moves_cons e moves s :
  Js.run (map Js.MouseMove (e :: moves)) s
  = Js.run (map Js.MouseMove moves) (Js.onMouseMove e s).
Proof. reflexivity. Qed.

Lemma Js_drag_follows (moves : list MouseEvent.t) : forall s : Js.t,
  Js.enabled s = true -> Js.isDragging s = true ->
  Js.previousMouse (Js.run (map Js.MouseMove moves) s)
  = pointer_after moves (Js.previousMouse s)
  /\ Js.isDragging (Js.run (map Js.MouseMove moves) s) = true
  /\ (columns Rle (x (Js.previousMouse s)) moves ->
      Js.targetTheta (Js.run (map Js.MouseMove moves) s) <= Js.targetTheta s)
  /\ (columns Rge (x (Js.previousMouse s)) moves ->
      Js.targetTheta s <= Js.targetTheta (Js.run (map Js.MouseMove moves) s))
  /\ (columns eq (x (Js.previousMouse s)) moves ->
      Js.targetTheta (Js.run (map Js.MouseMove moves) s) = Js.targetTheta s).
Proof.
  induction moves as [|e moves IH]; intros s He Hd.
  - simpl. split; [reflexivity|]. split; [exact Hd|].
    split; [intros _; lra|]. split; [intros _; lra | reflexivity].
  - rewrite !Js_run_moves_cons.
    assert (H1 : Js.enabled (Js.onMouseMove e s) = true
                 /\ Js.isDragging (Js.onMouseMove e s) = true
                 /\ Js.previousMouse (Js.onMouseMove e s)
                    = mkPoint (MouseEvent.clientX e) (MouseEvent.clientY e)
                 /\ Js.targetTheta (Js.onMouseMove e s)
                    = Js.targetTheta s
                      - (MouseEvent.clientX e - x (Js.previousMouse s))
                        * 0.003).
    { unfold Js.onMouseMove. rewrite He, Hd. simpl. repeat split;
        assumption. }
    destruct H1 as (He1 & Hd1 & Hp1 & Ht1).
    destruct (IH _ He1 Hd1) as (Hp & Hdr & Hle & Hge & Heq).
    rewrite Hp1 in Hp, Hle, Hge, Heq. simpl in Hle, Hge, Heq.
    split; [rewrite Hp; reflexivity|]. split; [exact Hdr|].
    split; [|split].
    + intros [C1 C2]. specialize (Hle C2). rewrite Ht1 in Hle. lra.
    + intros [C1 C2]. specialize (Hge C2). rewrite Ht1 in Hge. lra.
    + intros [C1 C2]. specialize (Heq C2). rewrite Ht1 in Heq. lra.
Qed.

Lemma Js_moves_idle (moves : list MouseEvent.t) (s : Js.t) :
  Js.isDragging s = false -> Js.run (map Js.MouseMove moves) s = s.
Proof.
  intros Hd. induction moves as [|e moves IH]; [reflexivity|].
  rewrite Js_run_moves_cons.
  rewrite (CameraFacts.Js_onMouseMove_idle s e (or_intror Hd)). exact IH.
Qed.

Lemma Src_run_moves_cons e moves s :
  Src.run (map Src.MouseMove (e :: moves)) s
  = Src.run (map Src.MouseMove moves) (Src.onMouseMove e s).
Proof. reflexivity. Qed.

Lemma Src_drag_follows (moves : list MouseEvent.t) : forall s : Src.t,
  Src.enabled s = true -> Src.isDragging s = true ->
  Src.previousMouse (Src.run (map Src.MouseMove moves) s)
  = pointer_after moves (Src.previousMouse s)
  /\ Src.isDragging (Src.run (map Src.MouseMove moves) s) = true
  /\ (columns Rle (x (Src.previousMouse s)) moves ->
      Src.targetTheta (Src.run (map Src.MouseMove moves) s)
      <= Src.targetTheta s)
  /\ (columns Rge (x (Src.previousMouse s)) moves ->
      Src.targetTheta s
      <= Src.targetTheta (Src.run (map Src.MouseMove moves) s))
  /\ (columns eq (x (Src.previousMouse s)) moves ->
      Src.targetTheta (Src.run (map Src.MouseMove moves) s)
      = Src.targetTheta s).
Proof.
  induction moves as [|e moves IH]; intros s He Hd.
  - simpl. split; [reflexivity|]. split; [exact Hd|].
    split; [intros _; lra|]. split; [intros _; lra | reflexivity].
  - rewrite !Src_run_moves_cons.
    assert (H1 : Src.enabled (Src.onMouseMove e s) = true
                 /\ Src.isDragging (Src.onMouseMove e s) = true
                 /\ Src.previousMouse (Src.onMouseMove e s)
                    = mkPoint (MouseEvent.clientX e) (MouseEvent.clientY e)
                 /\ Src.targetTheta (Src.onMouseMove e s)
                    = Src.targetTheta s
                      - (MouseEvent.clientX e - x (Src.previousMouse s))
                        * 0.003).
    { unfold Src.onMouseMove. rewrite He, Hd. simpl. repeat split;
        assumption. }
    destruct H1 as (He1 & Hd1 & Hp1 & Ht1).
    destruct (IH _ He1 Hd1) as (Hp & Hdr & Hle & Hge & Heq).
    rewrite Hp1 in Hp, Hle, Hge, Heq. simpl in Hle, Hge, Heq.
    split; [rewrite Hp; reflexivity|]. split; [exact Hdr|].
    split; [|split].
    + intros [C1 C2]. specialize (Hle C2). rewrite Ht1 in Hle. lra.
    + intros [C1 C2]. specialize (Hge C2). rewrite Ht1 in Hge. lra.
    + intros [C1 C2]. specialize (Heq C2). rewrite Ht1 in Heq. lra.
Qed.

Lemma Src_moves_idle (moves : list MouseEvent.t) (s : Src.t) :
  Src.isDragging s = false -> Src.run (map Src.MouseMove moves) s = s.
Proof.
  intros Hd. induction moves as [|e moves IH]; [reflexivity|].
  rewrite Src_run_moves_cons.
  rewrite (CameraFacts.Src_onMouseMove_idle s e (or_intror Hd)). exact IH.
Qed.

(** X27: a drag follows the pointer.  In both copies, after any series of
    mousemove events during a drag on enabled controls, the rig is still
    dragging and [previousMouse] is the last pointer position; if the
    pointer never moved left, [targetTheta] has not gone up; if it never
    moved right, [targetTheta] has not gone down; and if it stayed in its
    column, [targetTheta] is what it was. *)
Theorem X27_drag_follows_the_pointer :
  (forall (s : Js.t) (moves : list MouseEvent.t),
      Js.enabled s = true -> Js.isDragging s = true ->
      let s' := Js.run (map Js.MouseMove moves) s in
      Js.previousMouse s' = pointer_after moves (Js.previousMouse s)
      /\ Js.isDragging s' = true
      /\ (columns Rle (x (Js.previousMouse s)) moves ->
          Js.targetTheta s' <= Js.targetTheta s)
      /\ (columns Rge (x (Js.previousMouse s)) moves ->
          Js.targetTheta s <= Js.targetTheta s')
      /\ (columns eq (x (Js.previousMouse s)) moves ->
          Js.targetTheta s' = Js.targetTheta s))
  /\ (forall (s : Src.t) (moves : list MouseEvent.t),
        Src.enabled s = true -> Src.isDragging s = true ->
        let s' := Src.run (map Src.MouseMove moves) s in
        Src.previousMouse s' = pointer_after moves (Src.previousMouse s)
        /\ Src.isDragging s' = true
        /\ (columns Rle (x (Src.previousMouse s)) moves ->
            Src.targetTheta s' <= Src.targetTheta s)
        /\ (columns Rge (x (Src.previousMouse s)) moves ->
            Src.targetTheta s <= Src.targetTheta s')
        /\ (columns eq (x (Src.previousMouse s)) moves ->
            Src.targetTheta s' = Src.targetTheta s)).
Proof.
  split; intros s moves He Hd s'; subst s'.
  - exact (Js_drag_follows moves s He Hd).
  - exact (Src_drag_follows moves s He Hd).
Qed.

Lemma X27_witness :
  Js.previousMouse
    (Js.run (map Js.MouseMove [ex_move; ex_down]) ex_js_dragging)
  = pointer_after [ex_move; ex_down] (Js.previousMouse ex_js_dragging).
Proof.
  exact (proj1 (proj1 X27_drag_follows_the_pointer ex_js_dragging
                  [ex_move; ex_down] eq_refl eq_refl)).
Defined.

(** X28: a drag ends with the button release or with the pointer leaving
    the element.  In both copies, after [onMouseUp], which does not look
    at [enabled], [isDragging] is false, the cursor is 'grab', and no
    series of mousemove events changes anything until the next
    mousedown. *)
Theorem X28_release_ends_the_drag :
  (forall (s : Js.t) (moves : list MouseEvent.t),
      Js.isDragging (Js.onMouseUp s) = false
      /\ Js.cursor (Js.onMouseUp s) = "grab"
      /\ Js.run (map Js.MouseMove moves) (Js.onMouseUp s) = Js.onMouseUp s)
  /\ (forall (s s1 : Src.t) (env : Src.Env) (e : option MouseEvent.t)
            (moves : list MouseEvent.t),
        Src.onMouseUp env e s = Some s1 ->
        Src.isDragging s1 = false
        /\ Src.cursor s1 = "grab"
        /\ Src.run (map Src.MouseMove moves) s1 = s1).
Proof.
  split.
  - intros s moves. split; [reflexivity|]. split; [reflexivity|].
    apply Js_moves_idle. reflexivity.
  - intros s s1 env e moves H.
    assert (Hs : Src.isDragging s1 = false /\ Src.cursor s1 = "grab").
    { unfold Src.onMouseUp in H.
      destruct (Src.pendingClick s); [destruct e|];
        [destruct (Src.mouseDownPos s); [|discriminate]| |];
        injection H as <-; split; reflexivity. }
    destruct Hs as [Hd Hc]. split; [exact Hd|]. split; [exact Hc|].
    apply Src_moves_idle, Hd.
Qed.

Lemma X28_witness :
  Src.isDragging
    (Src.set_cursor "grab" (Src.set_isDragging false ex_src_dragging))
  = false.
Proof.
  exact (proj1 (proj2 X28_release_ends_the_drag ex_src_dragging _ ex_env
                  None [] eq_refl)).
Defined.

End CameraMore.

(** ** The scene *)

Module SceneMore.
Import Props MoreProps.

Lemma lookAtSkillPopup_targets position s :
  let s' := Src.lookAtSkillPopup position s in
  Rabs (Src.targetTheta s' - - PI / 3) <= 0.35
  /\ Rabs (Src.targetPhi s' - PI / 2) <= 0.15
  /\ (position <> "top-left" -> position <> "top-right" ->
      position <> "bottom" ->
      Src.targetTheta s' = - PI / 3 /\ Src.targetPhi s' = PI / 2).
Proof.
  pose proof PI_RGT_0 as HPI. pose proof PI2_3_2 as HPI3.
  unfold Src.lookAtSkillPopup.
  destruct (String.eqb_spec position "top-left") as [E1|E1];
    [|destruct (String.eqb_spec position "top-right") as [E2|E2];
      [|destruct (String.eqb_spec position "bottom") as [E3|E3]]];
    simpl; unfold Src.minPhi, Src.maxPhi, Rmax, Rmin;
    repeat destruct (Rle_dec _ _); try lra;
    (split; [|split]); try (intros; try contradiction; split; lra);
    apply Rabs_le; lra.
Qed.

Lemma lookAtSkillPopup_camera position s :
  Src.camera (Src.lookAtSkillPopup position s) = Src.camera s.
Proof.
  unfold Src.lookAtSkillPopup.
  destruct (String.eqb position "top-left");
    [|destruct (String.eqb position "top-right");
      [|destruct (String.eqb position "bottom")]]; reflexivity.
Qed.

(** X20: showing and hiding the popup.  Without a [#skill-popup] element
    [showPopup] and [hidePopup] do nothing and the popup is reported
    neither visible nor interactive.  With one, the popup is visible right
    after [showPopup(position)], with the camera targets within 0.35 rad
    of yaw and 0.15 rad of pitch of the skills panel, and after
    [hidePopup()] it is no longer visible and the targets are back on the
    skills panel, at yaw -PI/3 and pitch PI/2; neither call moves the
    camera itself. *)
Theorem X20_show_and_hide_popup (sc : PortfolioScene.t) (position : string) :
  (PortfolioScene.popupState sc = None ->
   PortfolioScene.showPopup position sc = sc
   /\ PortfolioScene.hidePopup sc = sc
   /\ PortfolioScene.isPopupVisible sc = false
   /\ PortfolioScene.isPopupInteractive sc = false)
  /\ (PortfolioScene.popupState sc <> None ->
      let shown := PortfolioScene.showPopup position sc in
      let hidden := PortfolioScene.hidePopup shown in
      PortfolioScene.isPopupVisible shown = true
      /\ Rabs (Src.targetTheta (PortfolioScene.controls shown) - - PI / 3)
         <= 0.35
      /\ Rabs (Src.targetPhi (PortfolioScene.controls shown) - PI / 2)
         <= 0.15
      /\ PortfolioScene.isPopupVisible hidden = false
      /\ PortfolioScene.isPopupInteractive hidden = false
      /\ Src.targetTheta (PortfolioScene.controls hidden) = - PI / 3
      /\ Src.targetPhi (PortfolioScene.controls hidden) = PI / 2
      /\ PortfolioScene.camera hidden = PortfolioScene.camera sc).
Proof.
  split.
  - intros Hn. unfold PortfolioScene.showPopup, PortfolioScene.hidePopup,
      PortfolioScene.isPopupVisible, PortfolioScene.isPopupInteractive.
    rewrite Hn. repeat split.
  - intros Hs shown hidden. subst hidden shown.
    destruct (PortfolioScene.popupState sc) as [popup|] eqn:Hp;
      [|contradiction].
    unfold PortfolioScene.showPopup, PortfolioScene.hidePopup,
      PortfolioScene.isPopupVisible, PortfolioScene.isPopupInteractive,
      PortfolioScene.camera.
    rewrite Hp. cbn [PortfolioScene.popupState PortfolioScene.controls].
    destruct (lookAtSkillPopup_targets position (PortfolioScene.controls sc))
      as (Ht & Hph & _).
    destruct (PopupFacts.open_close_pending position popup) as (Hc & _).
    split.
    { unfold PopupStateManager.isVisible.
      rewrite PopupFacts.open_state.
      destruct (String.eqb (PopupStateManager.state popup) _);
        reflexivity. }
    split; [exact Ht|]. split; [exact Hph|].
    unfold PopupStateManager.isVisible, PopupStateManager.isInteractive.
    rewrite Hc.
    split; [reflexivity|]. split; [reflexivity|].
    unfold Src.lookAtLeft, Src.lookAt.
    destruct (Req_dec_T (PI / 2) 0); simpl;
      repeat split; apply lookAtSkillPopup_camera.
Qed.

Lemma X20_witness :
  PortfolioScene.isPopupVisible
    (PortfolioScene.showPopup "bottom"
       (PortfolioScene.constructor (PortfolioScene.mkEnv 1280 720 (Some ∅))))
  = true.
Proof.
  refine (proj1 (proj2 (X20_show_and_hide_popup
                          (PortfolioScene.constructor
                             (PortfolioScene.mkEnv 1280 720 (Some ∅)))
                          "bottom") _)).
  discriminate.
Defined.





End SceneMore.

(** ** Listeners *)

Module ListenersMore.
Import Props MoreProps Listeners.

Lemma remove_method_arrows tg ty name (ls : list Listener) :
  Forall is_arrow ls ->
  removeEventListener tg ty (Method name) ls = ls.
Proof.
  unfold removeEventListener. induction 1 as [|l ls Hl _ IH]; [reflexivity|].
  rewrite filter_cons, IH. destruct (decide _) as [_|Hn]; [reflexivity|].
  exfalso. apply Hn. intros ->. exact Hl.
Qed.

Lemma add_arrow tg ty ev cap (ls : list Listener) :
  Forall is_arrow ls ->
  Forall is_arrow (addEventListener tg ty (Arrow ev) cap ls).
Proof.
  intros H. unfold addEventListener. destruct (decide _); [exact H|].
  apply Forall_app. split; [exact H|]. repeat constructor.
Qed.

Lemma constructor_arrows wheel (ls : list Listener) :
  Forall is_arrow ls -> Forall is_arrow (constructor wheel ls).
Proof.
  intros H. unfold constructor, setupKeyboardControls, setupTouchControls,
    setupMouseControls.
  destruct wheel; repeat apply add_arrow; exact H.
Qed.

(** X22: [dispose()] detaches nothing.  It asks the element to remove the
    methods [onMouseDown], ..., [onTouchEnd] themselves, whereas the
    constructor registered arrow functions around them; so on any element
    that carries only arrow-function listeners, every listener the
    constructor added - eight in [js/], nine with the wheel in [src/js/] -
    is still registered after [dispose()], the ones for 'mouseleave',
    'wheel' and 'keydown' not even being asked for. *)
Theorem X22_dispose_detaches_nothing (wheel : bool) (ls : list Listener) :
  Forall is_arrow ls ->
  dispose (constructor wheel ls) = constructor wheel ls
  /\ length (constructor wheel []) = (if wheel then 9 else 8)%nat
  /\ length (dispose (constructor wheel [])) = (if wheel then 9 else 8)%nat.
Proof.
  intros H.
  assert (Hd : forall l0, Forall is_arrow l0 -> dispose l0 = l0).
  { intros l0 H0. unfold dispose.
    do 6 rewrite (remove_method_arrows _ _ _ l0 H0). reflexivity. }
  split; [apply Hd, constructor_arrows, H|].
  rewrite Hd by (apply constructor_arrows; constructor).
  split; destruct wheel; reflexivity.
Qed.

Lemma X22_witness :
  dispose (constructor true []) = constructor true [].
Proof.
  apply (X22_dispose_detaches_nothing true []). constructor.
Defined.

End ListenersMore.

(** ** [script.js] *)

Module ScriptMore.
Import Props MoreProps Script.

(** X23: [updateNavActive(direction)] highlights by direction.  It keeps
    the buttons and their order, and afterwards a button carries the
    class 'active' exactly when its [data-direction] is the direction
    asked for; its other classes are as before.  So a direction no button
    has leaves none active, and two buttons with the same direction are
    both active. *)
Theorem X23_updateNavActive (dir : string) (buttons : list NavButton) :
  length (updateNavActive dir buttons) = length buttons
  /\ forall (j : nat) (b : NavButton),
       buttons !! j = Some b ->
       exists b' : NavButton,
         updateNavActive dir buttons !! j = Some b'
         /\ direction b' = direction b
         /\ (("active" ∈ classList b') <-> direction b = Some dir)
         /\ forall c : string,
              c <> "active" -> ((c ∈ classList b') <-> (c ∈ classList b)).
Proof.
  unfold updateNavActive. split; [apply length_fmap|].
  intros j b Hj. rewrite list_lookup_fmap, Hj. simpl.
  eexists. split; [reflexivity|].
  unfold classList_toggle.
  destruct (bool_decide_reflect (direction b = Some dir)) as [E|E]; simpl.
  - split; [reflexivity|]. split; [set_solver|]. intros c Hc. set_solver.
  - split; [reflexivity|]. split; [set_solver|]. intros c Hc. set_solver.
Qed.

Lemma X23_witness :
  exists b' : NavButton,
    updateNavActive "left"
      [mkNavButton (Some "front") {[ "nav-btn"; "active" ]};
       mkNavButton (Some "left") {[ "nav-btn" ]}] !! 1%nat = Some b'
    /\ ("active" ∈ classList b').
Proof.
  destruct (proj2 (X23_updateNavActive "left"
              [mkNavButton (Some "front") {[ "nav-btn"; "active" ]};
               mkNavButton (Some "left") {[ "nav-btn" ]}])
              1%nat _ eq_refl) as (b' & H1 & _ & H3 & _).
  exists b'. split; [exact H1 | apply H3; reflexivity].
Defined.

(** X24: a click on a navigation button makes it the only active one.
    After the click handler of the [k]-th button, the buttons and their
    order are as before, a button carries 'active' exactly when it is the
    [k]-th, and every other class is untouched. *)
Theorem X24_nav_click_highlights_one
    (k : nat) (buttons : list NavButton) :
  (k < length buttons)%nat ->
  length (navClick_classes k buttons) = length buttons
  /\ forall (j : nat) (b : NavButton),
       buttons !! j = Some b ->
       exists b' : NavButton,
         navClick_classes k buttons !! j = Some b'
         /\ direction b' = direction b
         /\ (("active" ∈ classList b') <-> j = k)
         /\ forall c : string,
              c <> "active" -> ((c ∈ classList b') <-> (c ∈ classList b)).
Proof.
  intros Hk. unfold navClick_classes.
  split; [rewrite length_alter; apply length_fmap|].
  intros j b Hj. destruct (decide (j = k)) as [->|Hne].
  - rewrite list_lookup_alter_eq, list_lookup_fmap, Hj. simpl.
    eexists. split; [reflexivity|]. split; [reflexivity|].
    split; [set_solver|]. intros c Hc. set_solver.
  - rewrite list_lookup_alter_ne by congruence.
    rewrite list_lookup_fmap, Hj. simpl.
    eexists. split; [reflexivity|]. split; [reflexivity|].
    split; [set_solver|]. intros c Hc. set_solver.
Qed.

Lemma X24_witness :
  length (navClick_classes 0
            [mkNavButton (Some "front") ∅; mkNavButton (Some "left") ∅])
  = 2%nat.
Proof.
  refine (proj1 (X24_nav_click_highlights_one 0
                   [mkNavButton (Some "front") ∅;
                    mkNavButton (Some "left") ∅] _)).
  simpl. lia.
Defined.

(** X25: the keyboard shortcuts do what the navigation buttons do.  With
    a scene on the page and the focus outside an input or a textarea, the
    keys 1, 2, 3 and 4 leave the controls as a click on the 'front',
    'left', 'right' and 'back' button does, and Escape as key 1; a second
    run of the same jump changes nothing more, and a jump writes the
    targets only, not the angles nor the camera.  In an INPUT or a
    TEXTAREA, or without a scene, no key does anything. *)
Theorem X25_shortcuts_match_buttons
    (h : Hud) (c : SrcCameraControls.t) (tagName key : string) :
  (controls h = Some c ->
   tagName <> "INPUT" -> tagName <> "TEXTAREA" ->
   controls (onKeyDown tagName "1" h) = Some (navLook (Some "front") c)
   /\ controls (onKeyDown tagName "2" h) = Some (navLook (Some "left") c)
   /\ controls (onKeyDown tagName "3" h) = Some (navLook (Some "right") c)
   /\ controls (onKeyDown tagName "4" h) = Some (navLook (Some "back") c)
   /\ onKeyDown tagName "Escape" h
      = mkHud (Some (navLook (Some "front") c))
              (updateNavActive "front" (navButtons h))
              (feedback h ++ ["reset"]))
  /\ (forall dir : option string,
        navLook dir (navLook dir c) = navLook dir c
        /\ Src.theta (navLook dir c) = Src.theta c
        /\ Src.phi (navLook dir c) = Src.phi c
        /\ Src.camera (navLook dir c) = Src.camera c)
  /\ (tagName = "INPUT" \/ tagName = "TEXTAREA" \/ controls h = None ->
      onKeyDown tagName key h = h).
Proof.
  split; [|split].
  - intros Hc H1 H2. apply String.eqb_neq in H1, H2.
    unfold onKeyDown, jump. rewrite H1, H2, Hc. simpl. repeat split.
  - intros dir. unfold navLook.
    destruct dir as [d|]; [|repeat split].
    destruct (String.eqb d "front"); [repeat split|].
    destruct (String.eqb d "left"); [repeat split|].
    destruct (String.eqb d "right"); [repeat split|].
    destruct (String.eqb d "back"); repeat split.
  - intros [->|[->|Hn]]; unfold onKeyDown; try reflexivity.
    unfold jump. rewrite Hn.
    repeat match goal with
           | |- context [if ?b then _ else _] => destruct b
           end; reflexivity.
Qed.

Lemma X25_witness :
  onKeyDown "INPUT" "2" (mkHud (Some ex_src) [] []) = mkHud (Some ex_src) [] [].
Proof.
  apply (proj2 (proj2 (X25_shortcuts_match_buttons
                         (mkHud (Some ex_src) [] []) ex_src "INPUT" "2"))).
  left. reflexivity.
Defined.

(** *** The typing effect *)

Lemma substring_step (s : string) : forall k : nat,
  (k < String.length s)%nat ->
  String.append (String.substring 0 k s) (charAt s k)
  = String.substring 0 (S k) s.
Proof.
  unfold charAt. induction s as [|ch s IH]; intros k Hk; simpl in Hk.
  - lia.
  - destruct k as [|k]; simpl.
    + reflexivity.
    + cbv [String.append]. fold String.append. f_equal. apply IH. lia.
Qed.

Lemma substring_all (s : string) :
  String.substring 0 (String.length s) s = s.
Proof. induction s as [|ch s IH]; simpl; [reflexivity | f_equal; exact IH]. Qed.

Lemma typed_prefix (content : string) (n : nat) :
  (n <= String.length content)%nat ->
  typed n content = mkTyping content (String.substring 0 n content) n true.
Proof.
  unfold typed. induction n as [|n IH]; intros Hn.
  - simpl. destruct content; reflexivity.
  - simpl. rewrite IH by lia. unfold type. simpl.
    destruct (Nat.ltb_spec n (String.length content)) as [_|Hge]; [|lia].
    rewrite substring_step by lia. reflexivity.
Qed.

Lemma typed_done (content : string) (n : nat) :
  (String.length content < n)%nat ->
  typed n content
  = mkTyping content content (String.length content) false.
Proof.
  unfold typed. induction n as [|n IH]; intros Hn; [lia|].
  simpl. destruct (decide (n = String.length content)) as [->|Hne].
  - fold (typed (String.length content) content).
    rewrite typed_prefix by lia. unfold type. simpl.
    rewrite Nat.ltb_irrefl, substring_all. reflexivity.
  - rewrite IH by lia. reflexivity.
Qed.

(** X26: the typing effect types the saved text and stops.  After [n]
    firings of its timer the element shows the first [n] characters of
    the text it held and the next firing is scheduled, as long as [n] does
    not exceed the length of the text; one firing later the element shows
    the whole text again, nothing is scheduled any more, and any further
    firing leaves everything as it is. *)
Theorem X26_typing_effect_retypes_the_text (content : string) (n : nat) :
  ((n <= String.length content)%nat ->
   textContent (typed n content) = String.substring 0 n content
   /\ scheduled (typed n content) = true)
  /\ ((String.length content < n)%nat ->
      textContent (typed n content) = content
      /\ scheduled (typed n content) = false
      /\ type (typed n content) = typed n content).
Proof.
  split; intros Hn.
  - rewrite typed_prefix by exact Hn. split; reflexivity.
  - rewrite typed_done by exact Hn. repeat split.
Qed.

Lemma X26_witness :
  textContent (typed 3 "hello") = String.substring 0 3 "hello"
  /\ scheduled (typed 3 "hello") = true.
Proof.
  apply (proj1 (X26_typing_effect_retypes_the_text "hello" 3)).
  simpl. lia.
Defined.

Example typing_hello :
  textContent (typed 3 "hello") = "hel"
  /\ textContent (typed 6 "hello") = "hello"
  /\ scheduled (typed 5 "hello") = true
  /\ scheduled (typed 6 "hello") = false.
Proof. repeat split. Qed.

End ScriptMore.
